(** * gunlog: the parsing and aggregation core of the log analyzers

    A shallow embedding of the functions of [gunlog_traffic.py],
    [gunlog_seo.py], [gunlog_content.py], [gunlog_performance.py] and
    [gunlog_security.py] that parse timestamps, match threat patterns,
    reconstruct visitor sessions and derive statistics, together with the
    properties the specification states about them and further properties
    of the scans and their counters.

    Conventions of the embedding.
    - A Python [str] is a [string]; its characters are the code points
      0..255.  Every pattern and separator of the source is ASCII, and in
      that range Python's case folding and whitespace classes are the ones
      written out below.
    - A [datetime] is the number of microseconds since 0001-01-01T00:00:00,
      a [timedelta] a number of microseconds; both are [Z].
    - A Python [float] is its exact rational value in [Q], and arithmetic
      on floats is exact; for the percentile indices the binary64
      computation is modelled as well and compared with the exact one.
    - A [dict], [defaultdict] or [Counter] is a [gmap]; where the iteration
      order is visible in the result, an association list.
    - [datetime.datetime.now()] is a parameter [now] of the function that
      calls it.
    - What depends on the machine or on a package outside the repository
      is a parameter as well: the datetimes for which [timestamp()]
      raises (they depend on the local time zone), the strings for which
      [urlparse] raises, and the functions of the traffic analyzer that
      rest on [ipaddress], [urllib], [user_agents] and [geoip2].  An
      exception that leaves the loop makes [parse_access_log] return
      [None]; the models return [None] as well. *)

From Stdlib Require Import ZArith QArith Qround Ascii String List Bool Lia.
From Stdlib Require Import Sorting.Mergesort Sorting.Sorted Sorting.Permutation Orders.
From Stdlib Require Import Floats Uint63.
From stdpp Require Import base option list gmap strings fin_maps.

#[local] Open Scope string_scope.
#[local] Open Scope list_scope.
#[local] Open Scope Z_scope.

(* ===================================================================== *)
(** ** Python built-ins used by the analyzers *)
(* ===================================================================== *)

Module Py.

(** [str.isspace] on one character, for the code points 0..255: the ASCII
    controls 9..13 and 28..31, the space, NEL (0x85) and NBSP (0xA0).  The
    same class is [\s] in [re] and the separator of [str.split()]. *)
Definition is_space (c : ascii) : bool :=
  let n := nat_of_ascii c in
  ((9 <=? n) && (n <=? 13))%nat || ((28 <=? n) && (n <=? 32))%nat
  || (n =? 133)%nat || (n =? 160)%nat.

Definition is_digit (c : ascii) : bool :=
  let n := nat_of_ascii c in ((48 <=? n) && (n <=? 57))%nat.

Definition is_upper (c : ascii) : bool :=
  let n := nat_of_ascii c in ((65 <=? n) && (n <=? 90))%nat.

Definition is_lower (c : ascii) : bool :=
  let n := nat_of_ascii c in ((97 <=? n) && (n <=? 122))%nat.

(** [str.lower] on one character: the ASCII capitals, and in Latin-1 the
    capitals 0xC0..0xDE except the multiplication sign 0xD7. *)
Definition lower_char (c : ascii) : ascii :=
  let n := nat_of_ascii c in
  if is_upper c then ascii_of_nat (n + 32)
  else if ((192 <=? n) && (n <=? 222) && negb (n =? 215))%nat
       then ascii_of_nat (n + 32)
  else c.

Fixpoint lower (s : string) : string :=
  match s with
  | EmptyString => EmptyString
  | String c r => String (lower_char c) (lower r)
  end.

(** [sub in s] *)
Fixpoint contains (sub s : string) : bool :=
  String.prefix sub s ||
  match s with
  | EmptyString => false
  | String _ r => contains sub r
  end.

(** [s.split(sep, maxsplit)] for a one-character separator: at most
    [maxsplit] cuts, from the left; the last part keeps the rest. *)
Fixpoint split_max (sep : ascii) (maxsplit : nat) (s : string) {struct s} : list string :=
  match maxsplit with
  | O => [s]
  | S k =>
      match s with
      | EmptyString => [EmptyString]
      | String c r =>
          if Ascii.eqb c sep then EmptyString :: split_max sep k r
          else match split_max sep maxsplit r with
               | first :: rest => String c first :: rest
               | [] => [String c EmptyString]
               end
      end
  end.

(** [c in s] for one character *)
Fixpoint has_char (c : ascii) (s : string) : bool :=
  match s with
  | EmptyString => false
  | String d r => Ascii.eqb d c || has_char c r
  end.

(** [s.split(sep)] for a one-character separator, without a limit. *)
Fixpoint split (sep : ascii) (s : string) : list string :=
  match s with
  | EmptyString => [EmptyString]
  | String c r =>
      if Ascii.eqb c sep then EmptyString :: split sep r
      else match split sep r with
           | first :: rest => String c first :: rest
           | [] => [String c EmptyString]
           end
  end.

(** [s.split()]: maximal runs of non-whitespace characters. *)
Fixpoint split_ws_aux (cur : option string) (s : string) : list string :=
  match s with
  | EmptyString => match cur with Some w => [w] | None => [] end
  | String c r =>
      if is_space c then
        match cur with
        | Some w => w :: split_ws_aux None r
        | None => split_ws_aux None r
        end
      else
        split_ws_aux (Some (match cur with Some w => (w ++ String c "")%string | None => String c "" end)) r
  end.

Definition split_ws (s : string) : list string := split_ws_aux None s.

(** The whitespace that [int()] strips: as [is_space], without the
    controls 28..31. *)
Definition is_int_space (c : ascii) : bool :=
  let n := nat_of_ascii c in
  ((9 <=? n) && (n <=? 13))%nat || (n =? 32)%nat || (n =? 133)%nat || (n =? 160)%nat.

Fixpoint lstrip_by (sp : ascii -> bool) (s : string) : string :=
  match s with
  | String c r => if sp c then lstrip_by sp r else s
  | EmptyString => EmptyString
  end.

Definition strip_by (sp : ascii -> bool) (s : string) : string :=
  String.rev (lstrip_by sp (String.rev (lstrip_by sp s))).

(** The digits of a decimal literal as [int()] accepts them: one or more
    digits, single underscores allowed between two digits. *)
Fixpoint digits_value (acc : Z) (prev_digit : bool) (s : string) : option Z :=
  match s with
  | EmptyString => if prev_digit then Some acc else None
  | String c r =>
      if is_digit c then
        digits_value (10 * acc + (Z.of_nat (nat_of_ascii c) - 48)) true r
      else if Ascii.eqb c "_" then
        if prev_digit then
          match r with
          | String d _ => if is_digit d then digits_value acc false r else None
          | EmptyString => None
          end
        else None
      else None
  end.

Fixpoint count_digits (s : string) : nat :=
  match s with
  | EmptyString => O
  | String c r => if is_digit c then S (count_digits r) else count_digits r
  end.

(** [sys.get_int_max_str_digits()], the default of CPython 3.11 and later:
    a literal with more digits is refused. *)
Definition int_max_str_digits : nat := 4300.

Definition int_literal (t : string) : option Z :=
  if (count_digits t <=? int_max_str_digits)%nat then digits_value 0 false t else None.

(** [int(s)] in base 10: surrounding whitespace is stripped, one sign is
    allowed; [None] stands for [ValueError]. *)
Definition int (s : string) : option Z :=
  match strip_by is_int_space s with
  | String "+" r => int_literal r
  | String "-" r => Z.opp <$> int_literal r
  | t => int_literal t
  end.

(** [os.path.splitext(p)[1]] (posixpath): the suffix from the last dot,
    when that dot comes after the last slash and after some character of
    the file name that is not a dot. *)
Fixpoint rfind_from (c : ascii) (i : Z) (s : string) (found : Z) : Z :=
  match s with
  | EmptyString => found
  | String d r => rfind_from c (i + 1) r (if Ascii.eqb d c then i else found)
  end.

Definition rfind (c : ascii) (s : string) : Z := rfind_from c 0 s (-1).

Fixpoint all_dots (s : string) : bool :=
  match s with
  | EmptyString => true
  | String c r => Ascii.eqb c "." && all_dots r
  end.

Definition splitext_ext (p : string) : string :=
  let sepIndex := rfind "/" p in
  let dotIndex := rfind "." p in
  if dotIndex >? sepIndex then
    let filenameIndex := sepIndex + 1 in
    if all_dots (String.substring (Z.to_nat filenameIndex)
                                  (Z.to_nat (dotIndex - filenameIndex)) p)
    then ""
    else String.substring (Z.to_nat dotIndex)
                          (String.length p - Z.to_nat dotIndex) p
  else "".

End Py.

(* ===================================================================== *)
(** ** TimestampParser: [parse_time] (traffic, security, content, seo) *)
(* ===================================================================== *)

Module TimestampParser.

Definition us_per_second : Z := 1000000.
Definition us_per_day : Z := 86400 * us_per_second.

(** [datetime.timestamp()] of a naive datetime goes through the local
    time zone.  On a machine whose zone is UTC, or lies west of it, the
    call raises [ValueError] exactly for the datetimes of 0001-01-01. *)
Definition timestamp_raises_utc (dt : Z) : bool := dt <? us_per_day.

(** [datetime] internals: the proleptic Gregorian calendar. *)
Definition is_leap (y : Z) : bool :=
  (y mod 4 =? 0) && (negb (y mod 100 =? 0) || (y mod 400 =? 0)).

Definition days_in_month (y m : Z) : Z :=
  if m =? 2 then (if is_leap y then 29 else 28)
  else if (m =? 4) || (m =? 6) || (m =? 9) || (m =? 11) then 30
  else 31.

Definition days_before_year (y : Z) : Z :=
  let y' := y - 1 in y' * 365 + y' / 4 - y' / 100 + y' / 400.

Fixpoint days_before_month_aux (y : Z) (k : nat) : Z :=
  match k with
  | O => 0
  | S j => days_before_month_aux y j + days_in_month y (Z.of_nat k)
  end.

Definition days_before_month (y m : Z) : Z :=
  days_before_month_aux y (Z.to_nat (m - 1)).

Definition ymd2ord (y m d : Z) : Z :=
  days_before_year y + days_before_month y m + d.

(** [datetime.datetime(year, month, day, hour, minute, second)]; [None]
    stands for the [ValueError] of an out-of-range field. *)
Definition datetime_new (year month day hour minute second : Z) : option Z :=
  if (1 <=? year) && (year <=? 9999) && (1 <=? month) && (month <=? 12)
     && (1 <=? day) && (day <=? days_in_month year month)
     && (0 <=? hour) && (hour <=? 23) && (0 <=? minute) && (minute <=? 59)
     && (0 <=? second) && (second <=? 59)
  then Some (((((ymd2ord year month day - 1) * 24 + hour) * 60 + minute) * 60
               + second) * us_per_second)
  else None.

(** [dt.toordinal()] and [dt.weekday()], Monday = 0. *)
Definition toordinal (dt : Z) : Z := dt / us_per_day + 1.
Definition weekday (dt : Z) : Z := (toordinal dt + 6) mod 7.

Definition month_names : list (string * Z) :=
  [("Jan", 1); ("Feb", 2); ("Mar", 3); ("Apr", 4); ("May", 5); ("Jun", 6);
   ("Jul", 7); ("Aug", 8); ("Sep", 9); ("Oct", 10); ("Nov", 11); ("Dec", 12)].

Fixpoint dict_get {V} (d : list (string * V)) (k : string) (dflt : V) : V :=
  match d with
  | [] => dflt
  | (k', v) :: r => if String.eqb k' k then v else dict_get r k dflt
  end.

(** A timestamp that [parse_time] can read, in the words of the format
    [DD/Mon/YYYY:HH:MM:SS zone]: three fields separated by slashes, a
    colon, two fields each closed by a colon, and a rest whose first
    blank-separated word is the second; the numeric fields are integer
    literals and make up a valid date and time of day.  The month is any
    text without a slash or a colon. *)
Definition parseable (s : string) : Prop :=
  exists day month year hour minute rest second more y d h mi sec dt,
    s = (day ++ "/" ++ month ++ "/" ++ year ++ ":" ++ hour ++ ":" ++ minute ++ ":" ++ rest)%string
    /\ Py.has_char "/" day = false /\ Py.has_char ":" day = false
    /\ Py.has_char "/" month = false /\ Py.has_char ":" month = false
    /\ Py.has_char "/" year = false /\ Py.has_char ":" year = false
    /\ Py.has_char ":" hour = false /\ Py.has_char ":" minute = false
    /\ Py.split_ws rest = second :: more
    /\ Py.int year = Some y /\ Py.int day = Some d /\ Py.int hour = Some h
    /\ Py.int minute = Some mi /\ Py.int second = Some sec
    /\ datetime_new y (dict_get month_names month 1) d h mi sec = Some dt.

(** The body of the [try] block of [parse_time]; [None] when any statement
    of it raises. *)
Definition parse_time_try (time_str : string) : option (Z * Z * Z) :=
  match Py.split_max ":" 1 time_str with
  | [date_part; time_part] =>
      match Py.split "/" date_part with
      | [day; month; year] =>
          match Py.split_max ":" 2 time_part with
          | [hour; minute; rest] =>
              match Py.split_ws rest with
              | second :: _ =>
                  let month_num := dict_get month_names month 1 in
                  y ← Py.int year;
                  d ← Py.int day;
                  h ← Py.int hour;
                  mi ← Py.int minute;
                  s ← Py.int second;
                  dt ← datetime_new y month_num d h mi s;
                  Some (dt, h, weekday dt)
              | [] => None
              end
          | _ => None
          end
      | _ => None
      end
  | _ => None
  end.

(** [parse_time(time_str)], with the clock reading that
    [datetime.datetime.now()] would return in the [except] branch. *)
Definition parse_time (now : Z) (time_str : string) : Z * Z * Z :=
  match parse_time_try time_str with
  | Some r => r
  | None => (now, 0, 0)
  end.

(** [datetime.timedelta(minutes=n)] *)
Definition minutes (n : Z) : Z := n * 60 * us_per_second.

(** 2023-10-10T13:55:36, a Tuesday. *)
Definition t_2023_10_10_135536 : Z := 63832542936000000.

(** 2023-10-09T00:15:30, a Monday shortly after midnight. *)
Definition t_2023_10_09_001530 : Z := 63832407330000000.

End TimestampParser.

(* ===================================================================== *)
(** ** Counters *)
(* ===================================================================== *)

(** [collections.Counter]: a missing key reads as 0. *)
Definition count `{Countable K} (c : gmap K Z) (k : K) : Z := default 0 (c !! k).

(** [c[k] += 1] *)
Definition incr `{Countable K} (k : K) (c : gmap K Z) : gmap K Z :=
  <[k := count c k + 1]> c.

(** [sum(c.values())] *)
Definition sum_values `{Countable K} (c : gmap K Z) : Z :=
  foldr (fun kv acc => kv.2 + acc) 0 (map_to_list c).

(* ===================================================================== *)
(** ** Security score ([gunlog_security.py]) *)
(* ===================================================================== *)

Module Security.

(** An entry of [metrics['security_events']]. *)
Record security_event := {
  ev_timestamp : Z;
  ev_ip : string;
  event_type : string;
  ev_url : string;
  ev_status_code : Z
}.

(** The parts of [metrics] that the score reads. *)
Record metrics := {
  attack_types : gmap string Z;
  security_events : list security_event;
  sensitive_urls_accessed : gmap string Z
}.

Definition attack_count (m : metrics) : Z := sum_values (attack_types m).

(** [sum(1 for event in ... if event['event_type'] == 'Authentication Failure')] *)
Definition auth_failures (m : metrics) : Z :=
  foldr (fun e acc => if String.eqb (event_type e) "Authentication Failure"
                      then 1 + acc else acc) 0 (security_events m).

Definition sensitive_access (m : metrics) : Z := sum_values (sensitive_urls_accessed m).

(** The score of [generate_security_report] and of
    [generate_plain_text_report] (the two computations are the same text). *)
Definition score_of_counts (attack_count auth_failures sensitive_access : Z) : Z :=
  let security_score := 100 in
  let security_score :=
    if attack_count >? 0 then security_score - Z.min 50 attack_count
    else security_score in
  let security_score :=
    if auth_failures >? 0 then security_score - Z.min 20 (auth_failures * 5)
    else security_score in
  let security_score :=
    if sensitive_access >? 0 then security_score - Z.min 20 (sensitive_access * 2)
    else security_score in
  Z.max 0 security_score.

Definition security_score (m : metrics) : Z :=
  score_of_counts (attack_count m) (auth_failures m) (sensitive_access m).

(** The penalties in the specification's words: so many points per
    occurrence, capped. *)
Definition capped_penalty (cap per_item n : Z) : Z := Z.min cap (per_item * Z.max 0 n).

End Security.

(* ===================================================================== *)
(** ** Session tracking and bounce rate ([gunlog_traffic.py]) *)
(* ===================================================================== *)

Module Traffic.

(** [datetime.timedelta(minutes=30)] *)
Definition session_timeout : Z := 30 * 60 * TimestampParser.us_per_second.

Definition static_extensions : list string :=
  [".jpg"; ".jpeg"; ".png"; ".gif"; ".ico"; ".css";
   ".js"; ".svg"; ".woff"; ".woff2"; ".ttf"; ".eot"].

(** [file_ext = os.path.splitext(url)[1].lower()] and
    [is_static = file_ext in static_extensions] *)
Definition file_ext (url : string) : string := Py.lower (Py.splitext_ext url).

Definition is_static (url : string) : bool :=
  existsb (String.eqb (file_ext url)) static_extensions.

(** [session_id = f"{ip}_{timestamp.timestamp()}"]: the identifier is
    determined by the client and the first timestamp of the session, and
    is modelled by that pair.  The call [timestamp.timestamp()] can raise;
    see [track]. *)
Abbreviation session_id := (string * Z)%type (only parsing).

(** An element of [metrics['sessions'][ip]]: [(timestamp, url, session_id)]. *)
Abbreviation visit := (Z * string * (string * Z))%type (only parsing).

(** A matched log line after field extraction, as session tracking sees it. *)
Record hit := {
  ip : string;
  timestamp : Z;
  url : string;
  status_code : Z
}.

(** The variables that the session-tracking block reads and writes:
    [ip_sessions], [metrics['sessions']], [metrics['entry_pages']],
    [metrics['exit_pages']] and [metrics['paths']]. *)
Record tracker := {
  ip_sessions : gmap string Z;
  sessions : gmap string (list visit);
  entry_pages : gmap string Z;
  exit_pages : gmap string Z;
  paths : list (Z * string * string * session_id)
}.

Definition init : tracker :=
  {| ip_sessions := ∅; sessions := ∅; entry_pages := ∅; exit_pages := ∅; paths := [] |}.

(** [metrics['sessions'][ip]] on the [defaultdict(list)] *)
Definition sessions_of (st : tracker) (client : string) : list visit :=
  default [] (sessions st !! client).

(** The block "Session tracking" of the loop body, up to the append to
    [metrics['paths']].  [None] stands for an exception: the
    [IndexError] of [metrics['sessions'][ip][0]] on an empty list, and
    the error of [timestamp.timestamp()] where a session id is made.
    [timestamp_raises t] says that the call raises for the naive
    datetime [t]: it goes through the local time zone and raises
    [ValueError] for the datetimes of 0001-01-01 and, east of Greenwich,
    for some of 9999-12-31. *)
Definition track (timestamp_raises : Z -> bool) (e : hit) (st : tracker)
    : option tracker :=
  let count_entry (c : gmap string Z) :=
    if negb (is_static (url e)) && (status_code e =? 200) then incr (url e) c else c in
  let fresh : session_id := (ip e, timestamp e) in
  let commit (sid : session_id) (vs : list visit) (entry exit : gmap string Z) :=
    {| ip_sessions := <[ip e := timestamp e]> (ip_sessions st);
       sessions := <[ip e := vs]> (sessions st);
       entry_pages := entry;
       exit_pages := exit;
       paths := paths st ++ [(timestamp e, ip e, url e, sid)] |} in
  match ip_sessions st !! ip e with
  | Some last_time =>
      if timestamp e - last_time >? session_timeout then
        if timestamp_raises (timestamp e) then None
        else
          let exit :=
            match last (sessions_of st (ip e)) with
            | Some (_, prev_url, _) => incr prev_url (exit_pages st)
            | None => exit_pages st
            end in
          Some (commit fresh [(timestamp e, url e, fresh)]
                       (count_entry (entry_pages st)) exit)
      else
        match sessions_of st (ip e) with
        | first :: _ =>
            let sid := first.2 in
            Some (commit sid (sessions_of st (ip e) ++ [(timestamp e, url e, sid)])
                         (entry_pages st) (exit_pages st))
        | [] => None
        end
  | None =>
      if timestamp_raises (timestamp e) then None
      else
        Some (commit fresh [(timestamp e, url e, fresh)]
                     (count_entry (entry_pages st)) (exit_pages st))
  end.

(** The invariant of the loop: every client seen so far has an open
    session whose last visit carries the client's last-seen time, and all
    visits of an open session carry one session id. *)
Definition well_formed (st : tracker) : Prop :=
  forall client t, ip_sessions st !! client = Some t ->
    exists vs u sid,
      sessions st !! client = Some vs /\ last vs = Some (t, u, sid)
      /\ Forall (fun v : visit => v.2 = sid) vs.

(** The loop over the hits of one log file. *)
Fixpoint run (timestamp_raises : Z -> bool) (evs : list hit) (st : tracker)
    : option tracker :=
  match evs with
  | [] => Some st
  | e :: rest => st' ← track timestamp_raises e st; run timestamp_raises rest st'
  end.

(** "After processing, record remaining exit pages". *)
Definition record_remaining_exit_pages (st : tracker) : tracker :=
  {| ip_sessions := ip_sessions st;
     sessions := sessions st;
     entry_pages := entry_pages st;
     exit_pages :=
       foldl (fun acc (kv : string * list visit) =>
                match last kv.2 with
                | Some (_, last_url, _) => incr last_url acc
                | None => acc
                end) (exit_pages st) (map_to_list (sessions st));
     paths := paths st |}.

Definition track_all (timestamp_raises : Z -> bool) (evs : list hit) : option tracker :=
  record_remaining_exit_pages <$> run timestamp_raises evs init.

(** The set [unique_pages] that [calculate_bounce_rate] builds for one
    session. *)
Definition unique_pages (session : list visit) : gset string :=
  foldl (fun (acc : gset string) (v : visit) =>
           if is_static v.1.2 then acc else acc ∪ {[ v.1.2 ]}) ∅ session.

(** The two counters of [calculate_bounce_rate] after its loop. *)
Definition bounce_counters (sessions : gmap string (list visit)) : Z * Z :=
  foldl (fun (acc : Z * Z) (kv : string * list visit) =>
           let single_page_sessions :=
             if (size (unique_pages kv.2) =? 1)%nat then acc.1 + 1 else acc.1 in
           (single_page_sessions, acc.2 + 1))
        (0, 0) (map_to_list sessions).

(** [calculate_bounce_rate(metrics)] *)
Definition calculate_bounce_rate (sessions : gmap string (list visit)) : Q :=
  let '(single_page_sessions, total_sessions) := bounce_counters sessions in
  if total_sessions >? 0
  then (inject_Z single_page_sessions / inject_Z total_sessions * 100)%Q
  else 0%Q.

(** *** The bounce rate in the specification's words

    "For a finished session, count it as a bounce iff the count of
    distinct non-static URLs visited in that session equals 1.  Bounce
    rate = bounces / total sessions x 100."  The sessions of a client are
    the runs of its hits that a gap of more than 30 minutes separates;
    when the log ends every one of them is finished. *)
Fixpoint cut_sessions (last_time : Z) (current : list (Z * string))
    (hits : list (Z * string)) : list (list (Z * string)) :=
  match hits with
  | [] => [current]
  | (t, u) :: rest =>
      if t - last_time >? session_timeout
      then current :: cut_sessions t [(t, u)] rest
      else cut_sessions t (current ++ [(t, u)]) rest
  end.

Definition sessions_of_client (client : string) (evs : list hit)
    : list (list (Z * string)) :=
  match map (fun e => (timestamp e, url e))
            (List.filter (fun e => String.eqb (ip e) client) evs) with
  | [] => []
  | (t, u) :: rest => cut_sessions t [(t, u)] rest
  end.

Definition all_sessions (evs : list hit) : list (list (Z * string)) :=
  flat_map (fun client => sessions_of_client client evs) (remove_dups (map ip evs)).

Definition is_bounce (session : list (Z * string)) : bool :=
  (size (list_to_set (List.filter (fun u => negb (is_static u)) (map snd session))
           : gset string) =? 1)%nat.

Definition bounce_rate_in_words (evs : list hit) : Q :=
  let finished := all_sessions evs in
  if (0 <? length finished)%nat
  then (inject_Z (Z.of_nat (length (List.filter is_bounce finished)))
        / inject_Z (Z.of_nat (length finished)) * 100)%Q
  else 0%Q.

End Traffic.

(* ===================================================================== *)
(** ** Session tracking ([gunlog_seo.py]) *)
(* ===================================================================== *)

Module Seo.

Definition session_timeout : Z := 30 * 60 * TimestampParser.us_per_second.

(** A matched log line after field extraction; [bot_name] is the search
    bot that the user agent was identified as, if any. *)
Record hit := {
  ip : string;
  timestamp : Z;
  url : string;
  status_code : Z;
  method : string;
  bot_name : option string
}.

(** [sessions], [ip_last_seen], [metrics['top_entry_pages']] and
    [metrics['top_exit_pages']]. *)
Record tracker := {
  sessions : gmap string (list (Z * string));
  ip_last_seen : gmap string Z;
  top_entry_pages : gmap string Z;
  top_exit_pages : gmap string Z
}.

Definition init : tracker :=
  {| sessions := ∅; ip_last_seen := ∅; top_entry_pages := ∅; top_exit_pages := ∅ |}.

(** [ip in ip_last_seen and (timestamp - ip_last_seen[ip]) < session_timeout] *)
Definition continues (e : hit) (st : tracker) : bool :=
  match ip_last_seen st !! ip e with
  | Some last_seen => timestamp e - last_seen <? session_timeout
  | None => false
  end.

(** The block "Track entry and exit pages for non-bot traffic". *)
Definition track (e : hit) (st : tracker) : tracker :=
  match bot_name e with
  | Some _ => st
  | None =>
      if continues e st then
        {| sessions := <[ip e := default [] (sessions st !! ip e) ++ [(timestamp e, url e)]]>
                         (sessions st);
           ip_last_seen := <[ip e := timestamp e]> (ip_last_seen st);
           top_entry_pages := top_entry_pages st;
           top_exit_pages := top_exit_pages st |}
      else
        {| sessions := <[ip e := [(timestamp e, url e)]]> (sessions st);
           ip_last_seen := <[ip e := timestamp e]> (ip_last_seen st);
           top_entry_pages :=
             (if (status_code e =? 200) && String.eqb (method e) "GET"
              then incr (url e) (top_entry_pages st) else top_entry_pages st);
           top_exit_pages := top_exit_pages st |}
  end.

Definition run (evs : list hit) (st : tracker) : tracker :=
  foldl (fun st e => track e st) st evs.

(** "Process sessions to find exit pages". *)
Definition record_exit_pages (st : tracker) : tracker :=
  {| sessions := sessions st;
     ip_last_seen := ip_last_seen st;
     top_entry_pages := top_entry_pages st;
     top_exit_pages :=
       foldl (fun acc (kv : string * list (Z * string)) =>
                match last kv.2 with
                | Some (_, exit_url) => incr exit_url acc
                | None => acc
                end) (top_exit_pages st) (map_to_list (sessions st)) |}.

Definition track_all (evs : list hit) : tracker := record_exit_pages (run evs init).

End Seo.

(* ===================================================================== *)
(** ** Regular expressions: the part of [re] that the patterns use *)
(* ===================================================================== *)

Module Regex.

(** Regular expressions over character classes. *)
Inductive re : Type :=
| Empty
| Eps
| Cls (p : ascii -> bool)
| Seq (r1 r2 : re)
| Alt (r1 r2 : re)
| Star (r : re).

(** [Matches r w]: the whole word [w] matches [r]. *)
Inductive Matches : re -> list ascii -> Prop :=
| MEps : Matches Eps []
| MCls p c : p c = true -> Matches (Cls p) [c]
| MSeq r1 r2 w1 w2 : Matches r1 w1 -> Matches r2 w2 -> Matches (Seq r1 r2) (w1 ++ w2)
| MAltL r1 r2 w : Matches r1 w -> Matches (Alt r1 r2) w
| MAltR r1 r2 w : Matches r2 w -> Matches (Alt r1 r2) w
| MStarNil r : Matches (Star r) []
| MStarApp r w1 w2 : Matches r w1 -> Matches (Star r) w2 -> Matches (Star r) (w1 ++ w2).

(** [Found r w]: some contiguous part of [w] matches [r], which is when
    [re.search] returns a match object. *)
Definition Found (r : re) (w : list ascii) : Prop :=
  exists pre m post, w = pre ++ m ++ post /\ Matches r m.

Fixpoint nullable (r : re) : bool :=
  match r with
  | Empty => false
  | Eps => true
  | Cls _ => false
  | Seq r1 r2 => nullable r1 && nullable r2
  | Alt r1 r2 => nullable r1 || nullable r2
  | Star _ => true
  end.

(** Sequence and alternative that drop the empty language and the empty
    word, so that derivatives stay small. *)
Definition seq' (r1 r2 : re) : re :=
  match r1, r2 with
  | Empty, _ => Empty
  | _, Empty => Empty
  | Eps, _ => r2
  | _, _ => Seq r1 r2
  end.

Definition alt' (r1 r2 : re) : re :=
  match r1, r2 with
  | Empty, _ => r2
  | _, Empty => r1
  | _, _ => Alt r1 r2
  end.

(** The derivative of [r] by the character [c]. *)
Fixpoint deriv (c : ascii) (r : re) : re :=
  match r with
  | Empty => Empty
  | Eps => Empty
  | Cls p => if p c then Eps else Empty
  | Seq r1 r2 =>
      alt' (seq' (deriv c r1) r2) (if nullable r1 then deriv c r2 else Empty)
  | Alt r1 r2 => alt' (deriv c r1) (deriv c r2)
  | Star r1 => seq' (deriv c r1) (Star r1)
  end.

(** Some prefix of [w] matches [r]. *)
Fixpoint match_prefix (r : re) (w : list ascii) : bool :=
  nullable r ||
  match w with
  | [] => false
  | c :: w' => match_prefix (deriv c r) w'
  end.

(** A match starts at some position of [w]. *)
Fixpoint search (r : re) (w : list ascii) : bool :=
  match_prefix r w ||
  match w with
  | [] => false
  | _ :: w' => search r w'
  end.

(** *** Pattern syntax *)

Definition ascii_lower (c : ascii) : ascii :=
  if Py.is_upper c then ascii_of_nat (nat_of_ascii c + 32) else c.

Definition ascii_upper (c : ascii) : ascii :=
  if Py.is_lower c then ascii_of_nat (nat_of_ascii c - 32) else c.

(** A literal character, under [(?i)] or not. *)
Definition literal (ignorecase : bool) (c d : ascii) : bool :=
  if ignorecase then Ascii.eqb (ascii_lower d) (ascii_lower c) else Ascii.eqb d c.

Definition in_range (lo hi d : ascii) : bool :=
  ((nat_of_ascii lo <=? nat_of_ascii d) && (nat_of_ascii d <=? nat_of_ascii hi))%nat.

(** A class [[lo-hi]], under [(?i)] or not. *)
Definition range (ignorecase : bool) (lo hi d : ascii) : bool :=
  in_range lo hi d
  || (ignorecase && (in_range lo hi (ascii_lower d) || in_range lo hi (ascii_upper d))).

(** [.] without [re.DOTALL]: any character but the newline. *)
Definition dot (d : ascii) : bool := negb (Ascii.eqb d "010").

Inductive token : Type :=
| TAtom (p : ascii -> bool)
| TPlus
| TStar.

(** Characters with a meaning of their own in a pattern. *)
Definition is_special (c : ascii) : bool :=
  existsb (Ascii.eqb c)
    ["."; "^"; "$"; "*"; "+"; "?"; "{"; "}"; "["; "]"; "\"; "|"; "("; ")"]%char.

(** The atoms and repetition signs of a pattern.  The subset covers
    literals, [.], [\s], escaped punctuation, one-range classes [[a-z]]
    and the repetitions [+] and [*]; [None] for anything else. *)
Fixpoint tokens (ignorecase : bool) (s : string) : option (list token) :=
  match s with
  | EmptyString => Some []
  | String "\" (String c r) =>
      if Ascii.eqb c "s" then cons (TAtom Py.is_space) <$> tokens ignorecase r
      else if is_special c || Ascii.eqb c "/" || Ascii.eqb c "-"
      then cons (TAtom (literal ignorecase c)) <$> tokens ignorecase r
      else None
  | String "[" (String lo (String "-" (String hi (String "]" r)))) =>
      if is_special lo || is_special hi then None
      else cons (TAtom (range ignorecase lo hi)) <$> tokens ignorecase r
  | String "." r => cons (TAtom dot) <$> tokens ignorecase r
  | String "+" r => cons TPlus <$> tokens ignorecase r
  | String "*" r => cons TStar <$> tokens ignorecase r
  | String c r =>
      if is_special c then None
      else cons (TAtom (literal ignorecase c)) <$> tokens ignorecase r
  end.

(** An atom with the repetition sign that follows it, if any. *)
Fixpoint build (ts : list token) : option re :=
  match ts with
  | [] => Some Eps
  | TAtom p :: rest =>
      match rest with
      | TPlus :: rest' => Seq (Seq (Cls p) (Star (Cls p))) <$> build rest'
      | TStar :: rest' => Seq (Star (Cls p)) <$> build rest'
      | _ => Seq (Cls p) <$> build rest
      end
  | _ => None
  end.

(** [re.compile(pattern)], with the inline flag [(?i)] at the start. *)
Definition compile (pattern : string) : option re :=
  if String.prefix "(?i)" pattern
  then tokens true (String.substring 4 (String.length pattern - 4) pattern) ≫= build
  else tokens false pattern ≫= build.

(** [re.search(pattern, target)] as a truth value. *)
Definition re_search (pattern target : string) : bool :=
  match compile pattern with
  | Some r => search r (list_ascii_of_string target)
  | None => false
  end.

End Regex.

(* ===================================================================== *)
(** ** ThreatMatcher: [detect_threats] ([gunlog_security.py]) *)
(* ===================================================================== *)

Module ThreatMatcher.

(** [THREAT_PATTERNS], in the order of the dictionary literal. *)
Definition THREAT_PATTERNS : list (string * list string) :=
  [("SQL Injection",
      ["(?i)union\s+select"; "(?i)select.+from"; "(?i)1=1"; "(?i)or\s+1\s*=";
       "(?i)drop\s+table"]);
   ("XSS Attack",
      ["(?i)<script"; "(?i)javascript:"; "(?i)onerror="; "(?i)onload=";
       "(?i)onclick="]);
   ("Path Traversal",
      ["(?i)\.\./"; "(?i)\.\.%2f"; "(?i)/etc/passwd"]);
   ("Command Injection",
      ["(?i);\s*[a-z]+"; "(?i)\|\s*[a-z]+"]);
   ("Server Scan",
      ["(?i)/admin"; "(?i)/wp-admin"; "(?i)/phpmyadmin"; "(?i)/.git"; "(?i)/.env"]);
   ("Suspicious User Agent",
      ["(?i)sqlmap"; "(?i)nikto"; "(?i)nmap"; "(?i)gobuster"; "(?i)dirbuster"])].

(** [targets = [request, user_agent, referrer if referrer != '-' else '']] *)
Definition targets (request user_agent referrer : string) : list string :=
  [request; user_agent; if String.eqb referrer "-" then "" else referrer].

(** [for target in targets: if re.search(pattern, target): append; break] *)
Fixpoint scan_targets (threat_type pattern : string) (ts : list string)
    (detected_threats : list string) : list string :=
  match ts with
  | [] => detected_threats
  | target :: rest =>
      if Regex.re_search pattern target then detected_threats ++ [threat_type]
      else scan_targets threat_type pattern rest detected_threats
  end.

(** [for pattern in patterns: ...; if threat_type in detected_threats: break] *)
Fixpoint scan_patterns (threat_type : string) (patterns ts : list string)
    (detected_threats : list string) : list string :=
  match patterns with
  | [] => detected_threats
  | pattern :: rest =>
      let detected_threats := scan_targets threat_type pattern ts detected_threats in
      if existsb (String.eqb threat_type) detected_threats then detected_threats
      else scan_patterns threat_type rest ts detected_threats
  end.

(** The outer loop over the items of a pattern table. *)
Definition detect_threats_in (table : list (string * list string))
    (request user_agent referrer : string) : list string :=
  foldl (fun detected_threats (item : string * list string) =>
           scan_patterns item.1 item.2 (targets request user_agent referrer)
                         detected_threats)
        [] table.

(** [detect_threats(request, user_agent, referrer)] *)
Definition detect_threats (request user_agent referrer : string) : list string :=
  detect_threats_in THREAT_PATTERNS request user_agent referrer.

(** A category has a match: one of its patterns is found in one of the
    targets. *)
Definition category_matches (patterns ts : list string) : bool :=
  existsb (fun pattern => existsb (Regex.re_search pattern) ts) patterns.

End ThreatMatcher.

(* ===================================================================== *)
(** ** Percentiles ([calculate_summary_metrics], [gunlog_performance.py]) *)
(* ===================================================================== *)

Module Performance.

(** The order of [sorted] on response times. *)
Module QOrder <: Orders.TotalLeBool.

Definition t := Q.

Definition leb := Qle_bool.

Lemma leb_total : forall x y, leb x y = true \/ leb y x = true.
Proof.
  intros x y. unfold leb. rewrite !Qle_bool_iff.
  destruct (Qlt_le_dec x y) as [H|H]; [left; by apply Qlt_le_weak|by right].
Qed.

End QOrder.

Module QSort := Mergesort.Sort QOrder.

(** [sorted(response_times)] *)
Definition sorted (response_times : list Q) : list Q := QSort.sort response_times.

(** [int(x)] on a float: truncation towards zero. *)
Definition int_of_float (x : Q) : Z := if Qle_bool 0 x then Qfloor x else Qceiling x.

(** [int(len(response_times) * p)] *)
Definition percentile_index (p : Q) (response_times : list Q) : Z :=
  int_of_float (inject_Z (Z.of_nat (length response_times)) * p).

(** [sorted(response_times)[int(len(response_times) * p)]]; [None] stands
    for [IndexError].  (The index is never negative, so Python's indexing
    from the end does not come into play.) *)
Definition percentile (p : Q) (response_times : list Q) : option Q :=
  nth_error (sorted response_times) (Z.to_nat (percentile_index p response_times)).

Definition p90 : list Q -> option Q := percentile (9 # 10).
Definition p95 : list Q -> option Q := percentile (95 # 100).
Definition p99 : list Q -> option Q := percentile (99 # 100).

(** The same index in binary64, as the interpreter computes it:
    [len(response_times)] converted to a float, multiplied by the literal
    and truncated. *)
Definition float_trunc (f : float) : Z :=
  match Prim2SF f with
  | S754_finite s m e =>
      let v := if e <? 0 then Z.pos m / 2 ^ (- e) else Z.pos m * 2 ^ e in
      if s then - v else v
  | _ => 0
  end.

Definition float_index (n : Z) (p : float) : Z :=
  float_trunc (PrimFloat.mul (PrimFloat.of_uint63 (Uint63.of_Z n)) p).

(** The literals [0.9], [0.95] and [0.99]: the nearest binary64 values. *)
Definition f0_9 : float := 0x1.ccccccccccccdp-1%float.
Definition f0_95 : float := 0x1.e666666666666p-1%float.
Definition f0_99 : float := 0x1.fae147ae147aep-1%float.

(** [all(float_index(k, p) == k * num // den for k in range(n, n + fuel))] *)
Fixpoint indices_agree (p : float) (num den : Z) (fuel : nat) (n : Z) : bool :=
  match fuel with
  | O => true
  | S k =>
      if float_index n p =? n * num / den then indices_agree p num den k (n + 1)
      else false
  end.

End Performance.

(* ===================================================================== *)
(** ** Engagement ([gunlog_content.py]) *)
(* ===================================================================== *)

Module Content.

Definition session_timeout : Z := 30 * 60 * TimestampParser.us_per_second.

(** [calculate_reading_time(size)] *)
Definition calculate_reading_time (size : Z) : Q :=
  if size <=? 0 then 0%Q
  else
    let words := (inject_Z size / 6)%Q in
    let reading_time_minutes := (words / 200)%Q in
    (reading_time_minutes * 60)%Q.

(** An element of [metrics['content_engagement'][url]]. *)
Record engagement := {
  e_ip : string;
  e_timestamp : Z;
  estimated_reading_time : Q
}.

(** A log line that reaches the counting code: not from a bot, with a URL
    that [URL_PATTERN] finds, not static, answered with status 200.
    [response_size] is group 6 of [LOG_PATTERN], a run of decimal digits
    or ["-"]; [None] stands for ["-"]. *)
Record hit := {
  ip : string;
  timestamp : Z;
  url : string;
  response_size : option Z
}.

(** [ip_sessions], [metrics['sessions']], [metrics['content_engagement']],
    [metrics['trending_content']] and the keys of [metrics['urls']] during
    the scan. *)
Record state := {
  ip_sessions : gmap string Z;
  sessions : gmap string (list (Z * string * (string * Z)));
  content_engagement : gmap string (list engagement);
  trending_content : list (string * Z);
  urls : gset string
}.

Definition init : state :=
  {| ip_sessions := ∅; sessions := ∅; content_engagement := ∅; trending_content := [];
     urls := ∅ |}.

(** The calls of the loop body that can raise: [timestamp.timestamp()],
    where a session id is made, raises for the datetimes of
    [timestamp_raises] (they depend on the local time zone), and
    [extract_title_from_url(url)], which is called for a URL that is not
    yet a key of [metrics['urls']], raises where [urlparse] does. *)
Record environment := {
  timestamp_raises : Z -> bool;
  urlparse_raises : string -> bool
}.

(** The environment of a machine whose zone is UTC, for logs whose URLs
    hold no bracket: [urlparse] raises (Invalid IPv6 URL) only for a
    bracket in the network location. *)
Definition plain_environment : environment :=
  {| timestamp_raises := TimestampParser.timestamp_raises_utc;
     urlparse_raises := fun _ => false |}.

(** The blocks "Track URL-specific metrics" (as far as it can raise),
    "Track engagement", "Check if this is trending" and "Session
    tracking" of the loop body; [yesterday] is the time at which the run
    started, less one day.  [None] stands for an exception: that of
    [extract_title_from_url], that of [timestamp.timestamp()], and the
    [IndexError] of [metrics['sessions'][ip][0]] on an empty list. *)
Definition track (env : environment) (yesterday : Z) (e : hit) (st : state)
    : option state :=
  let content_engagement' :=
    match response_size e with
    | Some size =>
        <[url e := default [] (content_engagement st !! url e)
                   ++ [{| e_ip := ip e; e_timestamp := timestamp e;
                          estimated_reading_time := calculate_reading_time size |}]]>
          (content_engagement st)
    | None => content_engagement st
    end in
  let trending_content' :=
    if timestamp e >? yesterday then trending_content st ++ [(url e, timestamp e)]
    else trending_content st in
  let commit (vs : list (Z * string * (string * Z))) :=
    {| ip_sessions := <[ip e := timestamp e]> (ip_sessions st);
       sessions := <[ip e := vs]> (sessions st);
       content_engagement := content_engagement';
       trending_content := trending_content';
       urls := urls st ∪ {[ url e ]} |} in
  let fresh := (ip e, timestamp e) in
  if bool_decide (url e ∉ urls st) && urlparse_raises env (url e) then None
  else
    match ip_sessions st !! ip e with
    | Some last_time =>
        if timestamp e - last_time >? session_timeout then
          if timestamp_raises env (timestamp e) then None
          else Some (commit [(timestamp e, url e, fresh)])
        else
          match default [] (sessions st !! ip e) with
          | (first :: _) as cur => Some (commit (cur ++ [(timestamp e, url e, first.2)]))
          | [] => None
          end
    | None =>
        if timestamp_raises env (timestamp e) then None
        else Some (commit [(timestamp e, url e, fresh)])
    end.

Fixpoint run (env : environment) (yesterday : Z) (evs : list hit) (st : state)
    : option state :=
  match evs with
  | [] => Some st
  | e :: rest => st' ← track env yesterday e st; run env yesterday rest st'
  end.

(** [timedelta.total_seconds()] *)
Definition total_seconds (td : Z) : Q := inject_Z td / inject_Z TimestampParser.us_per_second.

Definition Qlt_bool (x y : Q) : bool := negb (Qle_bool y x).

(** The loop over [range(len(url_visits) - 1)]: the gaps between
    consecutive visits of the URL that pass the test
    [time_diff > 0 and time_diff < 3600]. *)
Fixpoint revisit_gaps (url_visits : list (Z * string)) : list Q :=
  match url_visits with
  | [] => []
  | a :: rest =>
      match rest with
      | [] => []
      | b :: _ =>
          let time_diff := total_seconds (b.1 - a.1) in
          (if Qlt_bool 0 time_diff && Qlt_bool time_diff 3600 then [time_diff] else [])
          ++ revisit_gaps rest
      end
  end.

(** [url_visits = [(t, u) for t, u, s in session if u == url]] *)
Definition url_visits (url : string) (session : list (Z * string * (string * Z)))
    : list (Z * string) :=
  List.filter (fun tu : Z * string => String.eqb tu.2 url) (map fst session).

(** What one item [(session_id, session)] of [metrics['sessions']]
    contributes to [engagement_times]; the key [session_id] is the
    client's IP. *)
Definition session_engagement_times (url : string) (engagements : list engagement)
    (item : string * list (Z * string * (string * Z))) : list Q :=
  let visits := url_visits url item.2 in
  if (0 <? length visits)%nat then
    (if (1 <? length visits)%nat then revisit_gaps visits else [])
    ++ map estimated_reading_time
         (List.filter (fun e => String.eqb (e_ip e) (hd "" (Py.split "_" item.1)))
                      engagements)
  else [].

Definition engagement_times (url : string) (engagements : list engagement)
    (ss : gmap string (list (Z * string * (string * Z)))) : list Q :=
  concat (map (session_engagement_times url engagements) (map_to_list ss)).

(** [url_views] and [url_bounces] after the bounce loop. *)
Definition url_bounce_counters (url : string)
    (ss : gmap string (list (Z * string * (string * Z)))) : Z * Z :=
  foldl (fun (acc : Z * Z) (item : string * list (Z * string * (string * Z))) =>
           let urls_in_session := map (fun v : Z * string * (string * Z) => v.1.2) item.2 in
           if existsb (String.eqb url) urls_in_session then
             (acc.1 + 1,
              if (size (list_to_set urls_in_session : gset string) =? 1)%nat
              then acc.2 + 1 else acc.2)
           else acc)
        (0, 0) (map_to_list ss).

Definition Qsum (l : list Q) : Q := foldl Qplus 0%Q l.

(** An entry of [metrics['engagement_rates']]. *)
Record engagement_rate := {
  avg_time_on_page : Q;
  bounce_rate : Q;
  engagement_score : Q
}.

(** One round of the loop "Calculate engagement metrics": the entry that
    is stored for [url], if any. *)
Definition engagement_rate_of (url : string) (engagements : list engagement)
    (ss : gmap string (list (Z * string * (string * Z)))) : option engagement_rate :=
  match engagements with
  | [] => None
  | _ =>
      let times := engagement_times url engagements ss in
      match times with
      | [] => None
      | _ =>
          let avg_engagement := (Qsum times / inject_Z (Z.of_nat (length times)))%Q in
          let '(url_views, url_bounces) := url_bounce_counters url ss in
          let bounce_rate :=
            if url_views >? 0
            then (inject_Z url_bounces / inject_Z url_views * 100)%Q else 0%Q in
          Some {| avg_time_on_page := avg_engagement;
                  bounce_rate := bounce_rate;
                  engagement_score :=
                    if Qlt_bool bounce_rate 100
                    then (avg_engagement * (1 - bounce_rate / 100))%Q else 0%Q |}
      end
  end.

(** [metrics['engagement_rates']] for one URL after a scan of [evs]. *)
Definition engagement_after (env : environment) (yesterday : Z) (evs : list hit)
    (url : string) : option engagement_rate :=
  st ← run env yesterday evs init;
  engagements ← content_engagement st !! url;
  engagement_rate_of url engagements (sessions st).


End Content.

(* ===================================================================== *)
(** ** The traffic aggregator ([parse_access_log], [gunlog_traffic.py]) *)
(* ===================================================================== *)

Module TrafficLog.

Definition BOT_PATTERNS : list string :=
  ["bot"; "crawl"; "spider"; "slurp"; "baidu"; "bing"; "google";
   "yandex"; "facebook"; "archive"; "lighthouse"; "pagespeed"; "pingdom";
   "uptimerobot"; "semrush"; "ahrefs"; "moz"; "screaming"; "yahoo"].

(** [is_bot(user_agent)] *)
Definition is_bot (user_agent : string) : bool :=
  let ua_lower := Py.lower user_agent in
  existsb (fun bot => Py.contains bot ua_lower) BOT_PATTERNS.

(** The groups of [LOG_PATTERN] for a line that matches; the status code
    is already converted with [int]. *)
Record log_entry := {
  le_ip : string;
  le_auth : string;
  le_time_str : string;
  le_request : string;
  le_status_code : Z;
  le_response_size : string;
  le_referrer : string;
  le_user_agent : string
}.

(** What the scan takes from outside the repository.  Each field stands
    for a function of the source that rests on a package or on the
    machine; [None] as a result stands for an exception that the function
    lets through. *)
Record environment := {
  (** [is_internal_ip(ip)], which rests on [ipaddress] and catches its
      errors *)
  is_internal_ip : string -> bool;
  (** the block "Parse user agent details": the strings counted in
      [browsers], [os] and [devices]; [None] when the package
      [user_agents] is missing or the block raises, which its [except]
      passes over *)
  user_agent_details : string -> option (string * string * string);
  (** [classify_referrer(referrer)]; its [urlparse] is called outside any
      [try] *)
  classify_referrer : string -> option string;
  (** [extract_search_engine(referrer)]: the engine and the keyword, each
      of them possibly [None]; its [urlparse] is called outside any [try] *)
  extract_search_engine : string -> option (option string * option string);
  (** whether a GeoIP reader was opened, and
      [get_country_from_ip(ip, geoip_reader)], which catches its errors;
      the name of a country can be [None] *)
  geoip_reader : bool;
  get_country_from_ip : string -> option string;
  (** [extract_utm_params(url)], which catches its errors *)
  extract_utm_params : string -> gmap string string;
  (** the datetimes for which [timestamp()] raises, see [Traffic.track] *)
  timestamp_raises : Z -> bool
}.

(** [metrics]; the session-tracking part is [tracker]. *)
Record metrics := {
  total_hits : Z;
  unique_ips : gset string;
  unique_visitors : gset string;
  user_agents : gmap string Z;
  browsers : gmap string Z;
  os : gmap string Z;
  devices : gmap string Z;
  bot_hits : Z;
  human_hits : Z;
  hourly_traffic : gmap Z Z;
  daily_traffic : gmap Z Z;
  status_codes : gmap Z Z;
  pages : gmap string Z;
  referrers : gmap string Z;
  referrer_types : gmap string Z;
  search_engines : gmap string Z;
  search_keywords : gmap string Z;
  countries : gmap (option string) Z;
  utm_sources : gmap string Z;
  utm_mediums : gmap string Z;
  utm_campaigns : gmap string Z;
  file_types : gmap string Z;
  tracker : Traffic.tracker
}.

Definition init : metrics :=
  {| total_hits := 0; unique_ips := ∅; unique_visitors := ∅; user_agents := ∅;
     browsers := ∅; os := ∅; devices := ∅;
     bot_hits := 0; human_hits := 0; hourly_traffic := ∅; daily_traffic := ∅;
     status_codes := ∅; pages := ∅;
     referrers := ∅; referrer_types := ∅; search_engines := ∅; search_keywords := ∅;
     countries := ∅; utm_sources := ∅; utm_mediums := ∅; utm_campaigns := ∅;
     file_types := ∅; tracker := Traffic.init |}.

(** The four counters of the block "Track referrers". *)
Definition referrer_counters : Type :=
  gmap string Z * gmap string Z * gmap string Z * gmap string Z.

(** The block "Track referrers"; [None] when [classify_referrer] or
    [extract_search_engine] raises. *)
Definition track_referrer (env : environment) (referrer : string) (m : metrics)
    : option referrer_counters :=
  if negb (String.eqb referrer "-") && negb (String.eqb referrer "") then
    referrer_type ← classify_referrer env referrer;
    found ← extract_search_engine env referrer;
    let '(search_engine, keyword) := found in
    let '(engines, keywords) :=
      match search_engine with
      | Some engine =>
          if String.eqb engine "" then (search_engines m, search_keywords m)
          else
            (incr engine (search_engines m),
             match keyword with
             | Some k =>
                 if String.eqb k "" then search_keywords m
                 else incr (Py.lower k) (search_keywords m)
             | None => search_keywords m
             end)
      | None => (search_engines m, search_keywords m)
      end in
    Some (incr referrer (referrers m), incr referrer_type (referrer_types m),
          engines, keywords)
  else
    Some (referrers m, incr "Direct" (referrer_types m),
          search_engines m, search_keywords m).

(** [if key in utm_params: counter[utm_params[key]] += 1] *)
Definition count_utm (utm_params : gmap string string) (key : string)
    (counter : gmap string Z) : gmap string Z :=
  match utm_params !! key with
  | Some value => incr value counter
  | None => counter
  end.

(** The loop body for one matched line; [now] is what
    [datetime.datetime.now()] returns if [parse_time] calls it.  [None]
    stands for an exception, which ends the scan. *)
Definition process (env : environment) (now : Z) (r : log_entry) (m : metrics)
    : option metrics :=
  if is_internal_ip env (le_ip r) then Some m
  else
    let '(timestamp, hour, day_of_week) := TimestampParser.parse_time now (le_time_str r) in
    let request_parts := Py.split_ws (le_request r) in
    let '(method, url) :=
      match request_parts with
      | m0 :: u0 :: _ => (m0, u0)
      | _ => ("UNKNOWN", "UNKNOWN")
      end in
    let file_ext := Traffic.file_ext url in
    let is_static := Traffic.is_static url in
    let is_bot_ua := is_bot (le_user_agent r) in
    let details := if is_bot_ua then None else user_agent_details env (le_user_agent r) in
    let utm_params := extract_utm_params env url in
    counters ← track_referrer env (le_referrer r) m;
    let '(referrers', referrer_types', search_engines', search_keywords') := counters in
    tr ← Traffic.track (timestamp_raises env)
                       {| Traffic.ip := le_ip r; Traffic.timestamp := timestamp;
                          Traffic.url := url; Traffic.status_code := le_status_code r |}
                       (tracker m);
    Some {| total_hits := total_hits m + 1;
            unique_ips := unique_ips m ∪ {[ le_ip r ]};
            unique_visitors := unique_visitors m ∪ {[ (le_ip r ++ "|" ++ le_user_agent r)%string ]};
            user_agents := incr (le_user_agent r) (user_agents m);
            browsers :=
              match details with Some d => incr d.1.1 (browsers m) | None => browsers m end;
            os := match details with Some d => incr d.1.2 (os m) | None => os m end;
            devices :=
              match details with Some d => incr d.2 (devices m) | None => devices m end;
            bot_hits := (if is_bot_ua then bot_hits m + 1 else bot_hits m);
            human_hits := (if is_bot_ua then human_hits m else human_hits m + 1);
            hourly_traffic := incr hour (hourly_traffic m);
            daily_traffic := incr day_of_week (daily_traffic m);
            status_codes := incr (le_status_code r) (status_codes m);
            pages := (if negb is_static && (le_status_code r =? 200) && String.eqb method "GET"
                      then incr url (pages m) else pages m);
            referrers := referrers';
            referrer_types := referrer_types';
            search_engines := search_engines';
            search_keywords := search_keywords';
            countries :=
              (if geoip_reader env
               then incr (get_country_from_ip env (le_ip r)) (countries m)
               else countries m);
            utm_sources := count_utm utm_params "utm_source" (utm_sources m);
            utm_mediums := count_utm utm_params "utm_medium" (utm_mediums m);
            utm_campaigns := count_utm utm_params "utm_campaign" (utm_campaigns m);
            file_types := incr (if String.eqb file_ext "" then "(none)" else file_ext)
                               (file_types m);
            tracker := tr |}.

(** The loop over the matched lines; [clock i] is the wall-clock time
    while line [i] is processed. *)
Fixpoint scan (env : environment) (clock : nat -> Z) (i : nat)
    (entries : list log_entry) (m : metrics) : option metrics :=
  match entries with
  | [] => Some m
  | r :: rest => m' ← process env (clock i) r m; scan env clock (S i) rest m'
  end.

Definition finish (m : metrics) : metrics :=
  {| total_hits := total_hits m; unique_ips := unique_ips m;
     unique_visitors := unique_visitors m; user_agents := user_agents m;
     browsers := browsers m; os := os m; devices := devices m;
     bot_hits := bot_hits m; human_hits := human_hits m;
     hourly_traffic := hourly_traffic m; daily_traffic := daily_traffic m;
     status_codes := status_codes m; pages := pages m;
     referrers := referrers m; referrer_types := referrer_types m;
     search_engines := search_engines m; search_keywords := search_keywords m;
     countries := countries m; utm_sources := utm_sources m;
     utm_mediums := utm_mediums m; utm_campaigns := utm_campaigns m;
     file_types := file_types m;
     tracker := Traffic.record_remaining_exit_pages (tracker m) |}.

(** [parse_access_log] on the matched lines of a log file; [None] is the
    [None] that the function returns after an exception. *)
Definition parse_access_log (env : environment) (clock : nat -> Z)
    (entries : list log_entry) : option metrics :=
  finish <$> scan env clock 0 entries init.

(** The environment of a machine whose zone is UTC and which has neither
    the [user_agents] nor the [geoip2] package, for logs whose clients
    have public addresses (such as 8.8.8.8, for which
    [ipaddress.ip_address] answers [False] to [is_private],
    [is_loopback], [is_link_local] and [is_multicast]) and whose lines
    have the referrer ["-"] and no query string: the referrer functions
    are not called, and [extract_utm_params] finds nothing. *)
Definition plain_environment : environment :=
  {| is_internal_ip := fun _ => false;
     user_agent_details := fun _ => None;
     classify_referrer := fun _ => Some "Referral";
     extract_search_engine := fun _ => Some (None, None);
     geoip_reader := false;
     get_country_from_ip := fun _ => Some "Unknown";
     extract_utm_params := fun _ => ∅;
     timestamp_raises := TimestampParser.timestamp_raises_utc |}.

End TrafficLog.

(* ===================================================================== *)
(** ** Invariants of the traffic session tracker *)
(* ===================================================================== *)

Module TrackerInv.

(** The shape of a client's open session: its first visit gives the
    session id to all visits, its last visit is the client's last-seen
    time, and consecutive visits are at most the timeout apart. *)
Definition session_ok (client : string) (last_seen : Z)
    (vs : list (Z * string * (string * Z))) : Prop :=
  exists t0 u0 rest,
    vs = (t0, u0, (client, t0)) :: rest
    /\ Forall (fun v : Z * string * (string * Z) => v.2 = (client, t0)) vs
    /\ (exists u sid, last vs = Some (last_seen, u, sid))
    /\ (forall i a b, vs !! i = Some a -> vs !! S i = Some b ->
          b.1.1 - a.1.1 <= Traffic.session_timeout).

Definition tracker_inv (st : Traffic.tracker) : Prop :=
  (forall client t, Traffic.ip_sessions st !! client = Some t ->
     exists vs, Traffic.sessions st !! client = Some vs /\ session_ok client t vs)
  /\ (forall client, Traffic.ip_sessions st !! client = None ->
        Traffic.sessions st !! client = None).

(** The hits of [evs] with the URL [u] and status 200. *)
Definition page_hits (u : string) (evs : list Traffic.hit) : Z :=
  Z.of_nat (length (List.filter
                      (fun e => String.eqb (Traffic.url e) u
                                && (Traffic.status_code e =? 200)) evs)).

(** The latest hit of [client] in a list of hits, if any. *)
Definition last_hit_of (client : string) (evs : list Traffic.hit) : option Traffic.hit :=
  last (List.filter (fun e => String.eqb (Traffic.ip e) client) evs).

(** A hit opens a session when its client has no earlier hit, or when the
    client's latest earlier hit is more than the timeout before it. *)
Definition opens_session (earlier : list Traffic.hit) (e : Traffic.hit) : bool :=
  match last_hit_of (Traffic.ip e) earlier with
  | None => true
  | Some p => Traffic.timestamp e - Traffic.timestamp p >? Traffic.session_timeout
  end.

(** The number of hits of [evs], read after [earlier], that open a session. *)
Fixpoint sessions_opened (earlier evs : list Traffic.hit) : Z :=
  match evs with
  | [] => 0
  | e :: rest =>
      (if opens_session earlier e then 1 else 0) + sessions_opened (earlier ++ [e]) rest
  end.

(** The number of hits of [evs] that open a session on a page that the
    loop counts as an entry page. *)
Fixpoint entries_counted (earlier evs : list Traffic.hit) : Z :=
  match evs with
  | [] => 0
  | e :: rest =>
      (if opens_session earlier e && negb (Traffic.is_static (Traffic.url e))
          && (Traffic.status_code e =? 200)
       then 1 else 0)
      + entries_counted (earlier ++ [e]) rest
  end.

End TrackerInv.

Module ScanInv.

(** What the tracker state records about the hits read so far. *)
Definition scan_inv (st : Traffic.tracker) (seen : list Traffic.hit) : Prop :=
  TrackerInv.tracker_inv st
  /\ (forall client,
        Traffic.ip_sessions st !! client
        = Traffic.timestamp <$> TrackerInv.last_hit_of client seen)
  /\ map (fun p : Z * string * string * (string * Z) => (p.1.1.1, p.1.1.2, p.1.2))
         (Traffic.paths st)
     = map (fun e => (Traffic.timestamp e, Traffic.ip e, Traffic.url e)) seen
  /\ (forall p, In p (Traffic.paths st) ->
        p.2.1 = p.1.1.2
        /\ exists e, In e seen /\ Traffic.ip e = p.2.1 /\ Traffic.timestamp e = p.2.2)
  /\ (forall client vs v,
        Traffic.sessions st !! client = Some vs -> In v vs ->
        exists e, In e seen /\ Traffic.ip e = client
                  /\ Traffic.timestamp e = v.1.1 /\ Traffic.url e = v.1.2)
  /\ (forall u,
        0 <= count (Traffic.entry_pages st) u <= TrackerInv.page_hits u seen
        /\ (Traffic.is_static u = true -> Traffic.entry_pages st !! u = None)
        /\ (forall n, Traffic.entry_pages st !! u = Some n -> 0 < n))
  /\ sum_values (Traffic.exit_pages st) + Z.of_nat (size (Traffic.sessions st))
     = TrackerInv.sessions_opened [] seen
  /\ sum_values (Traffic.entry_pages st) = TrackerInv.entries_counted [] seen.

End ScanInv.

(* ===================================================================== *)
(** ** Invariant of the counters of [gunlog_traffic.parse_access_log] *)
(* ===================================================================== *)

Module TrafficLogInv.

(** The counters that are increased once per processed line are in step
    with [total_hits]; the keys of the hour and weekday counters are hours
    and weekdays; the clients counted are the clients with a session. *)
Definition counters_ok (m : TrafficLog.metrics) : Prop :=
  TrafficLog.bot_hits m + TrafficLog.human_hits m = TrafficLog.total_hits m
  /\ 0 <= TrafficLog.bot_hits m /\ 0 <= TrafficLog.human_hits m
  /\ sum_values (TrafficLog.user_agents m) = TrafficLog.total_hits m
  /\ sum_values (TrafficLog.hourly_traffic m) = TrafficLog.total_hits m
  /\ sum_values (TrafficLog.daily_traffic m) = TrafficLog.total_hits m
  /\ sum_values (TrafficLog.status_codes m) = TrafficLog.total_hits m
  /\ sum_values (TrafficLog.file_types m) = TrafficLog.total_hits m
  /\ Z.of_nat (length (Traffic.paths (TrafficLog.tracker m))) = TrafficLog.total_hits m
  /\ sum_values (TrafficLog.pages m) <= TrafficLog.total_hits m
  /\ sum_values (TrafficLog.referrer_types m) = TrafficLog.total_hits m
  /\ sum_values (TrafficLog.search_keywords m) <= sum_values (TrafficLog.search_engines m)
  /\ sum_values (TrafficLog.search_engines m) <= sum_values (TrafficLog.referrers m)
  /\ sum_values (TrafficLog.referrers m) <= TrafficLog.total_hits m
  /\ sum_values (TrafficLog.browsers m) = sum_values (TrafficLog.os m)
  /\ sum_values (TrafficLog.os m) = sum_values (TrafficLog.devices m)
  /\ sum_values (TrafficLog.devices m) <= TrafficLog.human_hits m
  /\ (forall h n, TrafficLog.hourly_traffic m !! h = Some n -> 0 <= h <= 23 /\ 0 < n)
  /\ (forall d n, TrafficLog.daily_traffic m !! d = Some n -> 0 <= d <= 6 /\ 0 < n)
  /\ TrafficLog.unique_ips m = dom (Traffic.sessions (TrafficLog.tracker m))
  /\ TrackerInv.tracker_inv (TrafficLog.tracker m).

(** A sufficient condition for the loop body to return on the line [r]
    read at wall-clock time [now]: the client is skipped, or the referrer
    functions return on the line's referrer and [timestamp()] returns on
    its datetime (which is needed only where the line opens a session). *)
Definition line_returns (env : TrafficLog.environment) (now : Z)
    (r : TrafficLog.log_entry) : bool :=
  TrafficLog.is_internal_ip env (TrafficLog.le_ip r)
  || ((String.eqb (TrafficLog.le_referrer r) "-"
       || String.eqb (TrafficLog.le_referrer r) ""
       || (bool_decide (is_Some (TrafficLog.classify_referrer env (TrafficLog.le_referrer r)))
           && bool_decide (is_Some (TrafficLog.extract_search_engine env
                                      (TrafficLog.le_referrer r)))))
      && negb (TrafficLog.timestamp_raises env
                 (TimestampParser.parse_time now (TrafficLog.le_time_str r)).1.1)).

(** The lines that the scan does not skip, and those of them that come
    from a bot. *)
Definition kept (is_internal_ip : string -> bool) (entries : list TrafficLog.log_entry)
    : list TrafficLog.log_entry :=
  List.filter (fun r => negb (is_internal_ip (TrafficLog.le_ip r))) entries.

Definition kept_bots (is_internal_ip : string -> bool) (entries : list TrafficLog.log_entry)
    : list TrafficLog.log_entry :=
  List.filter (fun r => TrafficLog.is_bot (TrafficLog.le_user_agent r))
              (kept is_internal_ip entries).

End TrafficLogInv.

(* ===================================================================== *)
(** ** The scan of [gunlog_security.parse_access_log] *)
(* ===================================================================== *)

Module SecurityLog.

Import TrafficLog(log_entry, le_ip, le_time_str, le_request, le_status_code,
                  le_referrer, le_user_agent).

Definition SECURITY_STATUS_CODES : list Z := [400; 401; 403; 405; 406; 429].

Definition sensitive_resources : list string :=
  ["/admin"; "/wp-admin"; "/login"; "/wp-login"; "/administrator";
   "/phpmyadmin"; "/myadmin"; "/.git"; "/.env"; "/config";
   "/wp-config"; "/backup"; "/db"; "/database"].

Definition private_prefixes : list string :=
  ["10.";
   "172.16."; "172.17."; "172.18."; "172.19.";
   "172.20."; "172.21."; "172.22."; "172.23.";
   "172.24."; "172.25."; "172.26."; "172.27.";
   "172.28."; "172.29."; "172.30."; "172.31.";
   "192.168.";
   "127.";
   "localhost"].

(** [is_private_ip(ip)] *)
Definition is_private_ip (ip : string) : bool :=
  existsb (fun prefix => String.prefix prefix ip) private_prefixes.

(** The method and the URL that the loop takes from the request. *)
Definition request_method (request : string) : string :=
  if Py.has_char " " request then hd "" (Py.split " " request) else "".

Definition request_url (request : string) : string :=
  if Py.has_char " " request && (1 <? length (Py.split " " request))%nat
  then nth 1 (Py.split " " request) ""
  else "".

(** [l[-100:]] *)
Definition last_100 {A} (l : list A) : list A := drop (length l - 100) l.

(** The counters and lists of [metrics] and the two local dictionaries of
    the loop.  The nested counters [attack_vectors] and [hourly_attacks]
    and the per-client lists [suspicious_ips], which are written only, are
    left out; a stored request is its client, request and threat list. *)
Record metrics := {
  total_requests : Z;
  http_methods : gmap string Z;
  status_codes : gmap Z Z;
  security_status_codes : gmap Z Z;
  ip_auth_failures : gmap string Z;
  security_events : list Security.security_event;
  firewall_recommendations : gset string;
  sensitive_urls_accessed : gmap string Z;
  ip_request_times : gmap string (list Z);
  high_frequency_ips : gmap string Z;
  attack_types : gmap string Z;
  top_attack_sources : gmap string Z;
  attack_time_distribution : gmap Z Z;
  suspicious_user_agents : gmap string Z;
  suspicious_requests : list (string * string * list string)
}.

Definition init : metrics :=
  {| total_requests := 0; http_methods := ∅; status_codes := ∅;
     security_status_codes := ∅; ip_auth_failures := ∅; security_events := [];
     firewall_recommendations := ∅; sensitive_urls_accessed := ∅;
     ip_request_times := ∅; high_frequency_ips := ∅; attack_types := ∅;
     top_attack_sources := ∅; attack_time_distribution := ∅;
     suspicious_user_agents := ∅; suspicious_requests := [] |}.

(** The loop over [sensitive_resources] for one request. *)
Definition record_sensitive (mk : string -> Security.security_event) (url : string)
    (acc : gmap string Z * list Security.security_event)
    : gmap string Z * list Security.security_event :=
  foldl (fun (acc : gmap string Z * list Security.security_event) resource =>
           if Py.contains resource url
           then (incr url acc.1, acc.2 ++ [mk "Sensitive Resource Access"])
           else acc)
        acc sensitive_resources.

(** The loop body for one matched line; [now] is what
    [datetime.datetime.now()] returns if [parse_time] calls it. *)
Definition process (now : Z) (r : log_entry) (m : metrics) : metrics :=
  let ip := le_ip r in
  let request := le_request r in
  let status_code := le_status_code r in
  let user_agent := le_user_agent r in
  if is_private_ip ip then
    {| total_requests := total_requests m + 1;
       http_methods := http_methods m; status_codes := status_codes m;
       security_status_codes := security_status_codes m;
       ip_auth_failures := ip_auth_failures m; security_events := security_events m;
       firewall_recommendations := firewall_recommendations m;
       sensitive_urls_accessed := sensitive_urls_accessed m;
       ip_request_times := ip_request_times m;
       high_frequency_ips := high_frequency_ips m; attack_types := attack_types m;
       top_attack_sources := top_attack_sources m;
       attack_time_distribution := attack_time_distribution m;
       suspicious_user_agents := suspicious_user_agents m;
       suspicious_requests := suspicious_requests m |}
  else
    let '(timestamp, hour, _) := TimestampParser.parse_time now (le_time_str r) in
    let url := request_url request in
    let mk (event_type : string) : Security.security_event :=
      {| Security.ev_timestamp := timestamp; Security.ev_ip := ip;
         Security.event_type := event_type; Security.ev_url := url;
         Security.ev_status_code := status_code |} in
    (* authentication failures *)
    let auth := existsb (Z.eqb status_code) [401; 403] in
    let failures := if auth then incr ip (ip_auth_failures m) else ip_auth_failures m in
    let repeated := auth && (3 <=? count failures ip) in
    let events1 :=
      if repeated then security_events m ++ [mk "Authentication Failure"]
      else security_events m in
    let recommendations1 :=
      if repeated
      then firewall_recommendations m
           ∪ {[ ("Block IP " ++ ip ++ " - Multiple auth failures")%string ]}
      else firewall_recommendations m in
    (* sensitive resources *)
    let '(sensitive, events2) :=
      record_sensitive mk url (sensitive_urls_accessed m, events1) in
    (* request rate *)
    let appended := default [] (ip_request_times m !! ip) ++ [timestamp] in
    let times := if (100 <? length appended)%nat then last_100 appended else appended in
    let recent_requests :=
      List.filter (fun t => timestamp - t <? 60 * TimestampParser.us_per_second) times in
    let frequent := (60 <? length recent_requests)%nat in
    let high := if frequent then incr ip (high_frequency_ips m) else high_frequency_ips m in
    let first_time := frequent && (count high ip =? 1) in
    let events3 := if first_time then events2 ++ [mk "Rate Limit Exceeded"] else events2 in
    let recommendations3 :=
      if first_time then recommendations1 ∪ {[ ("Rate limit IP " ++ ip)%string ]}
      else recommendations1 in
    (* threats *)
    let threats :=
      ThreatMatcher.detect_threats request user_agent (le_referrer r) in
    let attacked := match threats with [] => false | _ :: _ => true end in
    let injection :=
      existsb (String.eqb "SQL Injection") threats
      || existsb (String.eqb "XSS Attack") threats in
    {| total_requests := total_requests m + 1;
       http_methods :=
         (if Py.has_char " " request
          then incr (request_method request) (http_methods m) else http_methods m);
       status_codes := incr status_code (status_codes m);
       security_status_codes :=
         (if existsb (Z.eqb status_code) SECURITY_STATUS_CODES
          then incr status_code (security_status_codes m)
          else security_status_codes m);
       ip_auth_failures := failures;
       security_events :=
         (if attacked then events3 ++ [mk "Attack Detected"] else events3);
       firewall_recommendations :=
         (if attacked && injection
          then recommendations3 ∪ {[ ("Block IP " ++ ip ++ " - Attack attempts")%string ]}
          else recommendations3);
       sensitive_urls_accessed := sensitive;
       ip_request_times := <[ip := times]> (ip_request_times m);
       high_frequency_ips := high;
       attack_types := foldl (fun c threat => incr threat c) (attack_types m) threats;
       top_attack_sources :=
         foldl (fun c (_ : string) => incr ip c) (top_attack_sources m) threats;
       attack_time_distribution :=
         foldl (fun c (_ : string) => incr hour c) (attack_time_distribution m) threats;
       suspicious_user_agents :=
         (if attacked then incr user_agent (suspicious_user_agents m)
          else suspicious_user_agents m);
       suspicious_requests :=
         (if attacked && (length (suspicious_requests m) <? 100)%nat
          then suspicious_requests m ++ [(ip, request, threats)]
          else suspicious_requests m) |}.

(** The loop over the matched lines; [clock i] is the wall-clock time
    while line [i] is processed. *)
Fixpoint scan (clock : nat -> Z) (i : nat) (entries : list log_entry) (m : metrics)
    : metrics :=
  match entries with
  | [] => m
  | r :: rest => scan clock (S i) rest (process (clock i) r m)
  end.

(** [parse_access_log] on the matched lines of a log file. *)
Definition parse_access_log (clock : nat -> Z) (entries : list log_entry) : metrics :=
  scan clock 0 entries init.

(** The part of the metrics that the security score reads. *)
Definition score_metrics (m : metrics) : Security.metrics :=
  {| Security.attack_types := attack_types m;
     Security.security_events := security_events m;
     Security.sensitive_urls_accessed := sensitive_urls_accessed m |}.

End SecurityLog.

(* ===================================================================== *)
(** ** What the security scan counts *)
(* ===================================================================== *)

Module SecurityLogInv.

Import TrafficLog(log_entry, le_ip, le_time_str, le_request, le_status_code,
                  le_referrer, le_user_agent).

(** The lines that the scan does not skip as private. *)
Definition kept (entries : list log_entry) : list log_entry :=
  List.filter (fun r => negb (SecurityLog.is_private_ip (le_ip r))) entries.

(** The threat categories of a line. *)
Definition threats_of (r : log_entry) : list string :=
  ThreatMatcher.detect_threats (le_request r) (le_user_agent r) (le_referrer r).

(** The number of threat categories over all lines, and the number of
    lines with at least one. *)
Definition threat_total (entries : list log_entry) : Z :=
  foldr (fun r acc => Z.of_nat (length (threats_of r)) + acc) 0 entries.

Definition attacked (entries : list log_entry) : list log_entry :=
  List.filter (fun r => match threats_of r with [] => false | _ :: _ => true end) entries.

(** The sensitive resources that occur in a URL, and their number over
    all lines. *)
Definition matching_resources (url : string) : list string :=
  List.filter (fun resource => Py.contains resource url) SecurityLog.sensitive_resources.

Definition sensitive_total (entries : list log_entry) : Z :=
  foldr (fun r acc =>
           Z.of_nat (length (matching_resources (SecurityLog.request_url (le_request r))))
           + acc) 0 entries.

(** The lines of a client that were answered with 401 or 403. *)
Definition auth_lines (ip : string) (entries : list log_entry) : list log_entry :=
  List.filter (fun r => String.eqb (le_ip r) ip
                        && existsb (Z.eqb (le_status_code r)) [401; 403]) entries.

(** The number of events of a type, and of a type and a client. *)
Definition event_count (event_type : string) (events : list Security.security_event) : Z :=
  Z.of_nat (length (List.filter
                      (fun e => String.eqb (Security.event_type e) event_type) events)).

Definition client_event_count (event_type ip : string)
    (events : list Security.security_event) : Z :=
  Z.of_nat (length (List.filter
                      (fun e => String.eqb (Security.event_type e) event_type
                                && String.eqb (Security.ev_ip e) ip) events)).

(** What holds of the metrics after every line. *)
Definition scan_ok (m : SecurityLog.metrics) : Prop :=
  sum_values (SecurityLog.top_attack_sources m) = sum_values (SecurityLog.attack_types m)
  /\ sum_values (SecurityLog.attack_time_distribution m)
     = sum_values (SecurityLog.attack_types m)
  /\ sum_values (SecurityLog.suspicious_user_agents m)
     = event_count "Attack Detected" (SecurityLog.security_events m)
  /\ Z.of_nat (length (SecurityLog.suspicious_requests m))
     = Z.min 100 (event_count "Attack Detected" (SecurityLog.security_events m))
  /\ sum_values (SecurityLog.sensitive_urls_accessed m)
     = event_count "Sensitive Resource Access" (SecurityLog.security_events m)
  /\ (forall ip,
        0 <= count (SecurityLog.ip_auth_failures m) ip
        /\ client_event_count "Authentication Failure" ip (SecurityLog.security_events m)
           = Z.max 0 (count (SecurityLog.ip_auth_failures m) ip - 2))
  /\ (forall ip times, SecurityLog.ip_request_times m !! ip = Some times ->
        (1 <= length times <= 100)%nat)
  /\ (forall ip,
        match SecurityLog.high_frequency_ips m !! ip with
        | Some n =>
            1 <= n
            /\ client_event_count "Rate Limit Exceeded" ip (SecurityLog.security_events m) = 1
        | None =>
            client_event_count "Rate Limit Exceeded" ip (SecurityLog.security_events m) = 0
        end).

End SecurityLogInv.

(* ===================================================================== *)
(** ** Status categories of the performance analyzer *)
(* ===================================================================== *)

Module PerformanceLog.

(** [list(range(lo, hi))] *)
Definition range (lo hi : Z) : list Z :=
  map (fun i => lo + Z.of_nat i) (seq 0 (Z.to_nat (hi - lo))).

Definition STATUS_CATEGORIES : list (string * list Z) :=
  [("2xx", range 200 300); ("3xx", range 300 400);
   ("4xx", range 400 500); ("5xx", range 500 600)].

(** The inner loop of [calculate_summary_metrics] over the categories:
    the first category whose codes contain [status], and ["other"] when
    the loop ends without a [break]. *)
Fixpoint category_of (table : list (string * list Z)) (status : Z) : string :=
  match table with
  | [] => "other"
  | (category, range_codes) :: rest =>
      if existsb (Z.eqb status) range_codes then category
      else category_of rest status
  end.

(** [d[k] += v] on a dictionary that has the key or reads 0 for it. *)
Definition add (k : string) (v : Z) (d : gmap string Z) : gmap string Z :=
  <[k := count d k + v]> d.

(** [summary['status_categories']] before and after the loop over
    [metrics['status_codes'].items()]; the result does not depend on the
    order of the items. *)
Definition initial_categories : gmap string Z :=
  {[ "2xx" := 0; "3xx" := 0; "4xx" := 0; "5xx" := 0; "other" := 0 ]}.

Definition status_categories (status_codes : gmap Z Z) : gmap string Z :=
  foldl (fun acc (item : Z * Z) => add (category_of STATUS_CATEGORIES item.1) item.2 acc)
        initial_categories (map_to_list status_codes).

(** The groups of [LOG_PATTERN] that the counters below read; the status
    code is already converted with [int]. *)
Record log_entry := {
  le_date_str : string;
  le_request : string;
  le_status_code : Z
}.

(** The counters of [metrics]; the lists of response times and sizes, the
    per-URL metrics and the slow requests, which hold floats, are left
    out. *)
Record metrics := {
  requests : Z;
  status_codes : gmap Z Z;
  request_methods : gmap string Z;
  file_types : gmap string Z;
  hourly_traffic : gmap string Z
}.

Definition init : metrics :=
  {| requests := 0; status_codes := ∅; request_methods := ∅; file_types := ∅;
     hourly_traffic := ∅ |}.

(** The loop body of [parse_access_log] for one matched line. *)
Definition process (r : log_entry) (m : metrics) : metrics :=
  let request_parts := Py.split_ws (le_request r) in
  let '(method, url) :=
    match request_parts with
    | m0 :: u0 :: _ => (m0, u0)
    | _ => ("UNKNOWN", "UNKNOWN")
    end in
  let file_ext := Py.lower (Py.splitext_ext url) in
  let timestamp_parts := Py.split ":" (le_date_str r) in
  {| requests := requests m + 1;
     status_codes := incr (le_status_code r) (status_codes m);
     request_methods := incr method (request_methods m);
     file_types :=
       (if String.eqb file_ext "" then file_types m else incr file_ext (file_types m));
     hourly_traffic :=
       (if (2 <=? length timestamp_parts)%nat
        then incr (nth 1 timestamp_parts "") (hourly_traffic m)
        else hourly_traffic m) |}.

Definition parse_access_log (entries : list log_entry) : metrics :=
  foldl (fun m r => process r m) init entries.

(** The number of lines whose status code is in [lo, hi), and outside of
    [200, 600). *)
Definition lines_in (lo hi : Z) (entries : list log_entry) : Z :=
  Z.of_nat (length (List.filter
                      (fun r => (lo <=? le_status_code r) && (le_status_code r <? hi))
                      entries)).

Definition lines_outside (entries : list log_entry) : Z :=
  Z.of_nat (length (List.filter
                      (fun r => (le_status_code r <? 200) || (600 <=? le_status_code r))
                      entries)).

(** The sum of the counts of the codes that [P] accepts. *)
Definition sum_where (P : Z -> bool) (c : gmap Z Z) : Z :=
  foldr (fun (kv : Z * Z) acc => (if P kv.1 then kv.2 else 0) + acc) 0 (map_to_list c).

End PerformanceLog.

(* ===================================================================== *)
(** ** Invariants of the content scan *)
(* ===================================================================== *)

Module ContentInv.

(** No recorded reading time is negative. *)
Definition estimates_ok (st : Content.state) : Prop :=
  forall url es e, Content.content_engagement st !! url = Some es -> In e es ->
    (0 <= Content.estimated_reading_time e)%Q.

(** A hit of the content analyzer as the traffic tracker reads it: the
    content analyzer counts lines with status 200 only. *)
Definition traffic_hit (e : Content.hit) : Traffic.hit :=
  {| Traffic.ip := Content.ip e; Traffic.timestamp := Content.timestamp e;
     Traffic.url := Content.url e; Traffic.status_code := 200 |}.

(** The two trackers hold the same sessions. *)
Definition same_sessions (st : Content.state) (tr : Traffic.tracker) : Prop :=
  Content.sessions st = Traffic.sessions tr
  /\ Content.ip_sessions st = Traffic.ip_sessions tr.

(** The engagement records of [url] in a list of hits. *)
Definition engagements_of (url : string) (evs : list Content.hit) : list Content.engagement :=
  flat_map (fun e =>
              match Content.response_size e with
              | Some size =>
                  if String.eqb (Content.url e) url
                  then [{| Content.e_ip := Content.ip e;
                           Content.e_timestamp := Content.timestamp e;
                           Content.estimated_reading_time :=
                             Content.calculate_reading_time size |}]
                  else []
              | None => []
              end) evs.

End ContentInv.

(* ===================================================================== *)
(** * Properties *)
(* ===================================================================== *)

(** ** Python built-ins: the examples of the documentation *)

Example py_split_max_1 :
  Py.split_max ":" 1 "10/Oct/2023:13:55:36 +0200" = ["10/Oct/2023"; "13:55:36 +0200"].
Proof. reflexivity. Qed.

Example py_split_date : Py.split "/" "10/Oct/2023" = ["10"; "Oct"; "2023"].
Proof. reflexivity. Qed.

Example py_split_ws : Py.split_ws "36 +0200" = ["36"; "+0200"].
Proof. reflexivity. Qed.

Example py_int_examples :
  Py.int " 2023 " = Some 2023 /\ Py.int "-7" = Some (-7) /\ Py.int "1_0" = Some 10
  /\ Py.int "1__0" = None /\ Py.int "" = None /\ Py.int "3x" = None
  /\ Py.int "+ 1" = None /\ Py.int (String (ascii_of_nat 28) "5") = None.
Proof. repeat split; reflexivity. Qed.

Example py_splitext_examples :
  Py.splitext_ext "/css/site.CSS" = ".CSS" /\ Py.splitext_ext "/a.b/c" = ""
  /\ Py.splitext_ext "/.htaccess" = "" /\ Py.splitext_ext "/app.js?v=1" = ".js?v=1".
Proof. repeat split; reflexivity. Qed.

Example parse_time_doc_example :
  TimestampParser.parse_time 0 "10/Oct/2023:13:55:36 +0200"
  = (TimestampParser.t_2023_10_10_135536, 13, 1).
Proof. vm_compute. reflexivity. Qed.

Example parse_time_unknown_month_is_january :
  TimestampParser.parse_time 0 "10/Foo/2023:13:55:36 +0200"
  = TimestampParser.parse_time 0 "10/Jan/2023:13:55:36 +0200".
Proof. vm_compute. reflexivity. Qed.

(** ** C5: the security score *)

Lemma capped_penalty_bounds cap k n :
  0 <= cap -> 0 <= k -> 0 <= Security.capped_penalty cap k n <= cap.
Proof. unfold Security.capped_penalty. intros. nia. Qed.

Lemma auth_failures_nonneg m : 0 <= Security.auth_failures m.
Proof.
  unfold Security.auth_failures.
  induction (Security.security_events m) as [|e l IH]; simpl; [lia|].
  destruct (String.eqb _ _); lia.
Qed.

(** C5.  The security score is 100 minus the attack penalty (one point per
    detected attack, at most 50), minus the authentication-failure penalty
    (five points each, at most 20), minus the sensitive-resource penalty
    (two points each, at most 20); each penalty lies within its cap and the
    score lies in [0, 100]. *)
Theorem security_score_capped_penalties (m : Security.metrics) :
  let pa := Security.capped_penalty 50 1 (Security.attack_count m) in
  let pf := Security.capped_penalty 20 5 (Security.auth_failures m) in
  let ps := Security.capped_penalty 20 2 (Security.sensitive_access m) in
  Security.security_score m = 100 - pa - pf - ps
  /\ 0 <= pa <= 50 /\ 0 <= pf <= 20 /\ 0 <= ps <= 20
  /\ 0 <= Security.security_score m <= 100.
Proof.
  unfold Security.security_score, Security.score_of_counts, Security.capped_penalty.
  set (a := Security.attack_count m).
  set (f := Security.auth_failures m).
  set (s := Security.sensitive_access m).
  cbv zeta.
  destruct (Z.gtb_spec a 0), (Z.gtb_spec f 0), (Z.gtb_spec s 0); lia.
Qed.

Example security_score_examples :
  Security.score_of_counts 0 0 0 = 100
  /\ Security.score_of_counts 7 1 3 = 82
  /\ Security.score_of_counts 1000 1000 1000 = 10.
Proof. repeat split; reflexivity. Qed.

(** ** The traffic session tracker: invariant and exceptions *)

Section TrafficTracker.
Import Traffic.

(** The datetimes for which [timestamp()] raises on the machine that runs
    the scan. *)
Variable timestamp_raises : Z -> bool.

Abbreviation track := (Traffic.track timestamp_raises).
Abbreviation run := (Traffic.run timestamp_raises).

Lemma init_well_formed : well_formed init.
Proof. intros client t H. cbn in H. by rewrite lookup_empty in H. Qed.

Lemma sessions_of_lookup st client vs :
  sessions st !! client = Some vs -> sessions_of st client = vs.
Proof. unfold sessions_of. by intros ->. Qed.

(** What one step does for a client that was seen before. *)
Lemma track_seen e st last_time vs u sid :
  ((timestamp e - last_time >? session_timeout) = true ->
   timestamp_raises (timestamp e) = false) ->
  ip_sessions st !! ip e = Some last_time ->
  sessions st !! ip e = Some vs ->
  last vs = Some (last_time, u, sid) ->
  Forall (fun v : visit => v.2 = sid) vs ->
  exists st',
    track e st = Some st'
    /\ ip_sessions st' = <[ip e := timestamp e]> (ip_sessions st)
    /\ sessions st' =
         <[ip e := if timestamp e - last_time >? session_timeout
                   then [(timestamp e, url e, (ip e, timestamp e))]
                   else vs ++ [(timestamp e, url e, sid)]]> (sessions st)
    /\ paths st' =
         paths st ++ [(timestamp e, ip e, url e,
                       if timestamp e - last_time >? session_timeout
                       then (ip e, timestamp e) else sid)].
Proof.
  intros Hok Hseen Hvs Hlast Hall.
  unfold Traffic.track. rewrite Hseen, (sessions_of_lookup _ _ _ Hvs).
  destruct (timestamp e - last_time >? session_timeout) eqn:Hgap.
  - rewrite (Hok eq_refl). eexists; repeat split; reflexivity.
  - destruct vs as [|first rest]; [discriminate|].
    assert (first.2 = sid) as -> by (by inversion Hall).
    eexists; repeat split; reflexivity.
Qed.

(** What one step does for a client that was not seen before. *)
Lemma track_unseen e st :
  timestamp_raises (timestamp e) = false ->
  ip_sessions st !! ip e = None ->
  exists st',
    track e st = Some st'
    /\ ip_sessions st' = <[ip e := timestamp e]> (ip_sessions st)
    /\ sessions st' = <[ip e := [(timestamp e, url e, (ip e, timestamp e))]]> (sessions st)
    /\ paths st' = paths st ++ [(timestamp e, ip e, url e, (ip e, timestamp e))].
Proof.
  intros Hok Hnew. unfold Traffic.track. rewrite Hnew, Hok.
  eexists; repeat split; reflexivity.
Qed.

(** A step that opens a session makes an id from the hit's timestamp; it
    raises exactly when [timestamp()] does. *)
Lemma track_raises e st :
  well_formed st ->
  track e st = None
  <-> timestamp_raises (timestamp e) = true
      /\ match ip_sessions st !! ip e with
         | Some last_time => timestamp e - last_time > session_timeout
         | None => True
         end.
Proof.
  intros Hwf. unfold Traffic.track.
  destruct (ip_sessions st !! ip e) as [last_time|] eqn:Hseen.
  - destruct (Hwf _ _ Hseen) as (vs & u & sid & Hvs & Hlast & _).
    rewrite (sessions_of_lookup _ _ _ Hvs).
    destruct (Z.gtb_spec (timestamp e - last_time) session_timeout) as [Hgap|Hgap].
    + destruct (timestamp_raises (timestamp e)); split.
      * intros _. split; [done|lia].
      * done.
      * discriminate.
      * intros [? _]. discriminate.
    + destruct vs as [|first rest]; [done|]. split; [discriminate|]. intros [_ H]. lia.
  - destruct (timestamp_raises (timestamp e)); split.
    + done.
    + done.
    + discriminate.
    + intros [? _]. discriminate.
Qed.

Lemma track_well_formed e st :
  timestamp_raises (timestamp e) = false ->
  well_formed st -> exists st', track e st = Some st' /\ well_formed st'.
Proof.
  intros Hok Hwf.
  destruct (ip_sessions st !! ip e) as [last_time|] eqn:Hseen.
  - destruct (Hwf _ _ Hseen) as (vs & u & sid & Hvs & Hlast & Hall).
    destruct (track_seen e st _ _ _ _ (fun _ => Hok) Hseen Hvs Hlast Hall)
      as (st' & Hst' & Hips & Hss & _).
    exists st'. split; [done|].
    intros client t Ht. rewrite Hips in Ht. rewrite Hss.
    destruct (decide (ip e = client)) as [<-|Hne].
    + rewrite lookup_insert_eq in Ht. injection Ht as <-.
      rewrite lookup_insert_eq.
      destruct (timestamp e - last_time >? session_timeout).
      * exists [(timestamp e, url e, (ip e, timestamp e))], (url e), (ip e, timestamp e).
        repeat split; auto.
      * exists (vs ++ [(timestamp e, url e, sid)]), (url e), sid.
        split; [done|]. split; [by rewrite last_snoc|].
        apply Forall_app; split; [done|]. by constructor.
    + rewrite lookup_insert_ne in Ht by done. rewrite lookup_insert_ne by done.
      by apply Hwf.
  - destruct (track_unseen e st Hok Hseen) as (st' & Hst' & Hips & Hss & _).
    exists st'. split; [done|].
    intros client t Ht. rewrite Hips in Ht. rewrite Hss.
    destruct (decide (ip e = client)) as [<-|Hne].
    + rewrite lookup_insert_eq in Ht. injection Ht as <-.
      rewrite lookup_insert_eq.
      exists [(timestamp e, url e, (ip e, timestamp e))], (url e), (ip e, timestamp e).
      repeat split; auto.
    + rewrite lookup_insert_ne in Ht by done. rewrite lookup_insert_ne by done.
      by apply Hwf.
Qed.

(** The loop does not fail on hits for which [timestamp()] returns: the
    [IndexError] branch is unreachable. *)
Lemma run_well_formed evs st :
  Forall (fun e => timestamp_raises (timestamp e) = false) evs ->
  well_formed st -> exists st', run evs st = Some st' /\ well_formed st'.
Proof.
  intros Hok. revert st. induction Hok as [|e evs He _ IH]; intros st Hwf; simpl.
  - by exists st.
  - destruct (track_well_formed e st He Hwf) as (st1 & -> & Hwf1). simpl. by apply IH.
Qed.

Lemma run_app evs1 evs2 st :
  run (evs1 ++ evs2) st = st' ← run evs1 st; run evs2 st'.
Proof.
  revert st. induction evs1 as [|e evs1 IH]; intros st; simpl; [done|].
  destruct (track e st); simpl; [apply IH|done].
Qed.

(** A step leaves the other clients' entries alone. *)
Lemma track_other e st st' client :
  track e st = Some st' -> ip e <> client ->
  ip_sessions st' !! client = ip_sessions st !! client
  /\ sessions st' !! client = sessions st !! client.
Proof.
  unfold Traffic.track. intros H Hne.
  destruct (ip_sessions st !! ip e) as [last_time|].
  - destruct (timestamp e - last_time >? session_timeout).
    + destruct (timestamp_raises (timestamp e)); [discriminate|].
      injection H as <-. cbn. by rewrite !lookup_insert_ne.
    + destruct (sessions_of st (ip e)); [discriminate|].
      injection H as <-. cbn. by rewrite !lookup_insert_ne.
  - destruct (timestamp_raises (timestamp e)); [discriminate|].
    injection H as <-. cbn. by rewrite !lookup_insert_ne.
Qed.

Lemma run_other evs st st' client :
  run evs st = Some st' -> Forall (fun e => ip e <> client) evs ->
  ip_sessions st' !! client = ip_sessions st !! client
  /\ sessions st' !! client = sessions st !! client.
Proof.
  revert st. induction evs as [|e evs IH]; intros st H Hall; simpl in H.
  - by injection H as <-.
  - inversion Hall as [|? ? Hne Hall']; subst.
    destruct (track e st) as [st1|] eqn:Hst1; [|discriminate]. simpl in H.
    destruct (IH _ H Hall') as [-> ->]. by eapply track_other.
Qed.

(** After a hit, its client's last-seen time is the hit's timestamp. *)
Lemma track_last_seen e st st' :
  track e st = Some st' -> ip_sessions st' !! ip e = Some (timestamp e).
Proof.
  unfold Traffic.track. intros H.
  destruct (ip_sessions st !! ip e) as [last_time|].
  - destruct (timestamp e - last_time >? session_timeout).
    + destruct (timestamp_raises (timestamp e)); [discriminate|].
      injection H as <-. cbn. by rewrite lookup_insert_eq.
    + destruct (sessions_of st (ip e)); [discriminate|].
      injection H as <-. cbn. by rewrite lookup_insert_eq.
  - destruct (timestamp_raises (timestamp e)); [discriminate|].
    injection H as <-. cbn. by rewrite lookup_insert_eq.
Qed.

End TrafficTracker.

(** ** C2: the session boundary *)

Section SessionBoundary.
Import Traffic.

Variable timestamp_raises : Z -> bool.

Abbreviation track := (Traffic.track timestamp_raises).
Abbreviation run := (Traffic.run timestamp_raises).
Abbreviation returns := (Forall (fun e => timestamp_raises (timestamp e) = false)).

Lemma track_appends e st st' :
  track e st = Some st' ->
  exists vs0 sid, sessions st' !! ip e = Some (vs0 ++ [(timestamp e, url e, sid)]).
Proof.
  unfold Traffic.track. intros H.
  destruct (ip_sessions st !! ip e) as [last_time|].
  - destruct (timestamp e - last_time >? session_timeout).
    + destruct (timestamp_raises (timestamp e)); [discriminate|].
      injection H as <-. exists [], (ip e, timestamp e). cbn. by rewrite lookup_insert_eq.
    + destruct (sessions_of st (ip e)) as [|first rest]; [discriminate|].
      injection H as <-. exists (first :: rest), first.2. cbn. by rewrite lookup_insert_eq.
  - destruct (timestamp_raises (timestamp e)); [discriminate|].
    injection H as <-. exists [], (ip e, timestamp e). cbn. by rewrite lookup_insert_eq.
Qed.

(** Two consecutive hits of one client, with any hits of other clients in
    between, in a log on whose datetimes [timestamp()] returns: the second
    hit is appended to the client's open session when the gap is at most
    30 minutes, and replaces it by a new session of its own when the gap
    is greater (traffic analyzer). *)
Theorem traffic_consecutive_hits (pre mid : list hit) (e1 e2 : hit) :
  returns (pre ++ [e1] ++ mid ++ [e2]) ->
  ip e2 = ip e1 ->
  Forall (fun e => ip e <> ip e1) mid ->
  exists st1 st2 vs sid,
    run (pre ++ [e1]) init = Some st1
    /\ sessions st1 !! ip e1 = Some vs
    /\ last vs = Some (timestamp e1, url e1, sid)
    /\ run (pre ++ [e1] ++ mid ++ [e2]) init = Some st2
    /\ sessions st2 !! ip e1 =
         Some (if timestamp e2 - timestamp e1 >? session_timeout
               then [(timestamp e2, url e2, (ip e2, timestamp e2))]
               else vs ++ [(timestamp e2, url e2, sid)]).
Proof.
  intros Hok Hip Hmid.
  apply Forall_app in Hok as [Hpre Hok]. apply Forall_app in Hok as [He1 Hok].
  apply Forall_app in Hok as [Hokmid He2].
  apply Forall_inv in He1. apply Forall_inv in He2.
  destruct (run_well_formed timestamp_raises pre init Hpre init_well_formed)
    as (st0 & Hst0 & Hwf0).
  destruct (track_well_formed timestamp_raises e1 st0 He1 Hwf0) as (st1 & Hst1 & Hwf1).
  destruct (run_well_formed timestamp_raises mid st1 Hokmid Hwf1) as (stm & Hstm & Hwfm).
  pose proof (track_last_seen _ _ _ _ Hst1) as Hseen1.
  destruct (Hwf1 _ _ Hseen1) as (vs & u & sid & Hvs & Hlast & Hall).
  destruct (track_appends _ _ _ Hst1) as (vs0 & sid0 & Hvs0).
  rewrite Hvs in Hvs0. injection Hvs0 as ->.
  rewrite last_snoc in Hlast. injection Hlast as <- <-.
  destruct (run_other _ _ _ _ _ Hstm Hmid) as [Hips Hss].
  rewrite <- Hip in Hseen1, Hvs, Hips, Hss.
  rewrite Hseen1 in Hips. rewrite Hvs in Hss.
  assert (last (vs0 ++ [(timestamp e1, url e1, sid0)]) = Some (timestamp e1, url e1, sid0))
    as Hlast by apply last_snoc.
  destruct (track_seen timestamp_raises e2 stm _ _ _ _ (fun _ => He2) Hips Hss Hlast Hall)
    as (st2 & Hst2 & _ & Hss2 & _).
  exists st1, st2, (vs0 ++ [(timestamp e1, url e1, sid0)]), sid0.
  rewrite Hip in Hvs.
  split; [by rewrite run_app, Hst0; simpl; rewrite Hst1|].
  split; [done|]. split; [done|].
  split.
  - rewrite run_app, Hst0. simpl. rewrite Hst1. simpl.
    rewrite run_app, Hstm. simpl. by rewrite Hst2.
  - rewrite Hss2, <- Hip. by rewrite lookup_insert_eq.
Qed.

(** The threshold is strict: a gap of exactly 30 minutes extends the
    session, one microsecond more starts a new one. *)
Corollary traffic_gap_at_threshold (e1 e2 : hit) :
  returns [e1; e2] ->
  ip e2 = ip e1 ->
  (timestamp e2 - timestamp e1 = session_timeout ->
     exists st, run [e1; e2] init = Some st
       /\ sessions st !! ip e1
          = Some [(timestamp e1, url e1, (ip e1, timestamp e1));
                  (timestamp e2, url e2, (ip e1, timestamp e1))])
  /\ (timestamp e2 - timestamp e1 = session_timeout + 1 ->
     exists st, run [e1; e2] init = Some st
       /\ sessions st !! ip e1 = Some [(timestamp e2, url e2, (ip e2, timestamp e2))]).
Proof.
  intros Hok Hip.
  destruct (traffic_consecutive_hits [] [] e1 e2 Hok Hip (List.Forall_nil _))
    as (st1 & st2 & vs & sid & Hst1 & Hvs & Hlast & Hst2 & Hss).
  cbn [app] in Hst1, Hst2.
  assert (vs = [(timestamp e1, url e1, (ip e1, timestamp e1))]) as ->.
  { simpl in Hst1. unfold Traffic.track in Hst1. cbn in Hst1.
    rewrite lookup_empty in Hst1. cbn in Hst1.
    destruct (timestamp_raises (timestamp e1)); [discriminate|].
    injection Hst1 as <-.
    cbn in Hvs. rewrite lookup_insert_eq in Hvs. by injection Hvs as <-. }
  cbn in Hlast. injection Hlast as <-.
  split; intros Hgap; exists st2; (split; [done|]); rewrite Hss, Hgap.
  - reflexivity.
  - reflexivity.
Qed.

End SessionBoundary.

Lemma traffic_consecutive_hits_witness :
  let e1 := {| Traffic.ip := "8.8.8.8"; Traffic.timestamp := 63832539600000000;
               Traffic.url := "/a"; Traffic.status_code := 200 |} in
  let e2 := {| Traffic.ip := "8.8.8.8"; Traffic.timestamp := 63832539900000000;
               Traffic.url := "/b"; Traffic.status_code := 200 |} in
  exists st1 st2 vs sid,
    Traffic.run TimestampParser.timestamp_raises_utc ([] ++ [e1]) Traffic.init = Some st1
    /\ Traffic.sessions st1 !! Traffic.ip e1 = Some vs
    /\ last vs = Some (Traffic.timestamp e1, Traffic.url e1, sid)
    /\ Traffic.run TimestampParser.timestamp_raises_utc ([] ++ [e1] ++ [] ++ [e2])
         Traffic.init = Some st2
    /\ Traffic.sessions st2 !! Traffic.ip e1 =
         Some (if Traffic.timestamp e2 - Traffic.timestamp e1 >? Traffic.session_timeout
               then [(Traffic.timestamp e2, Traffic.url e2,
                      (Traffic.ip e2, Traffic.timestamp e2))]
               else vs ++ [(Traffic.timestamp e2, Traffic.url e2, sid)]).
Proof.
  intros e1 e2.
  apply (traffic_consecutive_hits TimestampParser.timestamp_raises_utc [] [] e1 e2);
    [by repeat constructor|reflexivity|constructor].
Defined.

Section SessionBoundaryExample.
Import Traffic.

Variable timestamp_raises : Z -> bool.

Abbreviation run := (Traffic.run timestamp_raises).

Let hit_at (client : string) (t : Z) (u : string) (status : Z) : hit :=
  {| ip := client; timestamp := t; url := u; status_code := status |}.

(** Hits of one client at t, t+5min, t+40min and t+50min fall into exactly
    two sessions, the first two hits in one and the last two in the other
    (traffic analyzer): the session ids recorded in [metrics['paths']], and
    the open session at the end.  The two session ids are made from t and
    from t+40min, where [timestamp()] has to return. *)
Lemma traffic_four_hits client t u0 u1 u2 u3 s0 s1 s2 s3 :
  let t5 := t + TimestampParser.minutes 5 in
  let t40 := t + TimestampParser.minutes 40 in
  let t50 := t + TimestampParser.minutes 50 in
  timestamp_raises t = false ->
  timestamp_raises t40 = false ->
  exists st,
    run [hit_at client t u0 s0; hit_at client t5 u1 s1;
         hit_at client t40 u2 s2; hit_at client t50 u3 s3] init = Some st
    /\ paths st = [(t, client, u0, (client, t)); (t5, client, u1, (client, t));
                   (t40, client, u2, (client, t40)); (t50, client, u3, (client, t40))]
    /\ sessions st !! client = Some [(t40, u2, (client, t40)); (t50, u3, (client, t40))].
Proof.
  intros t5 t40 t50 Hok0 Hok40.
  assert (Hg1 : (t5 - t >? session_timeout) = false).
  { subst t5. replace (t + TimestampParser.minutes 5 - t)
      with (TimestampParser.minutes 5) by lia.
    reflexivity. }
  assert (Hg2 : (t40 - t5 >? session_timeout) = true).
  { subst t5 t40. replace (t + TimestampParser.minutes 40 - (t + TimestampParser.minutes 5))
      with (TimestampParser.minutes 35) by (unfold TimestampParser.minutes; lia).
    reflexivity. }
  assert (Hg3 : (t50 - t40 >? session_timeout) = false).
  { subst t40 t50. replace (t + TimestampParser.minutes 50 - (t + TimestampParser.minutes 40))
      with (TimestampParser.minutes 10) by (unfold TimestampParser.minutes; lia).
    reflexivity. }
  set (e0 := hit_at client t u0 s0). set (e1 := hit_at client t5 u1 s1).
  set (e2 := hit_at client t40 u2 s2). set (e3 := hit_at client t50 u3 s3).
  destruct (track_unseen timestamp_raises e0 init Hok0 (lookup_empty _)) as (st1 & H1 & Hi1 & Hs1 & Hp1).
  destruct (track_seen timestamp_raises e1 st1 t [(t, u0, (client, t))] u0 (client, t))
    as (st2 & H2 & Hi2 & Hs2 & Hp2);
    [by cbn [timestamp e1 hit_at]; rewrite Hg1|by rewrite Hi1; apply lookup_insert_eq | by rewrite Hs1; apply lookup_insert_eq
    | reflexivity | by repeat constructor |].
  cbn [ip timestamp url e1 hit_at] in Hi2, Hs2, Hp2. rewrite Hg1 in Hs2, Hp2.
  destruct (track_seen timestamp_raises e2 st2 t5
              [(t, u0, (client, t)); (t5, u1, (client, t))] u1 (client, t))
    as (st3 & H3 & Hi3 & Hs3 & Hp3);
    [by intros _|by rewrite Hi2; apply lookup_insert_eq | by rewrite Hs2; apply lookup_insert_eq
    | reflexivity | by repeat constructor |].
  cbn [ip timestamp url e2 hit_at] in Hi3, Hs3, Hp3. rewrite Hg2 in Hs3, Hp3.
  destruct (track_seen timestamp_raises e3 st3 t40 [(t40, u2, (client, t40))] u2 (client, t40))
    as (st4 & H4 & Hi4 & Hs4 & Hp4);
    [by cbn [timestamp e3 hit_at]; rewrite Hg3|by rewrite Hi3; apply lookup_insert_eq | by rewrite Hs3; apply lookup_insert_eq
    | reflexivity | by repeat constructor |].
  cbn [ip timestamp url e3 hit_at] in Hi4, Hs4, Hp4. rewrite Hg3 in Hs4, Hp4.
  exists st4. split; [|split].
  - cbn [Traffic.run]. rewrite H1. cbn. rewrite H2. cbn. rewrite H3. cbn. by rewrite H4.
  - rewrite Hp4, Hp3, Hp2, Hp1. reflexivity.
  - rewrite Hs4. apply lookup_insert_eq.
Qed.

End SessionBoundaryExample.

(** ** The SEO session tracker *)

Section SeoTracker.
Import Seo.

(** A non-bot hit of a client seen before is appended to the open session
    exactly when the gap is less than 30 minutes; otherwise it opens a new
    session and may count as an entry page (SEO analyzer). *)
Lemma seo_track_seen e st last_seen :
  bot_name e = None ->
  ip_last_seen st !! ip e = Some last_seen ->
  sessions (track e st) !! ip e =
    Some (if timestamp e - last_seen <? session_timeout
          then default [] (sessions st !! ip e) ++ [(timestamp e, url e)]
          else [(timestamp e, url e)])
  /\ ip_last_seen (track e st) !! ip e = Some (timestamp e)
  /\ top_entry_pages (track e st) =
       if timestamp e - last_seen <? session_timeout then top_entry_pages st
       else if (status_code e =? 200) && String.eqb (method e) "GET"
            then incr (url e) (top_entry_pages st) else top_entry_pages st.
Proof.
  intros Hbot Hseen. unfold track, continues. rewrite Hbot, Hseen.
  destruct (timestamp e - last_seen <? session_timeout); cbn;
    by rewrite !lookup_insert_eq.
Qed.

Lemma seo_track_unseen e st :
  bot_name e = None ->
  ip_last_seen st !! ip e = None ->
  sessions (track e st) !! ip e = Some [(timestamp e, url e)]
  /\ ip_last_seen (track e st) !! ip e = Some (timestamp e)
  /\ top_entry_pages (track e st) =
       if (status_code e =? 200) && String.eqb (method e) "GET"
       then incr (url e) (top_entry_pages st) else top_entry_pages st.
Proof.
  intros Hbot Hseen. unfold track, continues. rewrite Hbot, Hseen. cbn.
  by rewrite !lookup_insert_eq.
Qed.

Let seo_hit (client : string) (t : Z) (u : string) : hit :=
  {| ip := client; timestamp := t; url := u; status_code := 200;
     method := "GET"; bot_name := None |}.

(** Hits of one client at t, t+5min, t+40min and t+50min: the SEO tracker
    too ends with the session of the last two hits open, and has counted
    the first and the third hit as entry pages. *)
Lemma seo_four_hits client t :
  let st := run [seo_hit client t "/a"; seo_hit client (t + TimestampParser.minutes 5) "/b";
                 seo_hit client (t + TimestampParser.minutes 40) "/c";
                 seo_hit client (t + TimestampParser.minutes 50) "/d"] init in
  sessions st !! client
    = Some [(t + TimestampParser.minutes 40, "/c"); (t + TimestampParser.minutes 50, "/d")]
  /\ top_entry_pages st = incr "/c" (incr "/a" ∅).
Proof.
  cbn zeta. unfold run. cbn [foldl].
  set (e0 := seo_hit client t "/a").
  set (e1 := seo_hit client (t + TimestampParser.minutes 5) "/b").
  set (e2 := seo_hit client (t + TimestampParser.minutes 40) "/c").
  set (e3 := seo_hit client (t + TimestampParser.minutes 50) "/d").
  destruct (seo_track_unseen e0 init eq_refl (lookup_empty _)) as (Hs1 & Hl1 & He1).
  destruct (seo_track_seen e1 (track e0 init) _ eq_refl Hl1) as (Hs2 & Hl2 & He2).
  destruct (seo_track_seen e2 (track e1 (track e0 init)) _ eq_refl Hl2) as (Hs3 & Hl3 & He3).
  destruct (seo_track_seen e3 (track e2 (track e1 (track e0 init))) _ eq_refl Hl3)
    as (Hs4 & Hl4 & He4).
  cbn [ip timestamp url status_code method e0 e1 e2 e3 seo_hit] in *.
  replace (t + TimestampParser.minutes 5 - t) with (TimestampParser.minutes 5) in * by lia.
  replace (t + TimestampParser.minutes 40 - (t + TimestampParser.minutes 5))
    with (TimestampParser.minutes 35) in * by (unfold TimestampParser.minutes; lia).
  replace (t + TimestampParser.minutes 50 - (t + TimestampParser.minutes 40))
    with (TimestampParser.minutes 10) in * by (unfold TimestampParser.minutes; lia).
  change (TimestampParser.minutes 5 <? session_timeout) with true in *.
  change (TimestampParser.minutes 35 <? session_timeout) with false in *.
  change (TimestampParser.minutes 10 <? session_timeout) with true in *.
  cbn [andb Z.eqb String.eqb] in *.
  rewrite Hs4, Hs3, He4, He3, He2, He1. split; reflexivity.
Qed.

End SeoTracker.

(** C2.  Two hits of one client exactly 30 minutes apart.  The traffic
    tracker extends the session, as the specification has it (a gap of at
    most 30 minutes extends, the threshold is applied with [>]); the SEO tracker,
    whose test is [gap < timeout], starts a new session and counts a second
    entry page.  The traffic tracker makes its session id with
    [timestamp()] at the first hit, and gets as far as the second hit
    where that call returns. *)
Theorem seo_gap_of_exactly_30_minutes client t u1 u2 :
  let t30 := t + TimestampParser.minutes 30 in
  let seo1 := {| Seo.ip := client; Seo.timestamp := t; Seo.url := u1;
                 Seo.status_code := 200; Seo.method := "GET"; Seo.bot_name := None |} in
  let seo2 := {| Seo.ip := client; Seo.timestamp := t30; Seo.url := u2;
                 Seo.status_code := 200; Seo.method := "GET"; Seo.bot_name := None |} in
  let h1 := {| Traffic.ip := client; Traffic.timestamp := t; Traffic.url := u1;
               Traffic.status_code := 200 |} in
  let h2 := {| Traffic.ip := client; Traffic.timestamp := t30; Traffic.url := u2;
               Traffic.status_code := 200 |} in
  t30 - t <= Seo.session_timeout
  /\ Seo.sessions (Seo.run [seo1; seo2] Seo.init) !! client = Some [(t30, u2)]
  /\ Seo.top_entry_pages (Seo.run [seo1; seo2] Seo.init) = incr u2 (incr u1 ∅)
  /\ forall timestamp_raises, timestamp_raises t = false ->
       exists st, Traffic.run timestamp_raises [h1; h2] Traffic.init = Some st
         /\ Traffic.sessions st !! client = Some [(t, u1, (client, t)); (t30, u2, (client, t))].
Proof.
  intros t30 seo1 seo2 h1 h2.
  assert (Hgap : t30 - t = TimestampParser.minutes 30) by (subst t30; lia).
  split; [rewrite Hgap; vm_compute; discriminate|].
  destruct (seo_track_unseen seo1 Seo.init eq_refl (lookup_empty _)) as (Hs1 & Hl1 & He1).
  destruct (seo_track_seen seo2 (Seo.track seo1 Seo.init) _ eq_refl Hl1) as (Hs2 & Hl2 & He2).
  cbn [Seo.ip Seo.timestamp Seo.url Seo.status_code Seo.method seo1 seo2] in *.
  rewrite Hgap in *.
  change (TimestampParser.minutes 30 <? Seo.session_timeout) with false in *.
  cbn [andb Z.eqb String.eqb] in *.
  unfold Seo.run. cbn [foldl]. rewrite Hs2, He2, He1.
  split; [done|]. split; [done|].
  intros timestamp_raises Hok.
  unfold Traffic.run, Traffic.track. cbn. rewrite lookup_empty. cbn.
  rewrite Hok. cbn. rewrite lookup_insert_eq. cbn.
  replace (t30 - t >? Traffic.session_timeout) with false
    by (rewrite Hgap; reflexivity).
  unfold Traffic.sessions_of. cbn. rewrite lookup_insert_eq. cbn.
  eexists. split; [reflexivity|]. cbn. by rewrite lookup_insert_eq.
Qed.

(** ** C4: bounce classification and bounce rate *)

Section Bounce.
Import Traffic.

Lemma unique_pages_fold (session : list visit) (acc : gset string) (u : string) :
  u ∈ foldl (fun (acc : gset string) (v : visit) =>
               if is_static v.1.2 then acc else acc ∪ {[ v.1.2 ]}) acc session
  <-> u ∈ acc \/ (is_static u = false /\ exists t sid, (t, u, sid) ∈ session).
Proof.
  revert acc. induction session as [|[[t' u'] sid'] session IH]; intros acc; simpl.
  - split; [auto|]. intros [H|(_ & t & sid & H)]; [done|]. by apply elem_of_nil in H.
  - rewrite IH. destruct (is_static u') eqn:Hst.
    + split.
      * intros [H|(Hu & t & sid & H)]; [by left|].
        right. split; [done|]. exists t, sid. by right.
      * intros [H|(Hu & t & sid & H)]; [by left|].
        apply elem_of_cons in H as [H|H].
        -- injection H as _ -> _. congruence.
        -- right. split; [done|]. by exists t, sid.
    + rewrite elem_of_union, elem_of_singleton. split.
      * intros [[H| ->]|(Hu & t & sid & H)].
        -- by left.
        -- right. split; [done|]. exists t', sid'. by left.
        -- right. split; [done|]. exists t, sid. by right.
      * intros [H|(Hu & t & sid & H)]; [by left; left|].
        apply elem_of_cons in H as [H|H].
        -- injection H as _ -> _. left. by right.
        -- right. split; [done|]. by exists t, sid.
Qed.

(** [unique_pages] is the set of the non-static URLs of the session. *)
Lemma unique_pages_spec (session : list visit) (u : string) :
  u ∈ unique_pages session
  <-> is_static u = false /\ exists t sid, (t, u, sid) ∈ session.
Proof.
  unfold unique_pages. rewrite unique_pages_fold. split; [|by right].
  intros [H|H]; [|done]. by apply not_elem_of_empty in H.
Qed.

Lemma bounce_counters_fold (items : list (string * list visit)) (acc : Z * Z) :
  foldl (fun (acc : Z * Z) (kv : string * list visit) =>
           let single_page_sessions :=
             if (size (unique_pages kv.2) =? 1)%nat then acc.1 + 1 else acc.1 in
           (single_page_sessions, acc.2 + 1)) acc items
  = (acc.1 + Z.of_nat (length (List.filter
                                 (fun kv => (size (unique_pages kv.2) =? 1)%nat) items)),
     acc.2 + Z.of_nat (length items)).
Proof.
  revert acc. induction items as [|kv items IH]; intros [s n]; simpl.
  - f_equal; lia.
  - rewrite IH. simpl. destruct (size (unique_pages kv.2) =? 1)%nat; simpl; f_equal; lia.
Qed.

(** What [calculate_bounce_rate] computes from the dict it is given: an
    entry counts as a bounce exactly when the set of its distinct
    non-static URLs has one element, and the rate is the number of such
    entries divided by the number of entries, times 100 (and 0 when there
    is none). *)
Lemma calculate_bounce_rate_spec (ss : gmap string (list visit)) :
  let bounces :=
    length (List.filter (fun kv => (size (unique_pages kv.2) =? 1)%nat) (map_to_list ss)) in
  let total := size ss in
  (forall session u,
     u ∈ unique_pages session
     <-> is_static u = false /\ exists t sid, (t, u, sid) ∈ session)
  /\ bounce_counters ss = (Z.of_nat bounces, Z.of_nat total)
  /\ (calculate_bounce_rate ss ==
        if (total =? 0)%nat then 0
        else inject_Z (Z.of_nat bounces) / inject_Z (Z.of_nat total) * 100)%Q.
Proof.
  intros bounces total.
  assert (Hc : bounce_counters ss = (Z.of_nat bounces, Z.of_nat total)).
  { unfold bounce_counters. rewrite bounce_counters_fold. simpl.
    subst total. by rewrite length_map_to_list. }
  split; [apply unique_pages_spec|]. split; [exact Hc|].
  unfold calculate_bounce_rate. rewrite Hc.
  destruct total as [|n]; simpl; reflexivity.
Qed.

(** The two sessions of the specification: [/a] visited twice is a bounce,
    [/a] then [/b] is not; static files do not count. *)
Example bounce_examples :
  let t := 63832539600000000 in
  let sid := ("8.8.8.8", t) in
  size (unique_pages [(t, "/a", sid); (t + 60000000, "/a", sid)]) = 1%nat
  /\ size (unique_pages [(t, "/a", sid); (t + 60000000, "/b", sid)]) = 2%nat
  /\ size (unique_pages [(t, "/a", sid); (t + 1, "/logo.png", sid);
                          (t + 2, "/site.css", sid)]) = 1%nat
  /\ Qeq (calculate_bounce_rate
            {[ "8.8.8.8" := [(t, "/a", sid); (t + 60000000, "/a", sid)];
               "1.1.1.1" := [(t, "/a", ("1.1.1.1", t)); (t + 5, "/b", ("1.1.1.1", t))] ]})
         (50 # 1).
Proof. repeat split; vm_compute; reflexivity. Qed.

(** C4.  The bounce rate of the traffic analyzer leaves out the sessions
    that a gap has closed: [metrics['sessions'][ip]] holds one session per
    client, and the session that a gap of more than 30 minutes ends is
    overwritten by its successor.  Client 8.8.8.8, on 10 October 2023 from
    13:00:00 on.  First log: [/a], [/a] after 60 minutes, [/b] after 61
    minutes; the sessions are [/a] (a bounce) and [/a], [/b] (none), the
    rate of the specification is 1/2 x 100 = 50 and the analyzer reports
    0.  Second log: [/a], [/b] after 1 minute, [/c] after 61 minutes; the
    sessions are [/a], [/b] (none) and [/c] (a bounce), the rate is again
    50 and the analyzer reports 100, for a visitor who viewed three
    pages. *)
Theorem bounce_rate_misses_finished_sessions :
  let t := 63832539600000000 in
  let hit_at (minute : Z) (u : string) :=
    {| ip := "8.8.8.8"; timestamp := t + TimestampParser.minutes minute; url := u;
       status_code := 200 |} in
  let log1 := [hit_at 0 "/a"; hit_at 60 "/a"; hit_at 61 "/b"] in
  let log2 := [hit_at 0 "/a"; hit_at 1 "/b"; hit_at 61 "/c"] in
  all_sessions log1
    = [[(t + TimestampParser.minutes 0, "/a")];
       [(t + TimestampParser.minutes 60, "/a"); (t + TimestampParser.minutes 61, "/b")]]
  /\ map is_bounce (all_sessions log1) = [true; false]
  /\ (bounce_rate_in_words log1 == 50)%Q
  /\ (exists st, track_all TimestampParser.timestamp_raises_utc log1 = Some st
        /\ bounce_counters (sessions st) = (0, 1)
        /\ (calculate_bounce_rate (sessions st) == 0)%Q)
  /\ all_sessions log2
      = [[(t + TimestampParser.minutes 0, "/a"); (t + TimestampParser.minutes 1, "/b")];
         [(t + TimestampParser.minutes 61, "/c")]]
  /\ map is_bounce (all_sessions log2) = [false; true]
  /\ (bounce_rate_in_words log2 == 50)%Q
  /\ (exists st, track_all TimestampParser.timestamp_raises_utc log2 = Some st
        /\ bounce_counters (sessions st) = (1, 1)
        /\ (calculate_bounce_rate (sessions st) == 100)%Q).
Proof.
  cbn zeta.
  split; [vm_compute; reflexivity|]. split; [vm_compute; reflexivity|].
  split; [vm_compute; reflexivity|].
  split.
  { eexists. split; [vm_compute; reflexivity|]. split; vm_compute; reflexivity. }
  split; [vm_compute; reflexivity|]. split; [vm_compute; reflexivity|].
  split; [vm_compute; reflexivity|].
  eexists. split; [vm_compute; reflexivity|]. split; vm_compute; reflexivity.
Qed.

Lemma url_bounce_counters_fold url (items : list (string * list visit)) (acc : Z * Z) :
  let visited (item : string * list visit) :=
    existsb (String.eqb url) (map (fun v : visit => v.1.2) item.2) in
  let single (item : string * list visit) :=
    (size (list_to_set (map (fun v : visit => v.1.2) item.2) : gset string) =? 1)%nat in
  foldl (fun (acc : Z * Z) (item : string * list visit) =>
           let urls_in_session := map (fun v : visit => v.1.2) item.2 in
           if existsb (String.eqb url) urls_in_session then
             (acc.1 + 1,
              if (size (list_to_set urls_in_session : gset string) =? 1)%nat
              then acc.2 + 1 else acc.2)
           else acc) acc items
  = (acc.1 + Z.of_nat (length (List.filter visited items)),
     acc.2 + Z.of_nat (length (List.filter (fun item => visited item && single item) items))).
Proof.
  intros visited single. revert acc.
  induction items as [|item items IH]; intros [v b]; simpl.
  - f_equal; lia.
  - rewrite IH. subst visited single. simpl.
    destruct (existsb _ _); simpl; [|done].
    destruct (size _ =? 1)%nat; simpl; f_equal; lia.
Qed.

(** The per-URL bounce rate of the content analyzer: the sessions that
    contain the URL are the views, those of them with one distinct URL the
    bounces. *)
Lemma url_bounce_counters_spec url (ss : gmap string (list visit)) :
  let visited (item : string * list visit) :=
    existsb (String.eqb url) (map (fun v : visit => v.1.2) item.2) in
  let single (item : string * list visit) :=
    (size (list_to_set (map (fun v : visit => v.1.2) item.2) : gset string) =? 1)%nat in
  Content.url_bounce_counters url ss
  = (Z.of_nat (length (List.filter visited (map_to_list ss))),
     Z.of_nat (length (List.filter (fun item => visited item && single item)
                                   (map_to_list ss)))).
Proof.
  intros visited single. unfold Content.url_bounce_counters.
  by rewrite (url_bounce_counters_fold url (map_to_list ss) (0, 0)).
Qed.

End Bounce.

(** ** C7: static assets in the traffic tracker *)

Section StaticAssets.
Import Traffic.

Variable timestamp_raises : Z -> bool.

Abbreviation track := (Traffic.track timestamp_raises).
Abbreviation run := (Traffic.run timestamp_raises).

Lemma track_static_entry_pages e st st' :
  is_static (url e) = true -> track e st = Some st' -> entry_pages st' = entry_pages st.
Proof.
  unfold Traffic.track. intros Hst H. rewrite Hst in H. cbn [negb andb] in H.
  destruct (ip_sessions st !! ip e) as [last_time|].
  - destruct (timestamp e - last_time >? session_timeout).
    + destruct (timestamp_raises (timestamp e)); [discriminate|]. by injection H as <-.
    + destruct (sessions_of st (ip e)); [discriminate|]. by injection H as <-.
  - destruct (timestamp_raises (timestamp e)); [discriminate|]. by injection H as <-.
Qed.

(** The pages counted for the bounce test when a hit is appended to a
    session. *)
Lemma unique_pages_snoc (session : list visit) (v : visit) :
  unique_pages (session ++ [v])
  = if is_static v.1.2 then unique_pages session else unique_pages session ∪ {[ v.1.2 ]}.
Proof. unfold unique_pages. by rewrite foldl_app. Qed.

(** C7 (as the tracker has it).  A hit on a static asset, after any
    prefix of the log on whose datetimes [timestamp()] returns.  It is
    never counted as an entry page, and its URL is not added to the pages
    that the bounce test counts.  But it takes part in session tracking
    like any other hit: the client's last-seen time, from which the next
    gap is measured, becomes its timestamp; when its gap is at most 30
    minutes it is appended to the open session, whose counted pages stay
    as they were; when its gap exceeds 30 minutes, or the client is new,
    it replaces the open session by a new one that it starts, which has no
    counted page and so is not a bounce, whatever the replaced session
    was. *)
Theorem static_hit_in_traffic_tracker (pre : list hit) (e : hit) :
  Forall (fun e' => timestamp_raises (timestamp e') = false) (pre ++ [e]) ->
  is_static (url e) = true ->
  exists st0 st1,
    run pre init = Some st0
    /\ run (pre ++ [e]) init = Some st1
    /\ entry_pages st1 = entry_pages st0
    /\ ip_sessions st1 !! ip e = Some (timestamp e)
    /\ match ip_sessions st0 !! ip e with
       | Some last_time =>
           if timestamp e - last_time >? session_timeout then
             sessions st1 !! ip e = Some [(timestamp e, url e, (ip e, timestamp e))]
             /\ unique_pages (sessions_of st1 (ip e)) = ∅
           else
             (exists sid,
                sessions st1 !! ip e
                = Some (sessions_of st0 (ip e) ++ [(timestamp e, url e, sid)]))
             /\ unique_pages (sessions_of st1 (ip e))
                = unique_pages (sessions_of st0 (ip e))
       | None =>
           sessions st1 !! ip e = Some [(timestamp e, url e, (ip e, timestamp e))]
           /\ unique_pages (sessions_of st1 (ip e)) = ∅
       end.
Proof.
  intros Hok Hstatic.
  apply Forall_app in Hok as [Hpre He]. apply Forall_inv in He.
  destruct (run_well_formed timestamp_raises pre init Hpre init_well_formed)
    as (st0 & Hst0 & Hwf0).
  destruct (track_well_formed timestamp_raises e st0 He Hwf0) as (st1 & Hst1 & Hwf1).
  exists st0, st1. split; [done|].
  split; [by rewrite run_app, Hst0; simpl; rewrite Hst1|].
  split; [by eapply track_static_entry_pages|].
  split; [by eapply track_last_seen|].
  assert (Hfresh : unique_pages [(timestamp e, url e, (ip e, timestamp e))] = ∅).
  { change [(timestamp e, url e, (ip e, timestamp e))]
      with ([] ++ [(timestamp e, url e, (ip e, timestamp e))]).
    rewrite unique_pages_snoc. cbn [fst snd]. by rewrite Hstatic. }
  destruct (ip_sessions st0 !! ip e) as [last_time|] eqn:Hseen.
  - destruct (Hwf0 _ _ Hseen) as (vs & u & sid & Hvs & Hlast & Hall).
    destruct (track_seen timestamp_raises e st0 _ _ _ _ (fun _ => He) Hseen Hvs Hlast Hall)
      as (st1' & Hst1' & _ & Hss & _).
    rewrite Hst1 in Hst1'. injection Hst1' as <-.
    unfold sessions_of. rewrite Hss, !lookup_insert_eq, ?Hvs.
    cbn [default from_option]. unfold id.
    destruct (timestamp e - last_time >? session_timeout).
    + by split.
    + split; [by exists sid|].
      rewrite unique_pages_snoc. cbn [fst snd]. by rewrite Hstatic.
  - destruct (track_unseen timestamp_raises e st0 He Hseen) as (st1' & Hst1' & _ & Hss & _).
    rewrite Hst1 in Hst1'. injection Hst1' as <-.
    unfold sessions_of. rewrite Hss, lookup_insert_eq. by split.
Qed.

End StaticAssets.

Section StaticAssetsExamples.
Import Traffic.

Lemma static_hit_in_traffic_tracker_witness :
  let t := 63832539600000000 in
  let a := {| ip := "8.8.8.8"; timestamp := t; url := "/a"; status_code := 200 |} in
  let s := {| ip := "8.8.8.8"; timestamp := t + TimestampParser.minutes 20;
              url := "/site.css"; status_code := 200 |} in
  exists st0 st1,
    run TimestampParser.timestamp_raises_utc [a] init = Some st0
    /\ run TimestampParser.timestamp_raises_utc ([a] ++ [s]) init = Some st1
    /\ entry_pages st1 = entry_pages st0
    /\ ip_sessions st1 !! ip s = Some (timestamp s)
    /\ match ip_sessions st0 !! ip s with
       | Some last_time =>
           if timestamp s - last_time >? session_timeout then
             sessions st1 !! ip s = Some [(timestamp s, url s, (ip s, timestamp s))]
             /\ unique_pages (sessions_of st1 (ip s)) = ∅
           else
             (exists sid,
                sessions st1 !! ip s
                = Some (sessions_of st0 (ip s) ++ [(timestamp s, url s, sid)]))
             /\ unique_pages (sessions_of st1 (ip s))
                = unique_pages (sessions_of st0 (ip s))
       | None =>
           sessions st1 !! ip s = Some [(timestamp s, url s, (ip s, timestamp s))]
           /\ unique_pages (sessions_of st1 (ip s)) = ∅
       end.
Proof.
  intros t a s.
  apply (static_hit_in_traffic_tracker TimestampParser.timestamp_raises_utc [a] s).
  - by repeat constructor.
  - vm_compute. reflexivity.
Defined.

(** C7 fails as stated.  Client 8.8.8.8, on 10 October 2023 from 13:00:00
    on.  With a hit on [/a], on [/site.css] after 20 minutes and on [/b]
    after 45 minutes, [/b] continues the session of [/a] (45 minutes after
    it) because the static hit moved the last-seen time; without the
    static hit [/b] starts a session and is counted as an entry page.  With
    a hit on [/a] and on [/site.css] after 40 minutes, the static hit
    closes the session of [/a]: the open session consists of the static
    hit alone, the bounce rate is 0 where it is 100 without the static
    hit, and [/site.css] is counted as an exit page. *)
Lemma static_hit_extends_and_closes_sessions :
  let client := "8.8.8.8" in
  let t := 63832539600000000 in
  let t20 := t + TimestampParser.minutes 20 in
  let t40 := t + TimestampParser.minutes 40 in
  let t45 := t + TimestampParser.minutes 45 in
  let a := {| ip := client; timestamp := t; url := "/a"; status_code := 200 |} in
  let s20 := {| ip := client; timestamp := t20; url := "/site.css"; status_code := 200 |} in
  let s40 := {| ip := client; timestamp := t40; url := "/site.css"; status_code := 200 |} in
  let b := {| ip := client; timestamp := t45; url := "/b"; status_code := 200 |} in
  let run := run TimestampParser.timestamp_raises_utc in
  let track_all := track_all TimestampParser.timestamp_raises_utc in
  is_static "/site.css" = true
  /\ (paths <$> run [a; s20; b] init)
     = Some [(t, client, "/a", (client, t)); (t20, client, "/site.css", (client, t));
             (t45, client, "/b", (client, t))]
  /\ (paths <$> run [a; b] init)
     = Some [(t, client, "/a", (client, t)); (t45, client, "/b", (client, t45))]
  /\ (entry_pages <$> run [a; s20; b] init) = Some {[ "/a" := 1 ]}
  /\ (entry_pages <$> run [a; b] init) = Some {[ "/a" := 1; "/b" := 1 ]}
  /\ ((fun st => sessions st !! client) <$> run [a; s40] init)
     = Some (Some [(t40, "/site.css", (client, t40))])
  /\ (exists st, track_all [a] = Some st
        /\ (calculate_bounce_rate (sessions st) == 100)%Q)
  /\ (exists st, track_all [a; s40] = Some st
        /\ (calculate_bounce_rate (sessions st) == 0)%Q
        /\ exit_pages st !! "/site.css" = Some 1).
Proof.
  cbn zeta. repeat split; try (vm_compute; reflexivity).
  - eexists. split; [vm_compute; reflexivity|]. vm_compute. reflexivity.
  - eexists. split; [vm_compute; reflexivity|]. split; vm_compute; reflexivity.
Qed.

End StaticAssetsExamples.

(** ** C1: what [parse_time] does with a timestamp it cannot parse *)

Section TimestampFacts.
Import TimestampParser.

Lemma string_app_nil (b : string) : ("" ++ b = b)%string.
Proof. reflexivity. Qed.

Lemma string_app_cons x (a b : string) : (String x a ++ b = String x (a ++ b))%string.
Proof. reflexivity. Qed.

Lemma string_app_assoc (a b c : string) : ((a ++ b) ++ c = a ++ (b ++ c))%string.
Proof.
  induction a as [|x a IH]; [done|].
  rewrite !string_app_cons. by f_equal.
Qed.

Ltac string_norm :=
  repeat (rewrite string_app_assoc || rewrite string_app_cons || rewrite string_app_nil).

Lemma has_char_app c (a b : string) :
  Py.has_char c (a ++ b)%string = Py.has_char c a || Py.has_char c b.
Proof.
  induction a as [|x a IH]; [done|].
  rewrite string_app_cons. cbn [Py.has_char]. by rewrite IH, orb_assoc.
Qed.

Lemma split_max_0 sep s : Py.split_max sep 0 s = [s].
Proof. by destruct s. Qed.

Lemma split_max_no_separator sep n s :
  Py.has_char sep s = false -> Py.split_max sep n s = [s].
Proof.
  revert n. induction s as [|c r IH]; intros n H; destruct n as [|k]; try reflexivity.
  simpl in *. apply orb_false_iff in H as [Hc Hr]. rewrite Hc.
  by rewrite (IH (S k) Hr).
Qed.

Lemma split_no_separator sep s : Py.has_char sep s = false -> Py.split sep s = [s].
Proof.
  induction s as [|c r IH]; intros H; [done|].
  simpl in *. apply orb_false_iff in H as [Hc Hr]. by rewrite Hc, (IH Hr).
Qed.

(** Splitting at the first separator. *)
Lemma split_max_first sep k (a r : string) :
  Py.has_char sep a = false ->
  Py.split_max sep (S k) (a ++ String sep r) = a :: Py.split_max sep k r.
Proof.
  induction a as [|c a IH]; intros H.
  - rewrite string_app_nil. simpl. by rewrite Ascii.eqb_refl.
  - simpl in H. apply orb_false_iff in H as [Hc Ha].
    rewrite string_app_cons.
    change (Py.split_max sep (S k) (String c (a ++ String sep r)))
      with (if Ascii.eqb c sep then EmptyString :: Py.split_max sep k (a ++ String sep r)
            else match Py.split_max sep (S k) (a ++ String sep r) with
                 | first :: rest => String c first :: rest
                 | [] => [String c EmptyString]
                 end).
    by rewrite Hc, (IH Ha).
Qed.

Lemma split_first sep (a r : string) :
  Py.has_char sep a = false ->
  Py.split sep (a ++ String sep r) = a :: Py.split sep r.
Proof.
  induction a as [|c a IH]; intros H.
  - rewrite string_app_nil. simpl. by rewrite Ascii.eqb_refl.
  - simpl in H. apply orb_false_iff in H as [Hc Ha].
    rewrite string_app_cons. simpl. by rewrite Hc, (IH Ha).
Qed.

(** A split into more than one part cuts at the first separator. *)
Lemma split_max_inv sep k s a l :
  Py.split_max sep (S k) s = a :: l -> l <> [] ->
  exists r, s = (a ++ String sep r)%string /\ Py.has_char sep a = false
            /\ l = Py.split_max sep k r.
Proof.
  revert a l. induction s as [|c s IH]; intros a l H Hl.
  - simpl in H. injection H as <- <-. done.
  - change (Py.split_max sep (S k) (String c s))
      with (if Ascii.eqb c sep then EmptyString :: Py.split_max sep k s
            else match Py.split_max sep (S k) s with
                 | first :: rest => String c first :: rest
                 | [] => [String c EmptyString]
                 end) in H.
    destruct (Ascii.eqb_spec c sep) as [->|Hne].
    + injection H as <- <-. by exists s.
    + destruct (Py.split_max sep (S k) s) as [|first rest] eqn:Hs.
      * injection H as <- <-. done.
      * injection H as <- <-.
        destruct (IH first rest eq_refl Hl) as (r & -> & Hf & Hrest).
        exists r. split; [done|]. split; [|done].
        simpl. rewrite Hf. by apply Ascii.eqb_neq in Hne as ->.
Qed.

Lemma split_inv sep s a l :
  Py.split sep s = a :: l -> l <> [] ->
  exists r, s = (a ++ String sep r)%string /\ Py.has_char sep a = false
            /\ l = Py.split sep r.
Proof.
  revert a l. induction s as [|c s IH]; intros a l H Hl.
  - simpl in H. injection H as <- <-. done.
  - simpl in H. destruct (Ascii.eqb_spec c sep) as [->|Hne].
    + injection H as <- <-. by exists s.
    + destruct (Py.split sep s) as [|first rest] eqn:Hs.
      * injection H as <- <-. done.
      * injection H as <- <-.
        destruct (IH first rest eq_refl Hl) as (r & -> & Hf & Hrest).
        exists r. split; [done|]. split; [|done].
        simpl. rewrite Hf. by apply Ascii.eqb_neq in Hne as ->.
Qed.

Lemma split_inv_single sep s a :
  Py.split sep s = [a] -> s = a /\ Py.has_char sep s = false.
Proof.
  revert a. induction s as [|c s IH]; intros a H.
  - simpl in H. by injection H as <-.
  - simpl in H. destruct (Ascii.eqb_spec c sep) as [->|Hne].
    + injection H as _ H. destruct s; simpl in H; [done|].
      destruct (Ascii.eqb _ _); [done|]. by destruct (Py.split sep s).
    + destruct (Py.split sep s) as [|first rest] eqn:Hs.
      * exfalso. destruct s; simpl in Hs; [done|].
        destruct (Ascii.eqb _ _); [done|]. by destruct (Py.split sep s).
      * injection H as <- ->. destruct (IH first eq_refl) as [-> Hf].
        split; [done|]. simpl. rewrite Hf. by apply Ascii.eqb_neq in Hne as ->.
Qed.

(** A string without a colon is unparseable: the first unpacking fails. *)
Lemma parse_time_try_no_colon s :
  Py.has_char ":" s = false -> parse_time_try s = None.
Proof.
  intros H. unfold parse_time_try.
  by rewrite (split_max_no_separator _ _ _ H).
Qed.

(** A parseable timestamp is read without consulting the clock. *)
Lemma parse_time_parseable now s r :
  parse_time_try s = Some r -> parse_time now s = r.
Proof. unfold parse_time. by intros ->. Qed.

(** The body of [parse_time] succeeds exactly on the timestamps of the
    format. *)
Lemma parse_time_try_spec s : parse_time_try s <> None <-> parseable s.
Proof.
  split.
  - intros Hok. unfold parse_time_try in Hok.
    destruct (Py.split_max ":" 1 s) as [|date_part [|time_part [|? ?]]] eqn:H1;
      try contradiction.
    destruct (split_max_inv _ _ _ _ _ H1 ltac:(done)) as (r1 & -> & Hdate & Hr1).
    rewrite split_max_0 in Hr1. injection Hr1 as ->.
    destruct (Py.split "/" date_part) as [|day [|month [|year [|? ?]]]] eqn:H2;
      try contradiction.
    destruct (split_inv _ _ _ _ H2 ltac:(done)) as (r2 & -> & Hday & Hr2).
    symmetry in Hr2.
    destruct (split_inv _ _ _ _ Hr2 ltac:(done)) as (r3 & -> & Hmonth & Hr3).
    symmetry in Hr3. apply split_inv_single in Hr3 as [-> Hyear].
    rewrite has_char_app in Hdate. cbn [Py.has_char] in Hdate.
    rewrite has_char_app in Hdate. cbn [Py.has_char] in Hdate.
    rewrite (proj2 (Ascii.eqb_neq "/" ":")) in Hdate by done. cbn [orb] in Hdate.
    apply orb_false_iff in Hdate as [Hday' Hdate].
    apply orb_false_iff in Hdate as [Hmonth' Hyear'].
    destruct (Py.split_max ":" 2 r1) as [|hour [|minute [|rest [|? ?]]]] eqn:H3;
      try contradiction.
    destruct (split_max_inv _ _ _ _ _ H3 ltac:(done)) as (r4 & -> & Hhour & Hr4).
    symmetry in Hr4.
    destruct (split_max_inv _ _ _ _ _ Hr4 ltac:(done)) as (r5 & -> & Hminute & Hr5).
    rewrite split_max_0 in Hr5. injection Hr5 as ->.
    destruct (Py.split_ws r5) as [|second more] eqn:H4; [contradiction|].
    destruct (Py.int year) as [y|] eqn:Hy; [|contradiction].
    destruct (Py.int day) as [d|] eqn:Hd; [|contradiction].
    destruct (Py.int hour) as [h|] eqn:Hh; [|contradiction].
    destruct (Py.int minute) as [mi|] eqn:Hmi; [|contradiction].
    destruct (Py.int second) as [sec|] eqn:Hsec; [|contradiction].
    cbn [mbind option_bind] in Hok.
    destruct (datetime_new y (dict_get month_names month 1) d h mi sec) as [dt|] eqn:Hdt;
      [|contradiction].
    exists day, month, year, hour, minute, r5, second, more, y, d, h, mi, sec, dt.
    split.
    { by string_norm. }
    repeat (split; [done|]). done.
  - intros (day & month & year & hour & minute & rest & second & more
            & y & d & h & mi & sec & dt & -> & Hd1 & Hd2 & Hm1 & Hm2 & Hy1 & Hy2
            & Hh & Hmi & Hws & Iy & Id & Ih & Imi & Isec & Hdt).
    unfold parse_time_try.
    replace (day ++ "/" ++ month ++ "/" ++ year ++ ":" ++ hour ++ ":" ++ minute ++ ":" ++ rest)%string
      with ((day ++ "/" ++ month ++ "/" ++ year)
              ++ String ":" (hour ++ String ":" (minute ++ String ":" rest)))%string
      by (by string_norm).
    rewrite split_max_first
      by (string_norm; rewrite !has_char_app; cbn [Py.has_char];
          rewrite !has_char_app; cbn [Py.has_char];
          by rewrite Hd2, Hm2, Hy2).
    rewrite split_max_0.
    string_norm.
    rewrite (split_first _ _ _ Hd1), (split_first _ _ _ Hm1), (split_no_separator _ _ Hy1).
    rewrite (split_max_first _ _ _ _ Hh), (split_max_first _ _ _ _ Hmi), split_max_0.
    rewrite Hws, Iy, Id, Ih, Imi, Isec. cbn [mbind option_bind]. rewrite Hdt. done.
Qed.

(** C1 (as the parser has it).  For every timestamp string that cannot be
    parsed, that is, one that is not of the format
    [DD/Mon/YYYY:HH:MM:SS zone] with integer fields that form a valid date
    and time, [parse_time] returns the current wall-clock time as the
    record's timestamp, with hour 0 and weekday 0: a triple of the same
    shape as a successful result. *)
Theorem parse_time_unparseable_returns_now (now : Z) (time_str : string) :
  ~ parseable time_str ->
  parse_time now time_str = (now, 0, 0).
Proof.
  intros Hnp. unfold parse_time.
  destruct (parse_time_try time_str) as [r|] eqn:Hr; [|done].
  exfalso. apply Hnp, parse_time_try_spec. by rewrite Hr.
Qed.

Lemma parse_time_unparseable_returns_now_witness :
  parse_time t_2023_10_10_135536 "31/Feb/2023:10:00:00 +0000"
  = (t_2023_10_10_135536, 0, 0).
Proof.
  apply (parse_time_unparseable_returns_now t_2023_10_10_135536 "31/Feb/2023:10:00:00 +0000").
  intros H. apply parse_time_try_spec in H. vm_compute in H. by apply H.
Defined.

(** C1 fails as stated.  The string "not a timestamp" cannot be parsed;
    [parse_time] returns the clock reading for it, whatever the reading
    is, and at the clock reading 2023-10-09T00:15:30 the result is the one
    of the well-formed timestamp "09/Oct/2023:00:15:30 +0200": the caller
    gets no signal of the failure. *)
Lemma parse_time_substitutes_now_silently :
  ~ parseable "not a timestamp"
  /\ (forall now, parse_time now "not a timestamp" = (now, 0, 0))
  /\ parse_time_try "09/Oct/2023:00:15:30 +0200" = Some (t_2023_10_09_001530, 0, 0)
  /\ parse_time t_2023_10_09_001530 "not a timestamp"
     = parse_time t_2023_10_09_001530 "09/Oct/2023:00:15:30 +0200".
Proof.
  split.
  { intros H. apply parse_time_try_spec in H. vm_compute in H. by apply H. }
  repeat split; vm_compute; reflexivity.
Qed.

Example parse_time_failures :
  parse_time_try "" = None
  /\ parse_time_try "-" = None
  /\ parse_time_try "10/Oct/2023" = None
  /\ parse_time_try "10/Oct/2023:13:55" = None
  /\ parse_time_try "10/Oct/2023:13:55: +0200" = None
  /\ parse_time_try "10-Oct-2023:13:55:36 +0200" = None
  /\ parse_time_try "29/Feb/2023:13:55:36 +0200" = None
  /\ parse_time_try "10/Oct/2023:24:00:00 +0200" = None
  /\ parse_time_try "10/Oct/2023:13:55:3x +0200" = None.
Proof. repeat split; vm_compute; reflexivity. Qed.

End TimestampFacts.

(** ** The regular-expression matcher is correct *)

Section RegexFacts.
Import Regex.

Lemma Matches_Empty w : Matches Empty w -> False.
Proof. inversion 1. Qed.

Lemma Matches_Eps w : Matches Eps w <-> w = [].
Proof. split; [by inversion 1|intros ->; constructor]. Qed.

Lemma Matches_Seq r1 r2 w :
  Matches (Seq r1 r2) w <-> exists w1 w2, w = w1 ++ w2 /\ Matches r1 w1 /\ Matches r2 w2.
Proof.
  split.
  - inversion 1; subst. eauto.
  - intros (w1 & w2 & -> & H1 & H2). by constructor.
Qed.

Lemma Matches_Alt r1 r2 w : Matches (Alt r1 r2) w <-> Matches r1 w \/ Matches r2 w.
Proof.
  split.
  - inversion 1; subst; auto.
  - intros [H|H]; [by apply MAltL|by apply MAltR].
Qed.

Lemma seq'_spec r1 r2 w : Matches (seq' r1 r2) w <-> Matches (Seq r1 r2) w.
Proof.
  destruct r1, r2; simpl; try reflexivity;
    try (split;
         [ intros H; by apply Matches_Empty in H
         | intros H; apply Matches_Seq in H as (w1 & w2 & _ & H1 & H2);
           first [by apply Matches_Empty in H1 | by apply Matches_Empty in H2] ]);
    (split;
     [ intros H; apply (MSeq Eps _ [] w MEps H)
     | intros H; apply Matches_Seq in H as (w1 & w2 & -> & H1 & H2);
       apply Matches_Eps in H1 as ->; exact H2 ]).
Qed.

Lemma alt'_spec r1 r2 w : Matches (alt' r1 r2) w <-> Matches (Alt r1 r2) w.
Proof.
  rewrite Matches_Alt.
  destruct r1, r2; simpl; rewrite ?Matches_Alt;
    split; intros H; try tauto;
    try (destruct H as [H|H]; try tauto; by apply Matches_Empty in H).
Qed.

Lemma nullable_spec r : nullable r = true <-> Matches r [].
Proof.
  induction r as [| |p|r1 IH1 r2 IH2|r1 IH1 r2 IH2|r IH]; simpl.
  - split; [discriminate|intros H; by apply Matches_Empty in H].
  - split; [constructor|done].
  - split; [discriminate|inversion 1].
  - rewrite andb_true_iff, IH1, IH2, Matches_Seq. split.
    + intros [H1 H2]. by exists [], [].
    + intros (w1 & w2 & Hw & H1 & H2). symmetry in Hw.
      apply app_eq_nil in Hw as [-> ->]. done.
  - rewrite orb_true_iff, IH1, IH2, Matches_Alt. done.
  - split; [constructor|done].
Qed.

(** A non-empty word of a star starts with a non-empty word of the body. *)
Lemma Matches_Star_cons r c w :
  Matches (Star r) (c :: w) ->
  exists w1 w2, w = w1 ++ w2 /\ Matches r (c :: w1) /\ Matches (Star r) w2.
Proof.
  intros H. remember (Star r) as sr eqn:Hsr. remember (c :: w) as cw eqn:Hcw.
  revert c w Hcw.
  induction H as [ | p0 c0 Hp | ra rb wa wb Ha IHa Hb IHb | ra rb wa Ha IHa
                  | ra rb wa Ha IHa | ra | r' w1 w2 H1 IH1 H2 IH2 ];
    intros c w Hcw; try discriminate.
  injection Hsr as ->.
  destruct w1 as [|c1 w1].
  - simpl in Hcw. by apply IH2.
  - simpl in Hcw. injection Hcw as -> <-. by exists w1, w2.
Qed.

Lemma deriv_spec c r w : Matches (deriv c r) w <-> Matches r (c :: w).
Proof.
  revert w. induction r as [| |p|r1 IH1 r2 IH2|r1 IH1 r2 IH2|r IH]; intros w; simpl.
  - split; inversion 1.
  - split; inversion 1.
  - destruct (p c) eqn:Hp.
    + rewrite Matches_Eps. split.
      * intros ->. by constructor.
      * inversion 1; subst. done.
    + split; [inversion 1|]. inversion 1; subst. congruence.
  - rewrite alt'_spec, Matches_Alt, seq'_spec, !Matches_Seq. split.
    + intros [(w1 & w2 & -> & H1 & H2)|H].
      * exists (c :: w1), w2. split; [done|]. split; [by apply IH1|done].
      * destruct (nullable r1) eqn:Hn; [|by apply Matches_Empty in H].
        exists [], (c :: w). split; [done|]. split; [by apply nullable_spec|by apply IH2].
    + intros (w1 & w2 & Hw & H1 & H2). destruct w1 as [|c1 w1].
      * simpl in Hw. subst w2. right.
        apply nullable_spec in H1. rewrite H1. by apply IH2.
      * simpl in Hw. injection Hw as <- ->. left.
        exists w1, w2. split; [done|]. split; [by apply IH1|done].
  - rewrite alt'_spec, !Matches_Alt, IH1, IH2. done.
  - rewrite seq'_spec, Matches_Seq. split.
    + intros (w1 & w2 & -> & H1 & H2).
      apply (MStarApp r (c :: w1) w2); [by apply IH|done].
    + intros H. apply Matches_Star_cons in H as (w1 & w2 & -> & H1 & H2).
      exists w1, w2. split; [done|]. split; [by apply IH|done].
Qed.

Lemma match_prefix_spec r w :
  match_prefix r w = true <-> exists w1 w2, w = w1 ++ w2 /\ Matches r w1.
Proof.
  revert r. induction w as [|c w IH]; intros r; simpl.
  - rewrite orb_false_r, nullable_spec. split.
    + intros H. by exists [], [].
    + intros (w1 & w2 & Hw & H). symmetry in Hw. by apply app_eq_nil in Hw as [-> ->].
  - rewrite orb_true_iff, nullable_spec, IH. split.
    + intros [H|(w1 & w2 & -> & H)].
      * by exists [], (c :: w).
      * exists (c :: w1), w2. split; [done|]. by apply deriv_spec.
    + intros (w1 & w2 & Hw & H). destruct w1 as [|c1 w1].
      * by left.
      * simpl in Hw. injection Hw as <- ->. right.
        exists w1, w2. split; [done|]. by apply deriv_spec.
Qed.

(** [search] decides whether some part of the word matches. *)
Lemma search_spec r w : search r w = true <-> Found r w.
Proof.
  unfold Found. induction w as [|c w IH]; cbn [search].
  - rewrite orb_false_r, match_prefix_spec. split.
    + intros (w1 & w2 & Hw & H). by exists [], w1, w2.
    + intros (pre & m & post & Hw & H). symmetry in Hw.
      apply app_eq_nil in Hw as [-> Hw]. apply app_eq_nil in Hw as [-> ->].
      by exists [], [].
  - rewrite orb_true_iff, match_prefix_spec, IH. split.
    + intros [(w1 & w2 & Hw & H)|(pre & m & post & -> & H)].
      * by exists [], w1, w2.
      * by exists (c :: pre), m, post.
    + intros (pre & m & post & Hw & H). destruct pre as [|c1 pre].
      * left. by exists m, post.
      * simpl in Hw. injection Hw as <- ->. right. by exists pre, m, post.
Qed.

End RegexFacts.


(** ** C8: the threat matcher *)

Section ThreatMatcherFacts.
Import ThreatMatcher.

(** [re_search] succeeds exactly when the pattern compiles and some part of
    the target matches it. *)
Lemma re_search_spec pattern target :
  Regex.re_search pattern target = true
  <-> exists r, Regex.compile pattern = Some r
                /\ Regex.Found r (list_ascii_of_string target).
Proof.
  unfold Regex.re_search. destruct (Regex.compile pattern) as [r|].
  - rewrite search_spec. split; [eauto|]. by intros (r' & [= <-] & H).
  - split; [discriminate|]. by intros (r' & [=] & _).
Qed.

Lemma scan_targets_spec threat_type pattern ts detected :
  scan_targets threat_type pattern ts detected
  = if existsb (Regex.re_search pattern) ts then detected ++ [threat_type] else detected.
Proof.
  induction ts as [|t ts IH]; simpl; [done|].
  destruct (Regex.re_search pattern t); simpl; [done|apply IH].
Qed.

Lemma existsb_eqb_snoc threat_type detected :
  existsb (String.eqb threat_type) (detected ++ [threat_type]) = true.
Proof. rewrite existsb_app. simpl. by rewrite String.eqb_refl, orb_true_r. Qed.

Lemma scan_patterns_spec threat_type patterns ts detected :
  existsb (String.eqb threat_type) detected = false ->
  scan_patterns threat_type patterns ts detected
  = if category_matches patterns ts then detected ++ [threat_type] else detected.
Proof.
  intros Hfresh. induction patterns as [|p ps IH]; simpl; [done|].
  rewrite scan_targets_spec.
  destruct (existsb (Regex.re_search p) ts); simpl.
  - by rewrite existsb_eqb_snoc.
  - by rewrite Hfresh.
Qed.

Lemma detect_fold (table : list (string * list string)) ts detected :
  NoDup (map fst table) ->
  (forall item, item ∈ table -> existsb (String.eqb item.1) detected = false) ->
  foldl (fun detected_threats (item : string * list string) =>
           scan_patterns item.1 item.2 ts detected_threats) detected table
  = detected ++ map fst (List.filter (fun item => category_matches item.2 ts) table).
Proof.
  revert detected. induction table as [|[cat ps] table IH]; intros detected Hnd Hfresh; simpl.
  - by rewrite app_nil_r.
  - inversion Hnd as [|? ? Hnotin Hnd']; subst.
    rewrite scan_patterns_spec by (apply (Hfresh (cat, ps)); by left).
    assert (Hrest : forall item, item ∈ table -> existsb (String.eqb item.1) detected = false)
      by (intros item Hin; apply Hfresh; by right).
    destruct (category_matches ps ts); simpl.
    + rewrite IH; [by rewrite <- app_assoc|done|].
      intros item Hin. rewrite existsb_app, (Hrest item Hin). simpl.
      rewrite orb_false_r. apply String.eqb_neq. intros Heq.
      apply Hnotin, list_elem_of_In. rewrite <- Heq. apply in_map. by apply list_elem_of_In.
    + by apply IH.
Qed.

(** The result lists, in the order of the table, the categories that have
    a matching pattern. *)
Lemma detect_threats_in_spec table request user_agent referrer :
  NoDup (map fst table) ->
  detect_threats_in table request user_agent referrer
  = map fst (List.filter
               (fun item => category_matches item.2 (targets request user_agent referrer))
               table).
Proof.
  intros Hnd. unfold detect_threats_in. by rewrite detect_fold.
Qed.

Lemma threat_categories_distinct : NoDup (map fst THREAT_PATTERNS).
Proof. apply (bool_decide_unpack _). by vm_compute. Qed.

Lemma NoDup_map_filter {A B} (f : A -> B) (p : A -> bool) (l : list A) :
  NoDup (map f l) -> NoDup (map f (List.filter p l)).
Proof.
  induction l as [|a l IH]; simpl; [done|].
  inversion 1 as [|? ? Hnotin Hnd]; subst.
  destruct (p a); simpl; [|by apply IH].
  constructor; [|by apply IH].
  intros Hin%list_elem_of_In. apply Hnotin, list_elem_of_In.
  apply in_map_iff in Hin as (x & <- & Hx).
  apply filter_In in Hx as [Hx _]. by apply in_map.
Qed.

Lemma category_matches_spec patterns ts :
  category_matches patterns ts = true
  <-> exists pattern target,
        pattern ∈ patterns /\ target ∈ ts /\ Regex.re_search pattern target = true.
Proof.
  unfold category_matches. rewrite existsb_exists. split.
  - intros (p & Hp & H). apply existsb_exists in H as (t & Ht & H).
    exists p, t. by rewrite !list_elem_of_In.
  - intros (p & t & Hp & Ht & H). exists p. rewrite <- list_elem_of_In. split; [done|].
    apply existsb_exists. exists t. by rewrite <- list_elem_of_In.
Qed.

(** C8.  [detect_threats] returns each category at most once; a category
    is returned exactly when one of its patterns is found in one of the
    three strings searched: the request line, the user agent, and the
    referrer (a referrer "-" counting as the empty string); the result
    follows the order of the table, each category being decided by its
    first matching pattern and target.  The request string
    "GET /x?id=1 UNION SELECT * FROM users" is flagged as "SQL Injection",
    and "GET /about" is flagged as nothing; a scanner's name in the user
    agent and an injection in the referrer are found too. *)
Theorem detect_threats_categories (request user_agent referrer : string) :
  let found := detect_threats request user_agent referrer in
  let ts := [request; user_agent; if String.eqb referrer "-" then "" else referrer] in
  NoDup found
  /\ (forall category,
        category ∈ found
        <-> exists patterns pattern target r,
              (category, patterns) ∈ THREAT_PATTERNS
              /\ pattern ∈ patterns /\ target ∈ ts
              /\ Regex.compile pattern = Some r
              /\ Regex.Found r (list_ascii_of_string target))
  /\ found = map fst (List.filter (fun item => category_matches item.2 ts) THREAT_PATTERNS)
  /\ "SQL Injection" ∈ detect_threats "GET /x?id=1 UNION SELECT * FROM users"
                                       user_agent referrer
  /\ detect_threats "GET /x?id=1 UNION SELECT * FROM users" "" "-" = ["SQL Injection"]
  /\ detect_threats "GET /about" "" "-" = []
  /\ detect_threats "GET /about" "sqlmap/1.7" "-" = ["Suspicious User Agent"]
  /\ detect_threats "GET /about" "" "http://example.com/?q=1 union select 2"
     = ["SQL Injection"].
Proof.
  intros found ts.
  assert (Hfound : forall rq ua rf,
            detect_threats rq ua rf
            = map fst (List.filter (fun item => category_matches item.2 (targets rq ua rf))
                                   THREAT_PATTERNS))
    by (intros; apply detect_threats_in_spec, threat_categories_distinct).
  assert (Hiff : forall rq ua rf category,
            category ∈ detect_threats rq ua rf
            <-> exists patterns pattern target r,
                  (category, patterns) ∈ THREAT_PATTERNS
                  /\ pattern ∈ patterns /\ target ∈ targets rq ua rf
                  /\ Regex.compile pattern = Some r
                  /\ Regex.Found r (list_ascii_of_string target)).
  { intros rq ua rf category. rewrite Hfound, list_elem_of_In, in_map_iff. split.
    - intros ([cat ps] & Hcat & Hin). simpl in Hcat. subst cat.
      apply filter_In in Hin as [Hin Hm]. simpl in Hm.
      apply category_matches_spec in Hm as (p & t & Hp & Ht & Hs).
      apply re_search_spec in Hs as (r & Hc & Hf).
      exists ps, p, t, r. by rewrite list_elem_of_In.
    - intros (ps & p & t & r & Hin & Hp & Ht & Hc & Hf).
      exists (category, ps). split; [done|]. apply filter_In.
      split; [by apply list_elem_of_In|]. simpl.
      apply category_matches_spec. exists p, t. split; [done|]. split; [done|].
      apply re_search_spec. eauto. }
  split; [subst found; rewrite Hfound; apply NoDup_map_filter, threat_categories_distinct|].
  split; [apply Hiff|]. split; [apply Hfound|].
  split; [|repeat split; vm_compute; reflexivity].
  apply Hiff.
  exists ["(?i)union\s+select"; "(?i)select.+from"; "(?i)1=1"; "(?i)or\s+1\s*=";
          "(?i)drop\s+table"], "(?i)union\s+select",
         "GET /x?id=1 UNION SELECT * FROM users".
  assert (Hs : Regex.re_search "(?i)union\s+select" "GET /x?id=1 UNION SELECT * FROM users"
               = true) by (vm_compute; reflexivity).
  apply re_search_spec in Hs as (r & Hc & Hf). exists r.
  split; [by left|]. split; [by left|]. split; [by left|]. done.
Qed.

End ThreatMatcherFacts.

(** ** C3 and C10: percentiles *)

Section Percentiles.
Import Performance.

Lemma percentile_index_floor (num : Z) (den : positive) (xs : list Q) :
  0 <= num ->
  percentile_index (num # den) xs = Z.of_nat (length xs) * num / Z.pos den
  /\ percentile_index (num # den) xs
     = Qfloor (inject_Z (Z.of_nat (length xs)) * (num # den)).
Proof.
  intros Hnum. unfold percentile_index, int_of_float.
  assert (Hle : Qle_bool 0 (inject_Z (Z.of_nat (length xs)) * (num # den)) = true).
  { apply Qle_bool_iff. apply Qmult_le_0_compat.
    - unfold Qle. simpl. lia.
    - unfold Qle. simpl. lia. }
  rewrite Hle. split; [|done].
  unfold Qfloor, Qmult, inject_Z. simpl. done.
Qed.

Lemma percentile_index_bound (num : Z) (den : positive) (xs : list Q) :
  0 <= num < Z.pos den -> xs <> [] ->
  0 <= percentile_index (num # den) xs < Z.of_nat (length xs).
Proof.
  intros Hnum Hne.
  destruct (percentile_index_floor num den xs) as [-> _]; [lia|].
  assert (0 < Z.of_nat (length xs)) by (destruct xs; [done|simpl; lia]).
  split.
  - apply Z.div_pos; nia.
  - apply Z.div_lt_upper_bound; nia.
Qed.

Lemma sorted_length xs : length (sorted xs) = length xs.
Proof. symmetry. apply Permutation_length, QSort.Permuted_sort. Qed.

(** For list lengths up to 20000 the binary64 product truncates to the
    index of the exact computation. *)
Lemma indices_agree_spec p num den fuel n k :
  indices_agree p num den fuel n = true ->
  n <= k < n + Z.of_nat fuel -> float_index k p = k * num / den.
Proof.
  revert n. induction fuel as [|fuel IH]; intros n H Hk; [lia|].
  simpl in H. destruct (Z.eqb_spec (float_index n p) (n * num / den)) as [H0|]; [|done].
  destruct (decide (k = n)) as [->|Hne]; [done|].
  apply (IH (n + 1)); [done|lia].
Qed.

Lemma float_index_exact (n : Z) :
  0 <= n <= 20000 ->
  float_index n f0_9 = n * 9 / 10
  /\ float_index n f0_95 = n * 95 / 100
  /\ float_index n f0_99 = n * 99 / 100.
Proof.
  intros Hn.
  assert (H90 : indices_agree f0_9 9 10 (Z.to_nat 20001) 0 = true)
    by (vm_compute; reflexivity).
  assert (H95 : indices_agree f0_95 95 100 (Z.to_nat 20001) 0 = true)
    by (vm_compute; reflexivity).
  assert (H99 : indices_agree f0_99 99 100 (Z.to_nat 20001) 0 = true)
    by (vm_compute; reflexivity).
  assert (Hk : 0 <= n < 0 + Z.of_nat (Z.to_nat 20001)) by (rewrite Z2Nat.id; lia).
  split; [exact (indices_agree_spec _ _ _ _ _ _ H90 Hk)|].
  split; [exact (indices_agree_spec _ _ _ _ _ _ H95 Hk)|].
  exact (indices_agree_spec _ _ _ _ _ _ H99 Hk).
Qed.

Lemma percentile_index_general (p : Q) (xs : list Q) :
  (0 <= p)%Q -> (p < 1)%Q -> xs <> [] ->
  percentile_index p xs = Qfloor (inject_Z (Z.of_nat (length xs)) * p)
  /\ 0 <= percentile_index p xs < Z.of_nat (length xs).
Proof.
  intros Hp0 Hp1 Hne. unfold percentile_index, int_of_float.
  set (n := Z.of_nat (length xs)).
  assert (Hn : 0 < n) by (subst n; destruct xs; [done|simpl; lia]).
  assert (HnQ : (0 < inject_Z n)%Q) by (unfold Qlt; simpl; lia).
  assert (H0 : (0 <= inject_Z n * p)%Q).
  { apply Qmult_le_0_compat; [by apply Qlt_le_weak|done]. }
  assert (Hle : Qle_bool 0 (inject_Z n * p) = true) by (by apply Qle_bool_iff).
  rewrite Hle. split; [done|]. split.
  - change 0 with (Qfloor 0). by apply Qfloor_resp_le.
  - rewrite Zlt_Qlt. eapply Qle_lt_trans; [apply Qfloor_le|].
    rewrite <- (Qmult_1_r (inject_Z n)) at 2. by apply Qmult_lt_l.
Qed.

Lemma Sorted_weaken {A} (R R' : A -> A -> Prop) (l : list A) :
  (forall x y, R x y -> R' x y) -> Sorted R l -> Sorted R' l.
Proof.
  intros HR. induction 1 as [|a l Hs IH Hhd]; constructor; [done|].
  destruct Hhd; constructor. by apply HR.
Qed.

(** [sorted] returns the samples in ascending order. *)
Lemma sorted_spec (xs : list Q) : Sorted Qle (sorted xs) /\ Permutation xs (sorted xs).
Proof.
  split; [|apply QSort.Permuted_sort].
  apply (Sorted_weaken (fun x y => is_true (Qle_bool x y))).
  - intros x y H. by apply Qle_bool_iff.
  - apply QSort.Sorted_sort.
Qed.

Lemma percentile_some (p : Q) (xs : list Q) :
  (0 <= p)%Q -> (p < 1)%Q -> xs <> [] -> exists x, percentile p xs = Some x.
Proof.
  intros Hp0 Hp1 Hne.
  destruct (percentile_index_general p xs Hp0 Hp1 Hne) as [_ Hb].
  unfold percentile.
  destruct (nth_error (sorted xs) (Z.to_nat (percentile_index p xs))) as [x|] eqn:Hx;
    [by exists x|].
  apply nth_error_None in Hx. rewrite sorted_length in Hx. lia.
Qed.

(** C3.  For a non-empty list of samples and a percentile fraction p in
    [0, 1), the percentile is the element at the 0-indexed position
    floor(N * p) of the samples sorted in ascending order: the index is
    obtained by truncation, and nothing is rounded or interpolated.  For the
    samples 0.1, 0.2, 0.5, 0.9, 1.2, 3.0 the 90th percentile is 3.0. *)
Theorem percentile_is_sorted_element_at_floor (p : Q) (response_times : list Q) :
  (0 <= p)%Q -> (p < 1)%Q -> response_times <> [] ->
  let n := Z.of_nat (length response_times) in
  let ascending := sorted response_times in
  Sorted Qle ascending
  /\ Permutation response_times ascending
  /\ (exists x,
        percentile p response_times = Some x
        /\ nth_error ascending (Z.to_nat (Qfloor (inject_Z n * p))) = Some x
        /\ In x response_times)
  /\ p90 [1 # 10; 2 # 10; 5 # 10; 9 # 10; 12 # 10; 3 # 1]%Q = Some (3 # 1)%Q.
Proof.
  intros Hp0 Hp1 Hne n ascending.
  destruct (sorted_spec response_times) as [Hs Hperm].
  split; [done|]. split; [done|]. split; [|vm_compute; reflexivity].
  destruct (percentile_some p response_times Hp0 Hp1 Hne) as (x & Hx).
  exists x. split; [done|].
  destruct (percentile_index_general p response_times Hp0 Hp1 Hne) as [Hidx _].
  unfold percentile in Hx. rewrite Hidx in Hx. split; [done|].
  apply (Permutation_in _ (Permutation_sym Hperm)). by eapply nth_error_In.
Qed.

Lemma percentile_is_sorted_element_at_floor_witness :
  let response_times := [1 # 10; 2 # 10; 5 # 10; 9 # 10; 12 # 10; 3 # 1]%Q in
  let n := Z.of_nat (length response_times) in
  let ascending := sorted response_times in
  Sorted Qle ascending
  /\ Permutation response_times ascending
  /\ (exists x,
        percentile (9 # 10) response_times = Some x
        /\ nth_error ascending (Z.to_nat (Qfloor (inject_Z n * (9 # 10)))) = Some x
        /\ In x response_times)
  /\ p90 [1 # 10; 2 # 10; 5 # 10; 9 # 10; 12 # 10; 3 # 1]%Q = Some (3 # 1)%Q.
Proof.
  apply (percentile_is_sorted_element_at_floor (9 # 10)
           [1 # 10; 2 # 10; 5 # 10; 9 # 10; 12 # 10; 3 # 1]%Q).
  - unfold Qle. simpl. lia.
  - unfold Qlt. simpl. lia.
  - discriminate.
Defined.

(** C10.  For a non-empty list of N response times, the indices
    int(N * 0.9), int(N * 0.95) and int(N * 0.99) are less than N, so the
    three lookups succeed; up to N = 20000 the binary64 products give these
    same indices. *)
Theorem percentile_indices_in_range (response_times : list Q) :
  response_times <> [] ->
  let n := Z.of_nat (length response_times) in
  0 <= percentile_index (9 # 10) response_times < n
  /\ 0 <= percentile_index (95 # 100) response_times < n
  /\ 0 <= percentile_index (99 # 100) response_times < n
  /\ is_Some (p90 response_times)
  /\ is_Some (p95 response_times)
  /\ is_Some (p99 response_times)
  /\ (n <= 20000 ->
      float_index n f0_9 = percentile_index (9 # 10) response_times
      /\ float_index n f0_95 = percentile_index (95 # 100) response_times
      /\ float_index n f0_99 = percentile_index (99 # 100) response_times).
Proof.
  intros Hne n.
  assert (H90 := percentile_index_bound 9 10 response_times ltac:(lia) Hne).
  assert (H95 := percentile_index_bound 95 100 response_times ltac:(lia) Hne).
  assert (H99 := percentile_index_bound 99 100 response_times ltac:(lia) Hne).
  assert (Hsome : forall p, (0 <= p)%Q -> (p < 1)%Q -> is_Some (percentile p response_times)).
  { intros p Hp0 Hp1. destruct (percentile_some p response_times Hp0 Hp1 Hne) as [x Hx].
    by exists x. }
  split; [done|]. split; [done|]. split; [done|].
  split; [apply Hsome; [unfold Qle|unfold Qlt]; simpl; lia|].
  split; [apply Hsome; [unfold Qle|unfold Qlt]; simpl; lia|].
  split; [apply Hsome; [unfold Qle|unfold Qlt]; simpl; lia|].
  intros Hn.
  destruct (float_index_exact n ltac:(lia)) as (F90 & F95 & F99).
  destruct (percentile_index_floor 9 10 response_times ltac:(lia)) as [E90 _].
  destruct (percentile_index_floor 95 100 response_times ltac:(lia)) as [E95 _].
  destruct (percentile_index_floor 99 100 response_times ltac:(lia)) as [E99 _].
  fold n in E90, E95, E99. by rewrite F90, F95, F99, E90, E95, E99.
Qed.

Lemma percentile_indices_in_range_witness :
  let response_times := [1 # 10; 2 # 10; 5 # 10; 9 # 10; 12 # 10; 3 # 1]%Q in
  let n := Z.of_nat (length response_times) in
  0 <= percentile_index (9 # 10) response_times < n
  /\ 0 <= percentile_index (95 # 100) response_times < n
  /\ 0 <= percentile_index (99 # 100) response_times < n
  /\ is_Some (p90 response_times)
  /\ is_Some (p95 response_times)
  /\ is_Some (p99 response_times)
  /\ (n <= 20000 ->
      float_index n f0_9 = percentile_index (9 # 10) response_times
      /\ float_index n f0_95 = percentile_index (95 # 100) response_times
      /\ float_index n f0_99 = percentile_index (99 # 100) response_times).
Proof.
  apply (percentile_indices_in_range [1 # 10; 2 # 10; 5 # 10; 9 # 10; 12 # 10; 3 # 1]%Q).
  discriminate.
Defined.

Example float_index_examples :
  float_index 6 f0_9 = 5 /\ float_index 20 f0_95 = 19 /\ float_index 100 f0_99 = 99
  /\ float_index 1 f0_9 = 0 /\ float_index 10 f0_9 = 9.
Proof. repeat split; vm_compute; reflexivity. Qed.

End Percentiles.


(** ** C6: the engagement score *)

Section Engagement.
Import Content.

Lemma Qlt_bool_iff x y : Qlt_bool x y = true <-> (x < y)%Q.
Proof.
  unfold Qlt_bool. rewrite negb_true_iff. split.
  - intros H. apply Qnot_le_lt. intros Hle. apply Qle_bool_iff in Hle. congruence.
  - intros H. destruct (Qle_bool y x) eqn:Hle; [|done].
    apply Qle_bool_iff in Hle. by apply Qlt_not_le in H.
Qed.

(** The gaps that are kept are the differences of consecutive visits that
    lie strictly between 0 and 3600 seconds. *)
Lemma revisit_gaps_spec (visits : list (Z * string)) (x : Q) :
  In x (revisit_gaps visits)
  <-> exists i a b,
        visits !! i = Some a /\ visits !! S i = Some b
        /\ x = total_seconds (b.1 - a.1) /\ (0 < x)%Q /\ (x < 3600)%Q.
Proof.
  induction visits as [|a rest IH].
  - simpl. split; [done|]. by intros (i & a & b & H & _).
  - destruct rest as [|b rest'].
    + simpl. split; [done|]. intros (i & a' & b' & _ & H & _). by destruct i.
    + change (revisit_gaps (a :: b :: rest'))
        with ((if Qlt_bool 0 (total_seconds (b.1 - a.1))
                  && Qlt_bool (total_seconds (b.1 - a.1)) 3600
               then [total_seconds (b.1 - a.1)] else []) ++ revisit_gaps (b :: rest')).
      rewrite in_app_iff, IH. split.
      * intros [H|(i & a' & b' & Ha & Hb & Hx)].
        -- destruct (Qlt_bool 0 _ && Qlt_bool _ 3600) eqn:Hc; [|done].
           destruct H as [<-|[]]. apply andb_true_iff in Hc as [H0 H1].
           apply Qlt_bool_iff in H0, H1. by exists 0%nat, a, b.
        -- by exists (S i), a', b'.
      * intros (i & a' & b' & Ha & Hb & Hx & H0 & H1). destruct i as [|i].
        -- left. simpl in Ha, Hb. injection Ha as <-. injection Hb as <-. subst x.
           apply Qlt_bool_iff in H0, H1. rewrite H0, H1. by left.
        -- right. by exists i, a', b'.
Qed.


Lemma session_engagement_times_spec url engagements client session x :
  In x (session_engagement_times url engagements (client, session))
  <-> url_visits url session <> []
      /\ ((exists i a b,
             url_visits url session !! i = Some a
             /\ url_visits url session !! S i = Some b
             /\ x = total_seconds (b.1 - a.1) /\ (0 < x)%Q /\ (x < 3600)%Q)
          \/ (exists e, In e engagements
                /\ e_ip e = hd "" (Py.split "_" client)
                /\ x = estimated_reading_time e)).
Proof.
  unfold session_engagement_times. cbn [fst snd].
  set (visits := url_visits url session).
  assert (Hest : forall y,
            In y (map estimated_reading_time
                    (List.filter (fun e => String.eqb (e_ip e) (hd "" (Py.split "_" client)))
                                 engagements))
            <-> exists e, In e engagements /\ e_ip e = hd "" (Py.split "_" client)
                          /\ y = estimated_reading_time e).
  { intros y. rewrite in_map_iff. split.
    - intros (e & <- & He). apply filter_In in He as [He Hip].
      apply String.eqb_eq in Hip. by exists e.
    - intros (e & He & Hip & ->). exists e. split; [done|].
      apply filter_In. split; [done|]. by apply String.eqb_eq. }
  destruct visits as [|a rest] eqn:Hv.
  - simpl. split; [done|]. by intros [H _].
  - cbn [length Nat.ltb Nat.leb]. rewrite in_app_iff, Hest. split.
    + intros [H|H]; (split; [done|]); [left|by right].
      destruct rest as [|b rest']; [done|].
      cbn [length Nat.ltb Nat.leb] in H. by apply revisit_gaps_spec.
    + intros [_ [H|H]]; [left|by right].
      destruct rest as [|b rest'].
      * destruct H as (i & a' & b' & _ & Hb & _). by destruct i.
      * cbn [length Nat.ltb Nat.leb]. by apply revisit_gaps_spec.
Qed.

Lemma engagement_times_spec url engagements ss x :
  In x (engagement_times url engagements ss)
  <-> exists client session,
        ss !! client = Some session
        /\ In x (session_engagement_times url engagements (client, session)).
Proof.
  unfold engagement_times. rewrite in_concat. split.
  - intros (l & Hl & Hx). apply in_map_iff in Hl as ([client session] & <- & Hin).
    exists client, session. split; [|done].
    by apply elem_of_map_to_list, list_elem_of_In.
  - intros (client & session & Hs & Hx).
    exists (session_engagement_times url engagements (client, session)). split; [|done].
    apply in_map. by apply list_elem_of_In, elem_of_map_to_list.
Qed.




End Engagement.

(** ** C9: runs of the aggregator and the clock *)

Section Determinism.
Import TrafficLog.

Variable env : environment.

Lemma process_parseable now1 now2 r m :
  TimestampParser.parse_time_try (le_time_str r) <> None ->
  process env now1 r m = process env now2 r m.
Proof.
  intros Hp. unfold process.
  destruct (TimestampParser.parse_time_try (le_time_str r)) as [res|] eqn:Hres; [|done].
  by rewrite (parse_time_parseable now1 _ _ Hres), (parse_time_parseable now2 _ _ Hres).
Qed.

Lemma scan_parseable clock1 clock2 i j entries m :
  Forall (fun r => TimestampParser.parse_time_try (le_time_str r) <> None) entries ->
  scan env clock1 i entries m = scan env clock2 j entries m.
Proof.
  intros Hall. revert i j m.
  induction Hall as [|r rest Hr _ IH]; intros i j m; simpl; [done|].
  rewrite (process_parseable (clock1 i) (clock2 j) r m Hr).
  destruct (process env (clock2 j) r m); simpl; [apply IH|done].
Qed.

(** The block "Track referrers" returns where the two referrer functions
    do. *)
Lemma track_referrer_returns referrer m :
  (String.eqb referrer "-" || String.eqb referrer ""
   || (bool_decide (is_Some (classify_referrer env referrer))
       && bool_decide (is_Some (extract_search_engine env referrer)))) = true ->
  is_Some (track_referrer env referrer m).
Proof.
  unfold track_referrer. intros H.
  destruct (String.eqb referrer "-"); [done|].
  destruct (String.eqb referrer ""); [done|].
  cbn [orb negb andb] in *. apply andb_true_iff in H as [Hc He].
  apply bool_decide_eq_true in Hc as [c ->].
  apply bool_decide_eq_true in He as [[en kw] ->].
  cbn. by destruct en as [en|]; [destruct (String.eqb en "")|].
Qed.

(** The loop body returns on a line for which [line_returns] holds. *)
Lemma process_returns now r m :
  Traffic.well_formed (tracker m) ->
  TrafficLogInv.line_returns env now r = true ->
  exists m', process env now r m = Some m' /\ Traffic.well_formed (tracker m').
Proof.
  intros Hwf Hret. unfold TrafficLogInv.line_returns in Hret. unfold process.
  destruct (is_internal_ip env (le_ip r)); [by exists m|].
  cbn [orb] in Hret. apply andb_true_iff in Hret as [Href Hts].
  apply negb_true_iff in Hts.
  destruct (TimestampParser.parse_time now (le_time_str r)) as [[ts hour] dow].
  cbn [fst] in Hts.
  destruct (match Py.split_ws (le_request r) with
            | m0 :: u0 :: _ => (m0, u0)
            | _ => ("UNKNOWN", "UNKNOWN")
            end) as [method url].
  destruct (track_referrer_returns (le_referrer r) m Href) as [[[[c1 c2] c3] c4] ->].
  cbn [mbind option_bind].
  match goal with
  | |- context [Traffic.track _ ?e ?st] =>
      destruct (track_well_formed (timestamp_raises env) e st Hts Hwf) as (tr & -> & Hwf')
  end.
  cbn [mbind option_bind]. eexists. split; [reflexivity|exact Hwf'].
Qed.

Lemma scan_returns clock i entries m :
  Traffic.well_formed (tracker m) ->
  Forall (fun r => forall now, TrafficLogInv.line_returns env now r = true) entries ->
  exists m', scan env clock i entries m = Some m' /\ Traffic.well_formed (tracker m').
Proof.
  intros Hwf Hall. revert i m Hwf.
  induction Hall as [|r rest Hr _ IH]; intros i m Hwf; simpl.
  - by exists m.
  - destruct (process_returns (clock i) r m Hwf (Hr _)) as (m' & -> & Hwf'). simpl.
    by apply IH.
Qed.

(** C9 (as the aggregator has it).  Over a log in which the timestamp of
    every matched line can be parsed, two runs of the traffic aggregator
    in one environment end alike, whatever the clock shows during the
    runs: both with the same metrics (every counter, set and session of
    the snapshot), or both with an exception, after which
    [parse_access_log] returns [None]. *)
Theorem parse_access_log_independent_of_clock
    (clock1 clock2 : nat -> Z) (entries : list log_entry) :
  Forall (fun r => TimestampParser.parse_time_try (le_time_str r) <> None) entries ->
  parse_access_log env clock1 entries = parse_access_log env clock2 entries.
Proof.
  intros Hall. unfold parse_access_log.
  by rewrite (scan_parseable clock1 clock2 0 0 entries init Hall).
Qed.

End Determinism.

Section DeterminismExamples.
Import TrafficLog.

Lemma parse_access_log_independent_of_clock_witness :
  let entries :=
    [{| le_ip := "8.8.8.8"; le_auth := "-";
        le_time_str := "10/Oct/2023:13:55:36 +0200"; le_request := "GET /a HTTP/1.1";
        le_status_code := 200; le_response_size := "2326"; le_referrer := "-";
        le_user_agent := "Mozilla/5.0" |};
     {| le_ip := "8.8.8.8"; le_auth := "-";
        le_time_str := "10/Oct/2023:14:40:00 +0200"; le_request := "GET /b HTTP/1.1";
        le_status_code := 200; le_response_size := "512"; le_referrer := "-";
        le_user_agent := "Mozilla/5.0" |}] in
  let at_noon := fun _ : nat => 63832622400000000 in
  let a_day_later := fun i : nat => 63832708800000000 + Z.of_nat i in
  is_Some (parse_access_log plain_environment at_noon entries)
  /\ parse_access_log plain_environment at_noon entries
     = parse_access_log plain_environment a_day_later entries.
Proof.
  intros entries at_noon a_day_later. split.
  - vm_compute. eexists. reflexivity.
  - apply (parse_access_log_independent_of_clock plain_environment
             at_noon a_day_later entries).
    repeat constructor; vm_compute; discriminate.
Defined.

(** C9 fails as stated.  A log of two lines from the client 8.8.8.8, the
    second with a timestamp that cannot be parsed.  Read one minute after
    the first line's time, the second line continues the session: one
    entry page.  Read a day later, it starts a new session: two entry
    pages. *)
Lemma parse_access_log_depends_on_clock :
  let entries :=
    [{| le_ip := "8.8.8.8"; le_auth := "-";
        le_time_str := "10/Oct/2023:13:55:36 +0200"; le_request := "GET /a HTTP/1.1";
        le_status_code := 200; le_response_size := "2326"; le_referrer := "-";
        le_user_agent := "Mozilla/5.0" |};
     {| le_ip := "8.8.8.8"; le_auth := "-";
        le_time_str := "-"; le_request := "GET /b HTTP/1.1";
        le_status_code := 200; le_response_size := "512"; le_referrer := "-";
        le_user_agent := "Mozilla/5.0" |}] in
  let soon := fun _ : nat => TimestampParser.t_2023_10_10_135536 + TimestampParser.minutes 1 in
  let later := fun _ : nat => TimestampParser.t_2023_10_10_135536 + TimestampParser.minutes 1440 in
  let entry_pages_of clock :=
    (fun m => Traffic.entry_pages (tracker m))
      <$> parse_access_log plain_environment clock entries in
  is_internal_ip plain_environment "8.8.8.8" = false
  /\ entry_pages_of soon = Some {[ "/a" := 1 ]}
  /\ entry_pages_of later = Some {[ "/a" := 1; "/b" := 1 ]}
  /\ parse_access_log plain_environment soon entries
     <> parse_access_log plain_environment later entries.
Proof.
  cbn zeta. split; [reflexivity|].
  split; [vm_compute; reflexivity|]. split; [vm_compute; reflexivity|].
  intros Heq.
  apply (f_equal (fmap (fun m => map_to_list (Traffic.entry_pages (tracker m))))) in Heq.
  vm_compute in Heq. discriminate.
Qed.

(** The content analyzer reads the clock once more, for [yesterday]: a hit
    with a well-formed timestamp is trending in a run started within a day
    of it and not in a later run. *)
Example content_trending_depends_on_clock :
  let e := {| Content.ip := "8.8.8.8";
              Content.timestamp := TimestampParser.t_2023_10_10_135536;
              Content.url := "/a"; Content.response_size := Some 2326 |} in
  let started := TimestampParser.t_2023_10_10_135536 + TimestampParser.minutes 60 in
  let day := TimestampParser.minutes 1440 in
  (Content.trending_content
     <$> Content.run Content.plain_environment (started - day) [e] Content.init)
    = Some [("/a", TimestampParser.t_2023_10_10_135536)]
  /\ (Content.trending_content
        <$> Content.run Content.plain_environment (started + day - day) [e] Content.init)
     = Some [].
Proof. split; vm_compute; reflexivity. Qed.

End DeterminismExamples.

(* ===================================================================== *)
(** * Further properties of the analyzers *)
(* ===================================================================== *)

(** ** Sums of counters *)

Section CounterFacts.
Context `{Countable K}.

Lemma sum_pairs_perm (l1 l2 : list (K * Z)) :
  l1 ≡ₚ l2 ->
  foldr (fun kv acc => kv.2 + acc) 0 l1 = foldr (fun kv acc => kv.2 + acc) 0 l2.
Proof. induction 1; simpl; lia. Qed.

Lemma sum_values_empty : sum_values (∅ : gmap K Z) = 0.
Proof. unfold sum_values. by rewrite map_to_list_empty. Qed.

Lemma sum_values_insert_fresh (c : gmap K Z) k v :
  c !! k = None -> sum_values (<[k := v]> c) = v + sum_values c.
Proof.
  intros Hk. unfold sum_values.
  by rewrite (sum_pairs_perm _ _ (map_to_list_insert c k v Hk)).
Qed.

Lemma sum_values_insert (c : gmap K Z) k v :
  sum_values (<[k := v]> c) = v + sum_values c - count c k.
Proof.
  unfold count. destruct (c !! k) as [old|] eqn:Hk; simpl.
  - rewrite <- (insert_delete_eq c k v).
    rewrite sum_values_insert_fresh by apply lookup_delete_eq.
    rewrite <- (insert_delete_id c k old Hk) at 2.
    rewrite sum_values_insert_fresh by apply lookup_delete_eq. lia.
  - rewrite sum_values_insert_fresh by done. lia.
Qed.

Lemma sum_values_incr (c : gmap K Z) k : sum_values (incr k c) = sum_values c + 1.
Proof. unfold incr. rewrite sum_values_insert. lia. Qed.

Lemma count_incr_eq (c : gmap K Z) k : count (incr k c) k = count c k + 1.
Proof. unfold count at 1, incr. by rewrite lookup_insert_eq. Qed.

Lemma count_incr_ne (c : gmap K Z) k k' : k <> k' -> count (incr k c) k' = count c k'.
Proof. intros Hne. unfold count, incr. by rewrite lookup_insert_ne. Qed.

End CounterFacts.


(** ** The traffic tracker: shape of the open sessions *)

Section TrackerInvariant.
Import Traffic TrackerInv.

Variable timestamp_raises : Z -> bool.

Abbreviation track := (Traffic.track timestamp_raises).
Abbreviation run := (Traffic.run timestamp_raises).

Lemma session_ok_fresh client t u : session_ok client t [(t, u, (client, t))].
Proof.
  exists t, u, []. split; [done|]. split; [by repeat constructor|].
  split; [by exists u, (client, t)|].
  intros i a b Ha Hb. destruct i; simpl in Hb; done.
Qed.

Lemma session_ok_snoc client last_seen vs t u sid0 :
  session_ok client last_seen vs ->
  head vs = Some sid0 ->
  t - last_seen <= session_timeout ->
  session_ok client t (vs ++ [(t, u, sid0.2)]).
Proof.
  intros (t0 & u0 & rest & -> & Hall & (ul & sl & Hlast) & Hgaps) Hhd Hgap.
  simpl in Hhd. injection Hhd as <-. cbn [snd].
  exists t0, u0, (rest ++ [(t, u, (client, t0))]). split; [done|].
  split; [apply Forall_app; split; [done|by repeat constructor]|].
  split; [exists u, (client, t0); by rewrite last_snoc|].
  intros i a b Ha Hb.
  change ((t0, u0, (client, t0)) :: rest ++ [(t, u, (client, t0))])
    with (((t0, u0, (client, t0)) :: rest) ++ [(t, u, (client, t0))]) in Ha, Hb.
  remember ((t0, u0, (client, t0)) :: rest) as vs eqn:Evs.
  destruct (decide (S i < length vs)%nat) as [Hlt|Hge].
  - rewrite lookup_app_l in Ha by lia. rewrite lookup_app_l in Hb by lia. by eapply Hgaps.
  - assert (Hlen : (S i < length (vs ++ [(t, u, (client, t0))]))%nat)
      by (by eapply lookup_lt_Some).
    rewrite length_app in Hlen. cbn [length] in Hlen.
    assert (S i = length vs) as Hi by lia.
    rewrite lookup_app_r in Hb by lia. rewrite Hi, Nat.sub_diag in Hb. cbn in Hb.
    injection Hb as <-. rewrite lookup_app_l in Ha by lia.
    rewrite last_lookup, <- Hi in Hlast. cbn [Nat.pred] in Hlast.
    rewrite Hlast in Ha. injection Ha as <-. cbn [fst]. lia.
Qed.

Lemma init_tracker_inv : tracker_inv init.
Proof.
  split; intros client.
  - intros t Ht. cbn in Ht. by rewrite lookup_empty in Ht.
  - intros _. cbn. apply lookup_empty.
Qed.

(** A step that returns keeps the invariant. *)
Lemma track_tracker_inv e st st' :
  tracker_inv st -> track e st = Some st' -> tracker_inv st'.
Proof.
  intros [Hseen Hunseen].
  assert (Hother : forall (st' : tracker) vs,
            ip_sessions st' = <[ip e := timestamp e]> (ip_sessions st) ->
            sessions st' = <[ip e := vs]> (sessions st) ->
            session_ok (ip e) (timestamp e) vs -> tracker_inv st').
  { intros st1 vs Hi Hs Hok. split.
    - intros client t Ht. rewrite Hi in Ht. rewrite Hs.
      destruct (decide (ip e = client)) as [<-|Hne].
      + rewrite lookup_insert_eq in Ht. injection Ht as <-.
        exists vs. by rewrite lookup_insert_eq.
      + rewrite lookup_insert_ne in Ht by done. rewrite lookup_insert_ne by done. eauto.
    - intros client Ht. rewrite Hi in Ht. rewrite Hs.
      destruct (decide (ip e = client)) as [<-|Hne].
      + by rewrite lookup_insert_eq in Ht.
      + rewrite lookup_insert_ne in Ht by done. rewrite lookup_insert_ne by done. eauto. }
  unfold Traffic.track.
  destruct (ip_sessions st !! ip e) as [last_time|] eqn:Hlast.
  - destruct (Hseen _ _ Hlast) as (vs & Hvs & Hok).
    unfold sessions_of. rewrite Hvs. cbn [default].
    destruct (Z.gtb_spec (timestamp e - last_time) session_timeout) as [Hgap|Hgap].
    + destruct (timestamp_raises (timestamp e)); [discriminate|]. intros [= <-].
      eapply Hother; [reflexivity|reflexivity|apply session_ok_fresh].
    + destruct vs as [|first rest] eqn:Evs; [discriminate|]. intros [= <-].
      eapply Hother; [reflexivity|reflexivity|].
      by apply (session_ok_snoc (ip e) last_time (first :: rest) (timestamp e) (url e) first).
  - destruct (timestamp_raises (timestamp e)); [discriminate|]. intros [= <-].
    eapply Hother; [reflexivity|reflexivity|apply session_ok_fresh].
Qed.

Lemma run_tracker_inv evs st st' :
  tracker_inv st -> run evs st = Some st' -> tracker_inv st'.
Proof.
  revert st. induction evs as [|e evs IH]; intros st Hinv; simpl.
  - by intros [= <-].
  - destruct (track e st) as [st1|] eqn:Hst1; [|discriminate]. simpl.
    apply IH. by eapply track_tracker_inv.
Qed.

(** The invariant implies the one that rules the [IndexError] out. *)
Lemma tracker_inv_well_formed st : tracker_inv st -> well_formed st.
Proof.
  intros [Hseen _] client t Ht.
  destruct (Hseen _ _ Ht) as (vs & Hvs & t0 & u0 & rest & -> & Hall & (u & sid & Hl) & _).
  exists ((t0, u0, (client, t0)) :: rest), u, sid. split; [done|]. split; [done|].
  assert (sid = (client, t0)) as ->; [|done].
  apply last_Some in Hl as [l' Hl]. rewrite Hl in Hall.
  apply Forall_app in Hall as [_ Hall]. by inversion Hall.
Qed.

(** The loop returns on a log on whose datetimes [timestamp()] returns,
    and only a hit that opens a session can make it raise. *)
Lemma run_returns evs st :
  tracker_inv st ->
  Forall (fun e => timestamp_raises (timestamp e) = false) evs ->
  is_Some (run evs st).
Proof.
  intros Hinv Hok.
  destruct (run_well_formed timestamp_raises evs st Hok (tracker_inv_well_formed _ Hinv))
    as (st' & -> & _).
  by eexists.
Qed.

(** X1.  The session tracking of the traffic analyzer returns on every
    log on whose datetimes [timestamp()] returns.  Whenever it returns,
    the clients with a last-seen time are the clients with a session, and
    each session is non-empty, starts with a visit
    [(t0, u0, (client, t0))], carries that one session id on all its
    visits, and ends with the visit at the client's last-seen time. *)
Theorem traffic_sessions_carry_one_id (evs : list hit) :
  (Forall (fun e => timestamp_raises (timestamp e) = false) evs -> is_Some (run evs init))
  /\ forall st,
       run evs init = Some st ->
       dom (ip_sessions st) = dom (sessions st)
       /\ forall client vs,
            sessions st !! client = Some vs ->
            exists t0 u0 rest t u,
              vs = (t0, u0, (client, t0)) :: rest
              /\ Forall (fun v : visit => v.2 = (client, t0)) vs
              /\ last vs = Some (t, u, (client, t0))
              /\ ip_sessions st !! client = Some t.
Proof.
  split; [apply run_returns, init_tracker_inv|].
  intros st Hrun.
  destruct (run_tracker_inv evs init st init_tracker_inv Hrun) as (Hseen & Hunseen).
  split.
  - apply set_eq. intros client. rewrite !elem_of_dom. split.
    + intros [t Ht]. destruct (Hseen _ _ Ht) as (vs & -> & _). by eexists.
    + intros [vs Hvs]. destruct (ip_sessions st !! client) as [t|] eqn:Ht; [by eexists|].
      rewrite (Hunseen _ Ht) in Hvs. done.
  - intros client vs Hvs.
    destruct (ip_sessions st !! client) as [t|] eqn:Ht;
      [|by rewrite (Hunseen _ Ht) in Hvs].
    destruct (Hseen _ _ Ht) as (vs' & Hvs' & t0 & u0 & rest & -> & Hall & (u & sid & Hl) & _).
    rewrite Hvs in Hvs'. injection Hvs' as ->.
    exists t0, u0, rest, t, u. split; [done|]. split; [done|]. split; [|done].
    rewrite Hl. repeat f_equal.
    apply last_Some in Hl as [l' Hl]. rewrite Hl in Hall.
    apply Forall_app in Hall as [_ Hall]. by inversion Hall.
Qed.

(** X2.  Whenever the session tracking returns, which it does on every
    log on whose datetimes [timestamp()] returns, two consecutive visits
    of an open session are at most 30 minutes apart. *)
Theorem traffic_session_gaps_within_timeout (evs : list hit) :
  (Forall (fun e => timestamp_raises (timestamp e) = false) evs -> is_Some (run evs init))
  /\ forall st,
       run evs init = Some st ->
       forall client vs i a b,
         sessions st !! client = Some vs ->
         vs !! i = Some a -> vs !! S i = Some b ->
         b.1.1 - a.1.1 <= TimestampParser.minutes 30.
Proof.
  split; [apply run_returns, init_tracker_inv|].
  intros st Hrun client vs i a b Hvs Ha Hb.
  destruct (run_tracker_inv evs init st init_tracker_inv Hrun) as (Hseen & Hunseen).
  destruct (ip_sessions st !! client) as [t|] eqn:Ht;
    [|by rewrite (Hunseen _ Ht) in Hvs].
  destruct (Hseen _ _ Ht) as (vs' & Hvs' & t0 & u0 & rest & Evs & _ & _ & Hgaps).
  rewrite Hvs in Hvs'. injection Hvs' as <-.
  change (TimestampParser.minutes 30) with session_timeout. by eapply Hgaps.
Qed.

End TrackerInvariant.

(** ** The traffic tracker and the hits it has read *)

Section ScanInvariant.
Import Traffic TrackerInv ScanInv.

Variable timestamp_raises : Z -> bool.

Abbreviation track := (Traffic.track timestamp_raises).
Abbreviation run := (Traffic.run timestamp_raises).
Abbreviation track_all := (Traffic.track_all timestamp_raises).

Lemma last_hit_of_snoc client pre e :
  last_hit_of client (pre ++ [e])
  = if String.eqb (ip e) client then Some e else last_hit_of client pre.
Proof.
  unfold last_hit_of. rewrite List.filter_app. simpl.
  destruct (String.eqb (ip e) client); [apply last_snoc|by rewrite app_nil_r].
Qed.

Lemma sessions_opened_snoc earlier evs e :
  sessions_opened earlier (evs ++ [e])
  = sessions_opened earlier evs + (if opens_session (earlier ++ evs) e then 1 else 0).
Proof.
  revert earlier. induction evs as [|x evs IH]; intros earlier; simpl.
  - rewrite app_nil_r. lia.
  - rewrite IH, <- app_assoc. simpl. lia.
Qed.

Lemma entries_counted_snoc earlier evs e :
  entries_counted earlier (evs ++ [e])
  = entries_counted earlier evs
    + (if opens_session (earlier ++ evs) e && negb (is_static (url e))
          && (status_code e =? 200) then 1 else 0).
Proof.
  revert earlier. induction evs as [|x evs IH]; intros earlier; simpl.
  - rewrite app_nil_r. lia.
  - rewrite IH, <- app_assoc. simpl. lia.
Qed.

Lemma page_hits_snoc u pre e :
  page_hits u (pre ++ [e])
  = page_hits u pre + (if String.eqb (url e) u && (status_code e =? 200) then 1 else 0).
Proof.
  unfold page_hits. rewrite List.filter_app, length_app. simpl.
  destruct (String.eqb (url e) u && (status_code e =? 200)); simpl; lia.
Qed.

(** The two ways a step that returns can go. *)
Lemma track_cases e st st' :
  tracker_inv st ->
  track e st = Some st' ->
  exists sid vs',
    ip_sessions st' = <[ip e := timestamp e]> (ip_sessions st)
    /\ sessions st' = <[ip e := vs']> (sessions st)
    /\ paths st' = paths st ++ [(timestamp e, ip e, url e, sid)]
    /\ ((sid = (ip e, timestamp e)
         /\ vs' = [(timestamp e, url e, sid)]
         /\ entry_pages st'
            = (if negb (is_static (url e)) && (status_code e =? 200)
               then incr (url e) (entry_pages st) else entry_pages st)
         /\ ((ip_sessions st !! ip e = None /\ sessions st !! ip e = None
              /\ exit_pages st' = exit_pages st)
             \/ (exists last_time vs t u s,
                   ip_sessions st !! ip e = Some last_time
                   /\ timestamp e - last_time > session_timeout
                   /\ sessions st !! ip e = Some vs /\ last vs = Some (t, u, s)
                   /\ exit_pages st' = incr u (exit_pages st))))
        \/ (exists last_time vs t0 u0,
              ip_sessions st !! ip e = Some last_time
              /\ timestamp e - last_time <= session_timeout
              /\ sessions st !! ip e = Some vs
              /\ head vs = Some (t0, u0, sid) /\ sid = (ip e, t0)
              /\ vs' = vs ++ [(timestamp e, url e, sid)]
              /\ entry_pages st' = entry_pages st
              /\ exit_pages st' = exit_pages st)).
Proof.
  intros [Hseen Hunseen]. unfold Traffic.track.
  destruct (ip_sessions st !! ip e) as [last_time|] eqn:Hlast.
  - destruct (Hseen _ _ Hlast)
      as (vs & Hvs & t0 & u0 & rest & Evs & Hall & (ul & sl & Hl) & Hgaps).
    unfold sessions_of. rewrite Hvs. cbn [default].
    destruct (Z.gtb_spec (timestamp e - last_time) session_timeout) as [Hgap|Hgap].
    + destruct (timestamp_raises (timestamp e)); [discriminate|]. intros Hst.
      apply (inj Some) in Hst. subst st'.
      eexists _, _. cbn [ip_sessions sessions paths entry_pages exit_pages].
      split; [done|]. split; [done|]. split; [done|]. left.
      split; [done|]. split; [done|]. split; [done|]. right.
      exists last_time, vs, last_time, ul, sl. unfold id. rewrite Hl.
      repeat (split; [done || lia|]). done.
    + rewrite Evs. intros Hst. apply (inj Some) in Hst. subst st'.
      eexists _, _.
      cbn [ip_sessions sessions paths entry_pages exit_pages].
      split; [done|]. split; [done|]. split; [done|]. right.
      exists last_time, ((t0, u0, (ip e, t0)) :: rest), t0, u0.
      repeat (split; [done || lia|]). done.
  - destruct (timestamp_raises (timestamp e)); [discriminate|]. intros Hst.
    apply (inj Some) in Hst. subst st'.
    eexists _, _.
    cbn [ip_sessions sessions paths entry_pages exit_pages].
    split; [done|]. split; [done|]. split; [done|]. left.
    split; [done|]. split; [done|]. split; [done|]. left.
    split; [done|]. split; [by apply Hunseen|done].
Qed.

(** One step of the loop keeps the relation between the tracker and the
    hits read so far. *)
Lemma track_scan_inv e st st' pre :
  scan_inv st pre -> track e st = Some st' -> scan_inv st' (pre ++ [e]).
Proof.
  intros (Hinv & Hlast & Hmirror & Hids & Hvisits & Hentry & Hexit & Hsum) Htrack.
  pose proof (track_tracker_inv timestamp_raises e st st' Hinv Htrack) as Hinv'.
  destruct (track_cases e st st' Hinv Htrack) as (sid & vs' & Hips & Hsess & Hpaths & Hcase).
  assert (Hin_e : In e (pre ++ [e])) by (apply in_or_app; right; by left).
  assert (Hmono : forall x, In x pre -> In x (pre ++ [e]))
    by (intros; apply in_or_app; by left).
  assert (Hsid : sid.1 = ip e
                 /\ exists e', In e' (pre ++ [e]) /\ ip e' = sid.1 /\ timestamp e' = sid.2).
  { destruct Hcase as [(-> & _)|(last_time & vs & t0 & u0 & _ & _ & Hvs & Hhead & -> & _)].
    - split; [done|]. by exists e.
    - split; [done|]. destruct vs as [|v rest]; [done|]. injection Hhead as ->.
      destruct (Hvisits (ip e) _ (t0, u0, (ip e, t0)) Hvs (or_introl eq_refl))
        as (e' & He' & Hip & Hts & _).
      exists e'. simpl. auto. }
  assert (Hvs' : forall v, In v vs' ->
            exists e', In e' (pre ++ [e]) /\ ip e' = ip e
                       /\ timestamp e' = v.1.1 /\ url e' = v.1.2).
  { intros v Hv.
    destruct Hcase as [(_ & -> & _)|(last_time & vs & t0 & u0 & _ & _ & Hvs & _ & _ & -> & _)].
    - destruct Hv as [<-|[]]. by exists e.
    - apply in_app_or in Hv as [Hv|[<-|[]]].
      + destruct (Hvisits _ _ _ Hvs Hv) as (e' & ? & ? & ? & ?). exists e'. auto.
      + by exists e. }
  assert (Hent : entry_pages st' = entry_pages st
                 \/ (is_static (url e) = false /\ status_code e = 200
                     /\ entry_pages st' = incr (url e) (entry_pages st))).
  { destruct Hcase as [(_ & _ & -> & _)|(? & ? & ? & ? & _ & _ & _ & _ & _ & _ & -> & _)];
      [|by left].
    destruct (is_static (url e)); [by left|].
    destruct (Z.eqb_spec (status_code e) 200); [right|left]; done. }
  assert (Hopens : opens_session pre e
                   = if decide (sid = (ip e, timestamp e) /\ vs' = [(timestamp e, url e, sid)])
                     then true else false).
  { unfold opens_session. specialize (Hlast (ip e)).
    destruct Hcase as [(-> & -> & _ & [(Hnone & _)
                                     |(last_time & vs & t & u & s & Hsome & Hgap & _)])
                      |(last_time & vs & t0 & u0 & Hsome & Hgap & Hvs & Hhead & _ & -> & _)].
    - rewrite decide_True by done.
      rewrite Hnone in Hlast. by destruct (last_hit_of (ip e) pre).
    - rewrite decide_True by done.
      rewrite Hsome in Hlast. destruct (last_hit_of (ip e) pre) as [p|]; [|done].
      injection Hlast as ->.
      destruct (Z.gtb_spec (timestamp e - timestamp p) session_timeout); [done|lia].
    - rewrite decide_False.
      + rewrite Hsome in Hlast. destruct (last_hit_of (ip e) pre) as [p|]; [|done].
        injection Hlast as ->.
        destruct (Z.gtb_spec (timestamp e - timestamp p) session_timeout); [lia|done].
      + intros [_ Habs]. destruct vs; [done|]. by destruct vs. }
  split; [exact Hinv'|].
  split.
  { intros client. rewrite Hips, last_hit_of_snoc.
    destruct (String.eqb_spec (ip e) client) as [<-|Hne].
    - by rewrite lookup_insert_eq.
    - rewrite lookup_insert_ne by done. apply Hlast. }
  split.
  { by rewrite Hpaths, !map_app, Hmirror. }
  split.
  { intros p Hp. rewrite Hpaths in Hp. apply in_app_or in Hp as [Hp|[<-|[]]].
    - destruct (Hids p Hp) as (? & e' & ? & ? & ?). split; [done|]. exists e'. auto.
    - simpl. destruct Hsid as (H1 & e' & ? & ? & ?). split; [done|]. exists e'; auto. }
  split.
  { intros client vs v Hvs Hv. rewrite Hsess in Hvs.
    destruct (decide (ip e = client)) as [<-|Hne].
    - rewrite lookup_insert_eq in Hvs. injection Hvs as <-. by apply Hvs'.
    - rewrite lookup_insert_ne in Hvs by done.
      destruct (Hvisits _ _ _ Hvs Hv) as (e' & ? & ? & ? & ?). exists e'. auto. }
  split.
  { intros u. destruct (Hentry u) as (Hcount & Hstatic & Hpos).
    rewrite page_hits_snoc.
    assert (0 <= (if String.eqb (url e) u && (status_code e =? 200) then 1 else 0))
      by (destruct (String.eqb (url e) u && (status_code e =? 200)); lia).
    destruct Hent as [->|(Hns & Hst & ->)].
    - split; [lia|]. by split.
    - destruct (String.eqb_spec (url e) u) as [<-|Hne].
      + rewrite count_incr_eq, Hst. simpl. split; [lia|]. split.
        * intros Hs. congruence.
        * unfold incr. rewrite lookup_insert_eq. intros n [= <-]. lia.
      + rewrite count_incr_ne by done. split; [simpl; lia|]. split.
        * intros Hs. unfold incr. rewrite lookup_insert_ne by done. auto.
        * unfold incr. rewrite lookup_insert_ne by done. apply Hpos. }
  split; cycle 1.
  { rewrite entries_counted_snoc. simpl. rewrite <- Hsum, Hopens.
    destruct Hcase as [(-> & -> & -> & _)
                      |(? & vs & ? & ? & _ & _ & _ & Hhead & _ & -> & -> & _)].
    - rewrite decide_True by done. simpl.
      destruct (negb (is_static (url e)) && (status_code e =? 200));
        [rewrite sum_values_incr|]; lia.
    - rewrite decide_False; [simpl; lia|].
      intros [_ Habs]. destruct vs; [done|]. by destruct vs. }
  rewrite sessions_opened_snoc. simpl. rewrite <- Hexit, Hsess.
  unfold opens_session. specialize (Hlast (ip e)).
  destruct Hcase as [(_ & _ & _ & [(Hnone & Hsnone & ->)
                                 |(last_time & vs & t & u & s & Hsome & Hgap & Hvs & _ & ->)])
                    |(last_time & vs & t0 & u0 & Hsome & Hgap & Hvs & _ & _ & _ & _ & ->)].
  - rewrite Hnone in Hlast. destruct (last_hit_of (ip e) pre); [done|].
    rewrite map_size_insert_None by done. lia.
  - rewrite Hsome in Hlast. destruct (last_hit_of (ip e) pre) as [p|]; [|done].
    injection Hlast as ->.
    rewrite map_size_insert_Some by done. rewrite sum_values_incr.
    destruct (Z.gtb_spec (timestamp e - timestamp p) session_timeout); lia.
  - rewrite Hsome in Hlast. destruct (last_hit_of (ip e) pre) as [p|]; [|done].
    injection Hlast as ->.
    rewrite map_size_insert_Some by done.
    destruct (Z.gtb_spec (timestamp e - timestamp p) session_timeout); lia.
Qed.

Lemma init_scan_inv : scan_inv init [].
Proof.
  split; [apply init_tracker_inv|].
  split; [intros client; apply lookup_empty|].
  split; [done|].
  split; [intros p []|].
  split; [intros client vs v Hvs; cbn in Hvs; by rewrite lookup_empty in Hvs|].
  split; [|unfold init; cbn [exit_pages entry_pages sessions];
            rewrite (sum_values_empty (K:=string)); split; reflexivity].
  intros u. unfold init; cbn [entry_pages]. unfold count. rewrite lookup_empty.
  cbn. unfold page_hits. cbn. repeat split; done.
Qed.

Lemma run_scan_inv evs st st' pre :
  scan_inv st pre -> run evs st = Some st' -> scan_inv st' (pre ++ evs).
Proof.
  revert st pre. induction evs as [|e evs IH]; intros st pre Hinv; simpl.
  - intros [= <-]. by rewrite app_nil_r.
  - destruct (track e st) as [st1|] eqn:Htrack; [|discriminate]. simpl. intros Hrun.
    pose proof (IH st1 (pre ++ [e]) (track_scan_inv _ _ _ _ Hinv Htrack) Hrun) as Hinv'.
    by rewrite <- app_assoc in Hinv'.
Qed.

Lemma exit_fold_sum (l : list (string * list visit)) (acc : gmap string Z) :
  Forall (fun kv : string * list visit => kv.2 <> []) l ->
  sum_values (foldl (fun acc (kv : string * list visit) =>
                       match last kv.2 with
                       | Some (_, last_url, _) => incr last_url acc
                       | None => acc
                       end) acc l)
  = sum_values acc + Z.of_nat (length l).
Proof.
  intros Hl. revert acc. induction Hl as [|kv l Hkv _ IH]; intros acc.
  - simpl. lia.
  - cbn [foldl length]. rewrite IH.
    destruct (last kv.2) as [[[t u] sid]|] eqn:Hlast.
    + rewrite sum_values_incr. lia.
    + by apply last_None in Hlast.
Qed.

Lemma record_remaining_exit_pages_sum st :
  tracker_inv st ->
  sum_values (exit_pages (record_remaining_exit_pages st))
  = sum_values (exit_pages st) + Z.of_nat (size (sessions st)).
Proof.
  intros [Hseen Hunseen]. unfold record_remaining_exit_pages. cbn [exit_pages].
  rewrite exit_fold_sum, length_map_to_list; [done|].
  apply List.Forall_forall. intros [client vs] Hin.
  apply list_elem_of_In, elem_of_map_to_list in Hin. simpl.
  destruct (ip_sessions st !! client) as [t|] eqn:Hip.
  - destruct (Hseen _ _ Hip) as (vs0 & Hvs0 & t0 & u0 & rest & -> & _).
    rewrite Hin in Hvs0. by injection Hvs0 as ->.
  - apply Hunseen in Hip. congruence.
Qed.

Lemma entries_counted_le earlier evs :
  0 <= entries_counted earlier evs <= sessions_opened earlier evs.
Proof.
  revert earlier. induction evs as [|e evs IH]; intros earlier; simpl; [lia|].
  specialize (IH (earlier ++ [e])).
  destruct (opens_session earlier e); simpl; [|lia].
  destruct (negb (is_static (url e)) && (status_code e =? 200)); lia.
Qed.

Lemma track_all_scan_inv evs st' :
  track_all evs = Some st' ->
  exists st, run evs init = Some st /\ scan_inv st evs
             /\ st' = record_remaining_exit_pages st.
Proof.
  unfold Traffic.track_all. destruct (run evs init) as [st|] eqn:Hrun; [|discriminate].
  intros [= <-]. exists st. split; [done|]. split; [|done].
  apply (run_scan_inv evs init st [] init_scan_inv Hrun).
Qed.

Lemma track_all_returns evs :
  Forall (fun e => timestamp_raises (timestamp e) = false) evs -> is_Some (track_all evs).
Proof.
  intros Hok. unfold Traffic.track_all.
  destruct (run_returns timestamp_raises evs init init_tracker_inv Hok) as [st ->].
  by eexists.
Qed.

(** X3.  The session tracking returns on every log on whose datetimes
    [timestamp()] returns.  Whenever it returns, [metrics['paths']] has
    one record per hit, in the order of the hits, with the hit's
    timestamp, client and URL; the session id of each record names the
    record's client and the timestamp of a hit of that client. *)
Theorem traffic_paths_mirror_hits (evs : list hit) :
  (Forall (fun e => timestamp_raises (timestamp e) = false) evs -> is_Some (track_all evs))
  /\ forall st,
       track_all evs = Some st ->
       map (fun p : Z * string * string * (string * Z) => (p.1.1.1, p.1.1.2, p.1.2))
           (paths st)
       = map (fun e => (timestamp e, ip e, url e)) evs
       /\ forall p, In p (paths st) ->
            exists e, In e evs /\ ip e = p.1.1.2 /\ p.2 = (ip e, timestamp e).
Proof.
  split; [apply track_all_returns|]. intros st' Hall.
  destruct (track_all_scan_inv evs st' Hall) as (st & _ & Hinv & ->).
  destruct Hinv as (_ & _ & Hmirror & Hids & _).
  cbn [paths record_remaining_exit_pages].
  split; [exact Hmirror|].
  intros p Hp. destruct (Hids p Hp) as (Hclient & e & He & Hip & Hts).
  exists e. split; [done|]. split; [congruence|].
  destruct p as [? [c t]]. simpl in *. congruence.
Qed.

(** X4.  Whenever the scan of a list of hits returns, which it does on
    every log on whose datetimes [timestamp()] returns, every key of
    [metrics['entry_pages']] is a URL without a static extension, its
    count is positive and at most the number of hits of that URL with
    status 200, and the counts add up to the number of hits that opened a
    session on a non-static URL with status 200. *)
Theorem traffic_entry_pages_are_pages (evs : list hit) :
  (Forall (fun e => timestamp_raises (timestamp e) = false) evs -> is_Some (track_all evs))
  /\ forall st,
       track_all evs = Some st ->
       (forall u n, entry_pages st !! u = Some n ->
          is_static u = false /\ 0 < n <= page_hits u evs)
       /\ sum_values (entry_pages st) = entries_counted [] evs.
Proof.
  split; [apply track_all_returns|]. intros st' Hall.
  destruct (track_all_scan_inv evs st' Hall) as (st & _ & Hinv & ->).
  destruct Hinv as (_ & _ & _ & _ & _ & Hentry & _ & Hsum).
  cbn [entry_pages record_remaining_exit_pages].
  split; [|exact Hsum].
  intros u n Hn. destruct (Hentry u) as (Hcount & Hstatic & Hpos).
  unfold count in Hcount. rewrite Hn in Hcount. simpl in Hcount.
  split; [|split; [by apply Hpos|lia]].
  destruct (is_static u); [|done]. rewrite Hstatic in Hn; done.
Qed.

(** X5.  Whenever the scan of a list of hits returns, which it does on
    every log on whose datetimes [timestamp()] returns, the counts of
    [metrics['exit_pages']] add up to the number of sessions the hits
    opened (a hit opens a session when its client has no earlier hit or
    the latest one is more than 30 minutes older), and the counts of
    [metrics['entry_pages']] add up to at most that number. *)
Theorem traffic_exit_pages_count_sessions (evs : list hit) :
  (Forall (fun e => timestamp_raises (timestamp e) = false) evs -> is_Some (track_all evs))
  /\ forall st,
       track_all evs = Some st ->
       sum_values (exit_pages st) = sessions_opened [] evs
       /\ sum_values (entry_pages st) <= sum_values (exit_pages st).
Proof.
  split; [apply track_all_returns|]. intros st' Hall.
  destruct (track_all_scan_inv evs st' Hall) as (st & _ & Hinv & ->).
  destruct Hinv as (Htr & _ & _ & _ & _ & _ & Hexit & Hsum).
  rewrite record_remaining_exit_pages_sum by done.
  cbn [entry_pages record_remaining_exit_pages].
  split; [exact Hexit|]. rewrite Hexit, Hsum. apply entries_counted_le.
Qed.

End ScanInvariant.


(** ** What [parse_time] returns *)

Section ParseTimeResult.
Import TimestampParser.

Lemma days_before_year_nonneg y : 1 <= y -> 0 <= days_before_year y.
Proof. intros Hy. unfold days_before_year. Z.div_mod_to_equations. lia. Qed.

Lemma days_in_month_pos y m : 28 <= days_in_month y m <= 31.
Proof.
  unfold days_in_month.
  destruct (m =? 2); [destruct (is_leap y); lia|].
  destruct ((m =? 4) || (m =? 6) || (m =? 9) || (m =? 11)); lia.
Qed.

Lemma days_before_month_aux_nonneg y k : 0 <= days_before_month_aux y k.
Proof.
  induction k as [|k IH]; [simpl; lia|].
  cbn [days_before_month_aux]. pose proof (days_in_month_pos y (Z.of_nat (S k))). lia.
Qed.

Lemma datetime_new_fields year month day hour minute second dt :
  datetime_new year month day hour minute second = Some dt ->
  0 <= hour <= 23 /\ 0 <= dt
  /\ dt / (3600 * us_per_second) mod 24 = hour
  /\ dt mod us_per_second = 0.
Proof.
  unfold datetime_new.
  destruct (_ && _) eqn:Hok; [|done]. intros [= <-].
  repeat (apply andb_true_iff in Hok as [Hok ?]).
  pose proof (days_before_year_nonneg year ltac:(lia)).
  pose proof (days_before_month_aux_nonneg year (Z.to_nat (month - 1))).
  assert (Hord : 1 <= ymd2ord year month day)
    by (unfold ymd2ord, days_before_month; lia).
  revert Hord. generalize (ymd2ord year month day). intros o Ho.
  unfold us_per_second.
  split; [lia|]. split; [nia|]. split.
  - replace ((((((o - 1) * 24 + hour) * 60 + minute) * 60 + second) * 1000000))
      with (((minute * 60 + second) * 1000000) + ((o - 1) * 24 + hour) * (3600 * 1000000))
      by lia.
    rewrite Z.div_add by lia. rewrite Z.div_small by lia.
    rewrite Z.add_0_l, Z.add_comm, Z.mod_add by lia. apply Z.mod_small. lia.
  - apply Z.mod_mul. lia.
Qed.

Lemma weekday_range dt : 0 <= weekday dt <= 6.
Proof. unfold weekday. pose proof (Z.mod_pos_bound (toordinal dt + 6) 7). lia. Qed.

Lemma parse_time_try_fields time_str dt hour day_of_week :
  parse_time_try time_str = Some (dt, hour, day_of_week) ->
  0 <= hour <= 23 /\ 0 <= dt /\ dt mod us_per_second = 0
  /\ dt / (3600 * us_per_second) mod 24 = hour
  /\ day_of_week = weekday dt.
Proof.
  intros Htry. unfold parse_time_try in Htry.
  repeat match type of Htry with
         | match ?x with _ => _ end = Some _ => destruct x; try discriminate
         end.
  repeat match type of Htry with
         | (_ ≫= _) = Some _ =>
             apply bind_Some in Htry as (? & ? & Htry)
         end.
  injection Htry as <- <- <-.
  match goal with H : datetime_new _ _ _ _ _ _ = Some _ |- _ =>
    apply datetime_new_fields in H as (Hh & Hdt & Hhour & Hsec) end.
  done.
Qed.

(** The hour and the day of the week are in range also when the text is
    not a timestamp. *)
Lemma parse_time_range now time_str :
  0 <= (parse_time now time_str).1.2 <= 23 /\ 0 <= (parse_time now time_str).2 <= 6.
Proof.
  unfold parse_time.
  destruct (parse_time_try time_str) as [[[dt hour] dow]|] eqn:Htry; [|simpl; lia].
  apply parse_time_try_fields in Htry as (? & _ & _ & _ & ->).
  simpl. split; [done|apply weekday_range].
Qed.

(** X6.  When [parse_time] reads the text without an exception, the
    timestamp it returns is a whole number of seconds that is not
    negative, the hour it returns is between 0 and 23 and is the hour of
    day of the timestamp, and the day of the week it returns is the
    weekday of the timestamp, between 0 (Monday) and 6. *)
Theorem parse_time_fields_consistent (now : Z) (time_str : string) :
  parse_time_try time_str <> None ->
  let '(dt, hour, day_of_week) := parse_time now time_str in
  0 <= dt /\ dt mod us_per_second = 0
  /\ 0 <= hour <= 23 /\ dt / (3600 * us_per_second) mod 24 = hour
  /\ 0 <= day_of_week <= 6 /\ day_of_week = weekday dt.
Proof.
  intros Hok. unfold parse_time.
  destruct (parse_time_try time_str) as [[[dt hour] dow]|] eqn:Htry; [|done].
  apply parse_time_try_fields in Htry as (? & ? & ? & ? & ->).
  repeat (split; [done|]). split; [apply weekday_range|done].
Qed.

Lemma parse_time_fields_consistent_witness :
  let '(dt, hour, day_of_week) := parse_time 0 "10/Oct/2023:13:55:36 +0200" in
  0 <= dt /\ dt mod us_per_second = 0
  /\ 0 <= hour <= 23 /\ dt / (3600 * us_per_second) mod 24 = hour
  /\ 0 <= day_of_week <= 6 /\ day_of_week = weekday dt.
Proof.
  apply (parse_time_fields_consistent 0 "10/Oct/2023:13:55:36 +0200").
  by vm_compute.
Defined.

Lemma split_max_nonempty sep n s : Py.split_max sep n s <> [].
Proof.
  revert n. induction s as [|c s IH]; intros [|k]; try done.
  simpl. destruct (Ascii.eqb c sep); [done|].
  by destruct (Py.split_max sep (S k) s).
Qed.

(** A prefix without the separator stays in front of the first part. *)
Lemma split_max_prefix sep n (a b : string) :
  Py.has_char sep a = false ->
  Py.split_max sep n (a ++ b)
  = match Py.split_max sep n b with
    | first :: rest => (a ++ first)%string :: rest
    | [] => [a]
    end.
Proof.
  destruct n as [|k]; [by rewrite !split_max_0|].
  induction a as [|c a IH]; intros Ha.
  - rewrite string_app_nil.
    destruct (Py.split_max sep (S k) b) as [|first rest] eqn:Hb; [|done].
    by apply split_max_nonempty in Hb.
  - cbn [Py.has_char] in Ha. apply orb_false_iff in Ha as [Hc Ha].
    rewrite string_app_cons.
    change (Py.split_max sep (S k) (String c (a ++ b)))
      with (if Ascii.eqb c sep then EmptyString :: Py.split_max sep k (a ++ b)
            else match Py.split_max sep (S k) (a ++ b) with
                 | first :: rest => String c first :: rest
                 | [] => [String c EmptyString]
                 end).
    rewrite Hc, (IH Ha).
    destruct (Py.split_max sep (S k) b) as [|first rest] eqn:Hb; [|done].
    by apply split_max_nonempty in Hb.
Qed.

Lemma dict_get_unknown {V} (d : list (string * V)) k (dflt : V) :
  ~ In k (map fst d) -> dict_get d k dflt = dflt.
Proof.
  induction d as [|[k' v] d IH]; [done|]. simpl. intros Hk.
  destruct (String.eqb_spec k' k) as [->|_]; [tauto|]. apply IH. tauto.
Qed.

(** The month text is used for the table lookup only. *)
Lemma parse_time_try_month day month1 month2 rest :
  Py.has_char "/" day = false -> Py.has_char ":" day = false ->
  Py.has_char "/" month1 = false -> Py.has_char ":" month1 = false ->
  Py.has_char "/" month2 = false -> Py.has_char ":" month2 = false ->
  dict_get month_names month1 1 = dict_get month_names month2 1 ->
  parse_time_try (day ++ "/" ++ month1 ++ "/" ++ rest)
  = parse_time_try (day ++ "/" ++ month2 ++ "/" ++ rest).
Proof.
  intros Hd1 Hd2 Ha1 Ha2 Hb1 Hb2 Hmonth.
  assert (Hcut : forall month, Py.has_char "/" month = false -> Py.has_char ":" month = false ->
            parse_time_try (day ++ "/" ++ month ++ "/" ++ rest)
            = match Py.split_max ":" 1 rest with
              | [first; time_part] =>
                  match Py.split "/" first with
                  | [year] =>
                      match Py.split_max ":" 2 time_part with
                      | [hour; minute; rest] =>
                          match Py.split_ws rest with
                          | second :: _ =>
                              y ← Py.int year;
                              d ← Py.int day;
                              h ← Py.int hour;
                              mi ← Py.int minute;
                              s ← Py.int second;
                              dt ← datetime_new y (dict_get month_names month 1) d h mi s;
                              Some (dt, h, weekday dt)
                          | [] => None
                          end
                      | _ => None
                      end
                  | _ => None
                  end
              | _ => None
              end).
  { intros month Hm1 Hm2. unfold parse_time_try.
    replace (day ++ "/" ++ month ++ "/" ++ rest)%string
      with ((day ++ "/" ++ month ++ "/") ++ rest)%string
      by (repeat (rewrite string_app_assoc || rewrite string_app_cons
                  || rewrite string_app_nil); done).
    rewrite split_max_prefix
      by (rewrite !has_char_app, Hd2, Hm2; done).
    destruct (Py.split_max ":" 1 rest) as [|first [|time_part [|? ?]]]; try done.
    replace ((day ++ "/" ++ month ++ "/") ++ first)%string
      with (day ++ String "/" (month ++ String "/" first))%string
      by (repeat (rewrite string_app_assoc || rewrite string_app_cons
                  || rewrite string_app_nil); done).
    rewrite (split_first "/" day _ Hd1), (split_first "/" month _ Hm1).
    destruct (Py.split "/" first) as [|year [|? ?]]; done. }
  by rewrite (Hcut month1 Ha1 Ha2), (Hcut month2 Hb1 Hb2), Hmonth.
Qed.

(** X7.  A month text that is not one of the twelve English
    abbreviations is read as January: whatever the day and the rest of
    the line, the result is the one for [Jan] in its place. *)
Theorem parse_time_unknown_month_read_as_january
    (now : Z) (day month rest : string) :
  Py.has_char "/" day = false -> Py.has_char ":" day = false ->
  Py.has_char "/" month = false -> Py.has_char ":" month = false ->
  ~ In month (map fst month_names) ->
  parse_time now (day ++ "/" ++ month ++ "/" ++ rest)
  = parse_time now (day ++ "/" ++ "Jan" ++ "/" ++ rest).
Proof.
  intros Hd1 Hd2 Hm1 Hm2 Hunknown. unfold parse_time.
  rewrite (parse_time_try_month day month "Jan" rest) by
    (try done; by rewrite dict_get_unknown).
  done.
Qed.

Lemma parse_time_unknown_month_read_as_january_witness :
  parse_time 0 ("10" ++ "/" ++ "Okt" ++ "/" ++ "2023:13:55:36 +0200")
  = parse_time 0 ("10" ++ "/" ++ "Jan" ++ "/" ++ "2023:13:55:36 +0200")
  /\ (parse_time 0 ("10" ++ "/" ++ "Okt" ++ "/" ++ "2023:13:55:36 +0200")).1.1
     = 63808955736000000.
Proof.
  split; [|by vm_compute].
  apply (parse_time_unknown_month_read_as_january 0 "10" "Okt" "2023:13:55:36 +0200");
    try reflexivity.
  simpl. intros H. repeat (destruct H as [H|H]; [discriminate H|]). exact H.
Defined.

(** Splitting at blanks distributes over a blank. *)
Lemma split_ws_aux_space cur (a : string) c (z : string) :
  Py.is_space c = true ->
  Py.split_ws_aux cur (a ++ String c z) = Py.split_ws_aux cur a ++ Py.split_ws_aux None z.
Proof.
  intros Hc. revert cur. induction a as [|x a IH]; intros cur.
  - rewrite string_app_nil. cbn [Py.split_ws_aux]. rewrite Hc. by destruct cur.
  - rewrite string_app_cons. cbn [Py.split_ws_aux].
    destruct (Py.is_space x); [|apply IH].
    destruct cur; by rewrite IH.
Qed.

Lemma parse_time_try_zone date hour minute sec zone1 zone2 :
  Py.has_char ":" date = false -> Py.has_char ":" hour = false ->
  Py.has_char ":" minute = false -> Py.split_ws sec <> [] ->
  parse_time_try (date ++ ":" ++ hour ++ ":" ++ minute ++ ":" ++ sec ++ " " ++ zone1)
  = parse_time_try (date ++ ":" ++ hour ++ ":" ++ minute ++ ":" ++ sec ++ " " ++ zone2).
Proof.
  intros Hdate Hhour Hminute Hsec.
  assert (Hcut : forall zone,
            parse_time_try (date ++ ":" ++ hour ++ ":" ++ minute ++ ":" ++ sec ++ " " ++ zone)
            = match Py.split "/" date with
              | [day; month; year] =>
                  match Py.split_ws sec with
                  | second :: _ =>
                      y ← Py.int year;
                      d ← Py.int day;
                      h ← Py.int hour;
                      mi ← Py.int minute;
                      s ← Py.int second;
                      dt ← datetime_new y (dict_get month_names month 1) d h mi s;
                      Some (dt, h, weekday dt)
                  | [] => None
                  end
              | _ => None
              end).
  { intros zone. unfold parse_time_try.
    repeat (rewrite string_app_assoc || rewrite string_app_cons || rewrite string_app_nil).
    rewrite (split_max_first ":" 0 date _ Hdate), split_max_0.
    destruct (Py.split "/" date) as [|day [|month [|year [|? ?]]]]; try done.
    rewrite (split_max_first ":" 1 hour _ Hhour), (split_max_first ":" 0 minute _ Hminute),
      split_max_0.
    unfold Py.split_ws. rewrite split_ws_aux_space by done.
    fold (Py.split_ws sec). by destruct (Py.split_ws sec). }
  by rewrite !Hcut.
Qed.

(** X8.  [parse_time] does not read the time zone: two lines that differ
    only in what follows the blank after the seconds get the same
    timestamp, hour and day of the week. *)
Theorem parse_time_ignores_zone
    (now : Z) (date hour minute sec zone1 zone2 : string) :
  Py.has_char ":" date = false -> Py.has_char ":" hour = false ->
  Py.has_char ":" minute = false -> Py.split_ws sec <> [] ->
  parse_time now (date ++ ":" ++ hour ++ ":" ++ minute ++ ":" ++ sec ++ " " ++ zone1)
  = parse_time now (date ++ ":" ++ hour ++ ":" ++ minute ++ ":" ++ sec ++ " " ++ zone2).
Proof.
  intros Hdate Hhour Hminute Hsec. unfold parse_time.
  by rewrite (parse_time_try_zone date hour minute sec zone1 zone2).
Qed.

Lemma parse_time_ignores_zone_witness :
  parse_time 0 ("10/Oct/2023" ++ ":" ++ "13" ++ ":" ++ "55" ++ ":" ++ "36" ++ " " ++ "+0200")
  = parse_time 0 ("10/Oct/2023" ++ ":" ++ "13" ++ ":" ++ "55" ++ ":" ++ "36" ++ " " ++ "-0700")
  /\ parse_time 0 "10/Oct/2023:13:55:36 -0700" = (t_2023_10_10_135536, 13, 1).
Proof.
  split; [|by vm_compute].
  apply (parse_time_ignores_zone 0 "10/Oct/2023" "13" "55" "36" "+0200" "-0700");
    by vm_compute.
Defined.

End ParseTimeResult.


(** ** The counters of [gunlog_traffic.parse_access_log] *)

Section TrafficCounters.
Import TrafficLog TrafficLogInv.

Variable env : environment.

Lemma incr_lookup_pos `{Countable K} (c : gmap K Z) (k k' : K) n :
  (forall j v, c !! j = Some v -> 0 < v) ->
  incr k c !! k' = Some n -> 0 < n /\ (k' = k \/ c !! k' = Some n).
Proof.
  intros Hpos. unfold incr, count.
  destruct (decide (k = k')) as [<-|Hne].
  - rewrite lookup_insert_eq. intros [= <-]. split; [|by left].
    destruct (c !! k) as [v|] eqn:Hv; simpl; [|lia]. apply Hpos in Hv. lia.
  - rewrite lookup_insert_ne by done. intros Hn. split; [by eapply Hpos|by right].
Qed.

Lemma init_counters_ok : counters_ok init.
Proof.
  unfold counters_ok, init.
  cbn [total_hits bot_hits human_hits user_agents hourly_traffic daily_traffic
       status_codes file_types pages unique_ips tracker referrers referrer_types
       search_engines search_keywords browsers os devices].
  do 3 (split; [done|]).
  do 5 (split; [apply sum_values_empty|]).
  split; [done|].
  split; [by rewrite (sum_values_empty (K:=string))|].
  split; [apply sum_values_empty|].
  do 3 (split; [by rewrite (sum_values_empty (K:=string))|]).
  do 2 (split; [reflexivity|]).
  split; [by rewrite (sum_values_empty (K:=string))|].
  split; [intros h n Hn; by rewrite lookup_empty in Hn|].
  split; [intros h n Hn; by rewrite lookup_empty in Hn|].
  split; [|apply init_tracker_inv].
  unfold Traffic.init. cbn [Traffic.sessions]. by rewrite dom_empty_L.
Qed.

(** What the block "Track referrers" adds to its four counters. *)
Lemma track_referrer_sums referrer m c1 c2 c3 c4 :
  track_referrer env referrer m = Some (c1, c2, c3, c4) ->
  exists d1 d3 d4,
    0 <= d4 <= d3 /\ d3 <= d1 <= 1
    /\ sum_values c1 = sum_values (referrers m) + d1
    /\ sum_values c2 = sum_values (referrer_types m) + 1
    /\ sum_values c3 = sum_values (search_engines m) + d3
    /\ sum_values c4 = sum_values (search_keywords m) + d4.
Proof.
  unfold track_referrer.
  destruct (negb (String.eqb referrer "-") && negb (String.eqb referrer "")).
  - destruct (classify_referrer env referrer) as [rt|]; [|discriminate].
    destruct (extract_search_engine env referrer) as [[en kw]|]; [|discriminate].
    cbn [mbind option_bind].
    destruct en as [en|]; [destruct (String.eqb en "")|].
    + intros [= <- <- <- <-]. exists 1, 0, 0. rewrite !sum_values_incr. lia.
    + destruct kw as [kw|]; [destruct (String.eqb kw "")|].
      * intros [= <- <- <- <-]. exists 1, 1, 0. rewrite !sum_values_incr. lia.
      * intros [= <- <- <- <-]. exists 1, 1, 1. rewrite !sum_values_incr. lia.
      * intros [= <- <- <- <-]. exists 1, 1, 0. rewrite !sum_values_incr. lia.
    + intros [= <- <- <- <-]. exists 1, 0, 0. rewrite !sum_values_incr. lia.
  - intros [= <- <- <- <-]. exists 0, 0, 0. rewrite !sum_values_incr. lia.
Qed.

(** A loop body that returns keeps the counters in step. *)
Lemma process_counters_ok now r m m' :
  counters_ok m ->
  process env now r m = Some m' ->
  counters_ok m'
  /\ total_hits m' = total_hits m + Z.of_nat (length (kept (is_internal_ip env) [r]))
  /\ bot_hits m' = bot_hits m + Z.of_nat (length (kept_bots (is_internal_ip env) [r])).
Proof.
  intros Hok. unfold process, kept_bots, kept. cbn [List.filter].
  destruct (is_internal_ip env (le_ip r)); cbn [negb].
  { intros [= <-]. split; [done|]. simpl. lia. }
  destruct Hok as (Hsum & Hbot & Hhuman & Hua & Hhour & Hday & Hstatus & Hft & Hpaths
                   & Hpages & Hrt & Hkw & Hse & Hrf & Hbr & Hos & Hdev
                   & Hhours & Hdays & Hips & Hinv).
  pose proof (parse_time_range now (le_time_str r)) as [Hh Hd].
  destruct (TimestampParser.parse_time now (le_time_str r)) as [[ts hour] dow].
  simpl in Hh, Hd.
  destruct (match Py.split_ws (le_request r) with
            | m0 :: u0 :: _ => (m0, u0)
            | _ => ("UNKNOWN", "UNKNOWN")
            end) as [method url].
  destruct (track_referrer env (le_referrer r) m) as [[[[c1 c2] c3] c4]|] eqn:Href;
    [|discriminate].
  apply track_referrer_sums in Href
    as (d1 & d3 & d4 & Hd4 & Hd1 & Hc1 & Hc2 & Hc3 & Hc4).
  cbn [mbind option_bind].
  match goal with
  | |- context [Traffic.track _ ?e ?st] =>
      destruct (Traffic.track (timestamp_raises env) e st) as [tr|] eqn:Htrack;
        [|discriminate];
      pose proof (track_tracker_inv _ e st tr Hinv Htrack) as Hinv';
      destruct (track_cases _ e st tr Hinv Htrack) as (sid & vs' & _ & Hsess & Hpath & _)
  end.
  cbn [mbind option_bind]. intros [= <-].
  cbn [Traffic.ip Traffic.timestamp Traffic.url] in Hsess, Hpath.
  assert (Hdetails :
            exists dd, 0 <= dd <= (if is_bot (le_user_agent r) then 0 else 1)
              /\ sum_values (match (if is_bot (le_user_agent r) then None
                                    else user_agent_details env (le_user_agent r)) with
                             | Some d => incr d.1.1 (browsers m) | None => browsers m end)
                 = sum_values (browsers m) + dd
              /\ sum_values (match (if is_bot (le_user_agent r) then None
                                    else user_agent_details env (le_user_agent r)) with
                             | Some d => incr d.1.2 (os m) | None => os m end)
                 = sum_values (os m) + dd
              /\ sum_values (match (if is_bot (le_user_agent r) then None
                                    else user_agent_details env (le_user_agent r)) with
                             | Some d => incr d.2 (devices m) | None => devices m end)
                 = sum_values (devices m) + dd).
  { destruct (is_bot (le_user_agent r)); [exists 0; lia|].
    destruct (user_agent_details env (le_user_agent r)) as [d|]; [exists 1|exists 0];
      rewrite ?sum_values_incr; lia. }
  destruct Hdetails as (dd & Hdd & Hb1 & Hb2 & Hb3).
  split.
  - unfold counters_ok.
    cbn [total_hits bot_hits human_hits user_agents hourly_traffic daily_traffic
         status_codes file_types pages unique_ips tracker referrers referrer_types
         search_engines search_keywords browsers os devices].
    rewrite Hb1, Hb2, Hb3, Hc1, Hc2, Hc3, Hc4.
    rewrite !sum_values_incr, Hpath, length_app, Hsess, dom_insert_L, Hips.
    cbn [length].
    split; [destruct (is_bot (le_user_agent r)); lia|].
    split; [destruct (is_bot (le_user_agent r)); lia|].
    split; [destruct (is_bot (le_user_agent r)); lia|].
    do 5 (split; [lia|]). split; [lia|].
    split; [destruct (_ && _); [rewrite sum_values_incr|]; lia|].
    do 4 (split; [lia|]). do 2 (split; [lia|]).
    split; [destruct (is_bot (le_user_agent r)); lia|].
    split.
    { intros h n Hn.
      apply incr_lookup_pos in Hn as [Hn [->|Hold]];
        [by split| |intros j v Hv; exact (proj2 (Hhours _ _ Hv))].
      split; [exact (proj1 (Hhours _ _ Hold))|done]. }
    split.
    { intros d n Hn.
      apply incr_lookup_pos in Hn as [Hn [->|Hold]];
        [by split| |intros j v Hv; exact (proj2 (Hdays _ _ Hv))].
      split; [exact (proj1 (Hdays _ _ Hold))|done]. }
    split; [|done].
    apply set_eq. intros x. rewrite !elem_of_union. tauto.
  - cbn [total_hits bot_hits length List.filter].
    destruct (is_bot (le_user_agent r)); simpl; lia.
Qed.

Lemma kept_cons iip r entries :
  kept iip (r :: entries) = kept iip [r] ++ kept iip entries.
Proof. unfold kept. cbn [List.filter]. by destruct (negb _). Qed.

Lemma kept_bots_cons iip r entries :
  kept_bots iip (r :: entries) = kept_bots iip [r] ++ kept_bots iip entries.
Proof. unfold kept_bots. by rewrite kept_cons, List.filter_app. Qed.

Lemma scan_counters_ok clock i entries m m' :
  counters_ok m ->
  scan env clock i entries m = Some m' ->
  counters_ok m'
  /\ total_hits m' = total_hits m + Z.of_nat (length (kept (is_internal_ip env) entries))
  /\ bot_hits m' = bot_hits m + Z.of_nat (length (kept_bots (is_internal_ip env) entries)).
Proof.
  revert i m. induction entries as [|r rest IH]; intros i m Hok.
  - simpl. intros [= <-]. split; [done|]. lia.
  - cbn [scan]. destruct (process env (clock i) r m) as [m1|] eqn:Hp; [|discriminate].
    cbn [mbind option_bind]. intros Hs.
    destruct (process_counters_ok (clock i) r m m1 Hok Hp) as (Hok1 & Ht1 & Hb1).
    destruct (IH (S i) m1 Hok1 Hs) as (Hok' & Ht' & Hb').
    split; [done|].
    rewrite (kept_cons _ r rest), (kept_bots_cons _ r rest), !length_app. lia.
Qed.

Lemma parse_access_log_counters clock entries m' :
  parse_access_log env clock entries = Some m' ->
  exists m,
    m' = finish m
    /\ counters_ok m
    /\ total_hits m = Z.of_nat (length (kept (is_internal_ip env) entries))
    /\ bot_hits m = Z.of_nat (length (kept_bots (is_internal_ip env) entries)).
Proof.
  unfold parse_access_log.
  destruct (scan env clock 0 entries init) as [m|] eqn:Hs; [|discriminate].
  intros [= <-]. exists m. split; [done|].
  destruct (scan_counters_ok clock 0%nat entries init m init_counters_ok Hs)
    as (Hok & Ht & Hb).
  split; [done|]. unfold init in Ht, Hb. cbn [total_hits bot_hits] in Ht, Hb. lia.
Qed.

(** The scan returns on a log whose lines satisfy [line_returns]. *)
Lemma parse_access_log_returns clock entries :
  Forall (fun r => forall now, line_returns env now r = true) entries ->
  is_Some (parse_access_log env clock entries).
Proof.
  intros Hall. unfold parse_access_log.
  destruct (scan_returns env clock 0 entries init init_well_formed Hall) as (m & -> & _).
  by eexists.
Qed.

(** X9.  [parse_access_log] of the traffic analyzer returns its metrics
    for a log on whose lines the referrer functions and [timestamp()]
    return.  Whenever it returns metrics, [total_hits] is the number of
    matched lines that are not skipped as internal, [bot_hits] the number
    of those whose user agent [is_bot] accepts, and [human_hits] the
    rest; the counters of user agents, hours, weekdays, status codes,
    file types and referrer types each add up to [total_hits], [paths]
    has [total_hits] records, the page counter and the referrer counter
    add up to at most [total_hits], the search engines to at most the
    referrers, the keywords to at most the search engines, and the
    browser, system and device counters to one number, which is at most
    [human_hits]. *)
Theorem traffic_counters_add_up (clock : nat -> Z) (entries : list log_entry) :
  (Forall (fun r => forall now, line_returns env now r = true) entries ->
   is_Some (parse_access_log env clock entries))
  /\ forall m,
       parse_access_log env clock entries = Some m ->
       total_hits m = Z.of_nat (length (kept (is_internal_ip env) entries))
       /\ bot_hits m = Z.of_nat (length (kept_bots (is_internal_ip env) entries))
       /\ human_hits m = total_hits m - bot_hits m
       /\ sum_values (user_agents m) = total_hits m
       /\ sum_values (hourly_traffic m) = total_hits m
       /\ sum_values (daily_traffic m) = total_hits m
       /\ sum_values (status_codes m) = total_hits m
       /\ sum_values (file_types m) = total_hits m
       /\ Z.of_nat (length (Traffic.paths (tracker m))) = total_hits m
       /\ sum_values (pages m) <= total_hits m
       /\ sum_values (referrer_types m) = total_hits m
       /\ sum_values (search_keywords m) <= sum_values (search_engines m)
       /\ sum_values (search_engines m) <= sum_values (referrers m)
       /\ sum_values (referrers m) <= total_hits m
       /\ sum_values (browsers m) = sum_values (os m)
       /\ sum_values (os m) = sum_values (devices m)
       /\ sum_values (devices m) <= human_hits m.
Proof.
  split; [apply parse_access_log_returns|]. intros m' Hp.
  destruct (parse_access_log_counters clock entries m' Hp) as (m & -> & Hok & Ht & Hb).
  destruct Hok as (Hsum & _ & _ & Hua & Hhour & Hday & Hstatus & Hft & Hpaths & Hpages
                   & Hrt & Hkw & Hse & Hrf & Hbr & Hos & Hdev & _).
  unfold finish.
  cbn [total_hits bot_hits human_hits user_agents hourly_traffic daily_traffic
       status_codes file_types pages tracker Traffic.paths
       Traffic.record_remaining_exit_pages referrers referrer_types
       search_engines search_keywords browsers os devices].
  repeat (split; [done || lia|]). done.
Qed.

(** X10.  Whenever [parse_access_log] of the traffic analyzer returns
    metrics, which it does for a log on whose lines the referrer
    functions and [timestamp()] return, every key of [hourly_traffic] is
    an hour from 0 to 23, every key of [daily_traffic] a weekday from 0
    to 6, and every count stored under such a key is positive. *)
Theorem traffic_hour_and_weekday_keys (clock : nat -> Z) (entries : list log_entry) :
  (Forall (fun r => forall now, line_returns env now r = true) entries ->
   is_Some (parse_access_log env clock entries))
  /\ forall m,
       parse_access_log env clock entries = Some m ->
       (forall h n, hourly_traffic m !! h = Some n -> 0 <= h <= 23 /\ 0 < n)
       /\ (forall d n, daily_traffic m !! d = Some n -> 0 <= d <= 6 /\ 0 < n).
Proof.
  split; [apply parse_access_log_returns|]. intros m' Hp.
  destruct (parse_access_log_counters clock entries m' Hp) as (m & -> & Hok & _).
  destruct Hok as (_ & _ & _ & _ & _ & _ & _ & _ & _ & _ & _ & _ & _ & _ & _ & _ & _
                   & Hhours & Hdays & _).
  by split.
Qed.

Lemma bounce_counters_bounds (ss : gmap string (list Traffic.visit)) :
  0 <= (Traffic.bounce_counters ss).1 <= (Traffic.bounce_counters ss).2
  /\ (Traffic.bounce_counters ss).2 = Z.of_nat (size ss).
Proof.
  unfold Traffic.bounce_counters. rewrite bounce_counters_fold. cbn [fst snd].
  rewrite length_map_to_list.
  pose proof (List.filter_length_le
                (fun kv : string * list Traffic.visit =>
                   (size (Traffic.unique_pages kv.2) =? 1)%nat) (map_to_list ss)) as Hle.
  rewrite length_map_to_list in Hle. lia.
Qed.

(** X11.  Whenever [parse_access_log] of the traffic analyzer returns
    metrics, which it does for a log on whose lines the referrer
    functions and [timestamp()] return, the clients with a session are
    the clients counted in [unique_ips], so the number of sessions that
    [calculate_bounce_rate] divides by is the number of distinct client
    addresses. *)
Theorem traffic_bounce_rate_counts_clients (clock : nat -> Z) (entries : list log_entry) :
  (Forall (fun r => forall now, line_returns env now r = true) entries ->
   is_Some (parse_access_log env clock entries))
  /\ forall m,
       parse_access_log env clock entries = Some m ->
       dom (Traffic.sessions (tracker m)) = unique_ips m
       /\ (Traffic.bounce_counters (Traffic.sessions (tracker m))).2
          = Z.of_nat (size (unique_ips m)).
Proof.
  split; [apply parse_access_log_returns|]. intros m' Hp.
  destruct (parse_access_log_counters clock entries m' Hp) as (m & -> & Hok & _).
  destruct Hok as (_ & _ & _ & _ & _ & _ & _ & _ & _ & _ & _ & _ & _ & _ & _ & _ & _
                   & _ & _ & Hips & _).
  unfold finish. cbn [tracker unique_ips Traffic.sessions Traffic.record_remaining_exit_pages].
  split; [done|].
  rewrite (proj2 (bounce_counters_bounds _)), Hips. by rewrite size_dom.
Qed.

End TrafficCounters.

(** X12.  Whatever the sessions, the bounce rate that
    [calculate_bounce_rate] returns is a percentage between 0 and 100. *)
Theorem bounce_rate_is_a_percentage (ss : gmap string (list Traffic.visit)) :
  (0 <= Traffic.calculate_bounce_rate ss <= 100)%Q.
Proof.
  unfold Traffic.calculate_bounce_rate.
  pose proof (bounce_counters_bounds ss) as [Hb _].
  destruct (Traffic.bounce_counters ss) as [single total]. cbn [fst snd] in Hb.
  destruct (Z.gtb_spec total 0) as [Hpos|_]; [|split; unfold Qle; simpl; lia].
  destruct total as [|t|t]; try lia.
  split; unfold Qle, Qdiv, Qmult, Qinv, inject_Z; simpl; nia.
Qed.

(** ** [is_bot] of the traffic analyzer *)

Section BotDetection.
Import TrafficLog.

Lemma prefix_spec (sub s : string) :
  String.prefix sub s = true <-> exists b, s = (sub ++ b)%string.
Proof.
  revert s. induction sub as [|c sub IH]; intros s.
  - split; [intros _; by exists s|]. by destruct s.
  - destruct s as [|d s]; simpl.
    + split; [done|]. intros [b Hb]. by rewrite string_app_cons in Hb.
    + destruct (Ascii.ascii_dec c d) as [->|Hne].
      * rewrite IH. split; intros [b Hb]; exists b.
        -- by rewrite string_app_cons, Hb.
        -- rewrite string_app_cons in Hb. by injection Hb.
      * split; [done|]. intros [b Hb]. rewrite string_app_cons in Hb. congruence.
Qed.

(** [sub in s] holds exactly when [s] is [a + sub + b] for some [a], [b]. *)
Lemma contains_spec (sub s : string) :
  Py.contains sub s = true <-> exists a b, s = (a ++ sub ++ b)%string.
Proof.
  induction s as [|c s IH].
  - cbn [Py.contains]. rewrite orb_false_r, prefix_spec. split.
    + intros [b Hb]. by exists EmptyString, b.
    + intros (a & b & Hab). destruct a as [|x a]; [by exists b|].
      by rewrite string_app_cons in Hab.
  - cbn [Py.contains]. rewrite orb_true_iff, prefix_spec, IH. split.
    + intros [[b Hb]|(a & b & Hab)].
      * by exists EmptyString, b.
      * exists (String c a), b. by rewrite string_app_cons, Hab.
    + intros (a & b & Hab). destruct a as [|x a].
      * left. by exists b.
      * right. rewrite string_app_cons in Hab. injection Hab as _ Hab. by exists a, b.
Qed.

Lemma lower_app (a b : string) : Py.lower (a ++ b) = (Py.lower a ++ Py.lower b)%string.
Proof.
  induction a as [|c a IH]; [done|].
  rewrite string_app_cons. cbn [Py.lower]. by rewrite IH, string_app_cons.
Qed.

(** X13.  [is_bot] accepts a user agent exactly when its lower-case form
    has one of the patterns of [BOT_PATTERNS] as a substring. *)
Theorem is_bot_substring_of_lowercase (user_agent : string) :
  is_bot user_agent = true
  <-> exists pattern a b,
        In pattern BOT_PATTERNS /\ Py.lower user_agent = (a ++ pattern ++ b)%string.
Proof.
  unfold is_bot. rewrite existsb_exists. split.
  - intros (pattern & Hin & Hc). apply contains_spec in Hc as (a & b & Hab).
    by exists pattern, a, b.
  - intros (pattern & a & b & Hin & Hab). exists pattern. split; [done|].
    apply contains_spec. by exists a, b.
Qed.

(** X14.  The pattern [moz] makes [is_bot] accept every user agent that
    contains the product token [Mozilla], whatever stands before and
    after it. *)
Theorem is_bot_accepts_mozilla (a b : string) :
  is_bot (a ++ "Mozilla" ++ b) = true.
Proof.
  unfold is_bot. apply existsb_exists. exists "moz". split; [cbn; tauto|].
  apply contains_spec. rewrite !lower_app.
  exists (Py.lower a), ("illa" ++ Py.lower b)%string.
  change (Py.lower "Mozilla") with ("moz" ++ "illa")%string.
  by rewrite !string_app_assoc.
Qed.

End BotDetection.

(** ** The security score and the scan behind it *)

(** X15.  The security score never falls below 10 (the final
    [max(0, ...)] never takes effect), and it does not rise when any of
    the three counts grows. *)
Theorem security_score_floor_and_monotone (a f s a' f' s' : Z) :
  a <= a' -> f <= f' -> s <= s' ->
  10 <= Security.score_of_counts a' f' s' <= Security.score_of_counts a f s
  /\ Security.score_of_counts a f s <= 100.
Proof.
  intros Ha Hf Hs. unfold Security.score_of_counts. cbv zeta.
  destruct (Z.gtb_spec a 0), (Z.gtb_spec f 0), (Z.gtb_spec s 0),
    (Z.gtb_spec a' 0), (Z.gtb_spec f' 0), (Z.gtb_spec s' 0); lia.
Qed.

Lemma security_score_floor_and_monotone_witness :
  10 <= Security.score_of_counts 60 4 10 <= Security.score_of_counts 7 1 3
  /\ Security.score_of_counts 7 1 3 <= 100.
Proof.
  apply (security_score_floor_and_monotone 7 1 3 60 4 10); lia.
Defined.

Section SecurityScan.
Import TrafficLog(log_entry, le_ip, le_time_str, le_request, le_status_code,
                  le_referrer, le_user_agent).
Import SecurityLog SecurityLogInv.

Lemma event_count_app ty a b :
  event_count ty (a ++ b) = event_count ty a + event_count ty b.
Proof. unfold event_count. rewrite List.filter_app, length_app. lia. Qed.

Lemma client_event_count_app ty ip a b :
  client_event_count ty ip (a ++ b)
  = client_event_count ty ip a + client_event_count ty ip b.
Proof. unfold client_event_count. rewrite List.filter_app, length_app. lia. Qed.

Lemma event_count_repeat ty (e : Security.security_event) {A} (l : list A) :
  event_count ty (map (fun _ => e) l)
  = if String.eqb (Security.event_type e) ty then Z.of_nat (length l) else 0.
Proof.
  unfold event_count. induction l as [|x l IH]; simpl.
  - by destruct (String.eqb _ _).
  - destruct (String.eqb (Security.event_type e) ty); simpl in *; lia.
Qed.

Lemma client_event_count_repeat ty ip (e : Security.security_event) {A} (l : list A) :
  client_event_count ty ip (map (fun _ => e) l)
  = if String.eqb (Security.event_type e) ty && String.eqb (Security.ev_ip e) ip
    then Z.of_nat (length l) else 0.
Proof.
  unfold client_event_count. induction l as [|x l IH]; simpl.
  - by destruct (_ && _).
  - destruct (_ && _); simpl in *; lia.
Qed.

Lemma sum_values_foldl_incr `{Countable K} {A} (f : A -> K) (l : list A) (c : gmap K Z) :
  sum_values (foldl (fun c x => incr (f x) c) c l) = sum_values c + Z.of_nat (length l).
Proof.
  revert c. induction l as [|x l IH]; intros c; simpl; [lia|].
  rewrite IH, sum_values_incr. lia.
Qed.

(** The loop over the sensitive resources adds one to the counter and
    one event for every resource that occurs in the URL. *)
Lemma record_sensitive_spec mk url c events :
  exists c',
    record_sensitive mk url (c, events)
    = (c', events ++ map (fun _ => mk "Sensitive Resource Access") (matching_resources url))
    /\ sum_values c' = sum_values c + Z.of_nat (length (matching_resources url)).
Proof.
  unfold record_sensitive, matching_resources.
  generalize sensitive_resources as l. intros l. revert c events.
  induction l as [|resource l IH]; intros c events; simpl.
  - exists c. rewrite app_nil_r. split; [done|lia].
  - destruct (Py.contains resource url); simpl.
    + destruct (IH (incr url c) (events ++ [mk "Sensitive Resource Access"]))
        as (c' & -> & Hsum).
      exists c'. rewrite <- app_assoc. split; [done|].
      rewrite Hsum, sum_values_incr. lia.
    + apply IH.
Qed.

(** The metrics after a line that is not skipped. *)
Lemma process_public now r m :
  is_private_ip (le_ip r) = false ->
  exists timestamp hour sensitive,
    let ip := le_ip r in
    let url := request_url (le_request r) in
    let mk (event_type : string) : Security.security_event :=
      {| Security.ev_timestamp := timestamp; Security.ev_ip := ip;
         Security.event_type := event_type; Security.ev_url := url;
         Security.ev_status_code := le_status_code r |} in
    let auth := existsb (Z.eqb (le_status_code r)) [401; 403] in
    let failures := if auth then incr ip (ip_auth_failures m) else ip_auth_failures m in
    let repeated := auth && (3 <=? count failures ip) in
    let appended := default [] (ip_request_times m !! ip) ++ [timestamp] in
    let times := if (100 <? length appended)%nat then last_100 appended else appended in
    let frequent :=
      (60 <? length (List.filter
                       (fun t => (timestamp - t <? 60 * TimestampParser.us_per_second)%Z)
                       times))%nat in
    let high := if frequent then incr ip (high_frequency_ips m) else high_frequency_ips m in
    let first_time := frequent && (count high ip =? 1) in
    let threats := threats_of r in
    let attacked := match threats with [] => false | _ :: _ => true end in
    total_requests (process now r m) = total_requests m + 1
    /\ status_codes (process now r m) = incr (le_status_code r) (status_codes m)
    /\ ip_auth_failures (process now r m) = failures
    /\ security_events (process now r m)
       = security_events m
         ++ (if repeated then [mk "Authentication Failure"] else [])
         ++ map (fun _ => mk "Sensitive Resource Access") (matching_resources url)
         ++ (if first_time then [mk "Rate Limit Exceeded"] else [])
         ++ (if attacked then [mk "Attack Detected"] else [])
    /\ sensitive_urls_accessed (process now r m) = sensitive
    /\ sum_values sensitive
       = sum_values (sensitive_urls_accessed m)
         + Z.of_nat (length (matching_resources url))
    /\ ip_request_times (process now r m) = <[ip := times]> (ip_request_times m)
    /\ high_frequency_ips (process now r m) = high
    /\ attack_types (process now r m)
       = foldl (fun c threat => incr threat c) (attack_types m) threats
    /\ top_attack_sources (process now r m)
       = foldl (fun c (_ : string) => incr ip c) (top_attack_sources m) threats
    /\ attack_time_distribution (process now r m)
       = foldl (fun c (_ : string) => incr hour c) (attack_time_distribution m) threats
    /\ suspicious_user_agents (process now r m)
       = (if attacked then incr (le_user_agent r) (suspicious_user_agents m)
          else suspicious_user_agents m)
    /\ suspicious_requests (process now r m)
       = (if attacked && (length (suspicious_requests m) <? 100)%nat
          then suspicious_requests m ++ [(ip, le_request r, threats)]
          else suspicious_requests m).
Proof.
  intros Hpub. unfold process. rewrite Hpub.
  destruct (TimestampParser.parse_time now (le_time_str r)) as [[timestamp hour] dow].
  match goal with
  | |- context [record_sensitive ?mk ?url (?c, ?evs)] =>
      destruct (record_sensitive_spec mk url c evs) as (sensitive & Hrs & Hsum);
      rewrite Hrs
  end.
  exists timestamp, hour, sensitive. cbv zeta.
  cbn [total_requests status_codes ip_auth_failures security_events
       sensitive_urls_accessed ip_request_times high_frequency_ips attack_types
       top_attack_sources attack_time_distribution suspicious_user_agents
       suspicious_requests].
  fold (threats_of r).
  do 3 (split; [done|]).
  split.
  { destruct (existsb _ _ && _), (_ && _), (threats_of r);
      rewrite <- ?app_assoc, ?app_nil_r; simpl; rewrite ?app_nil_r; done. }
  repeat (split; [done|]). done.
Qed.

Lemma event_count_opt ty (b : bool) e :
  event_count ty (if b then [e] else [])
  = if b && String.eqb (Security.event_type e) ty then 1 else 0.
Proof. unfold event_count. destruct b; simpl; [|done]. by destruct (String.eqb _ _). Qed.

Lemma client_event_count_opt ty ip (b : bool) e :
  client_event_count ty ip (if b then [e] else [])
  = if b && (String.eqb (Security.event_type e) ty && String.eqb (Security.ev_ip e) ip)
    then 1 else 0.
Proof. unfold client_event_count. destruct b; simpl; [|done]. by destruct (_ && _). Qed.

Lemma last_100_length {A} (l : list A) :
  (100 < length l)%nat -> length (last_100 l) = 100%nat.
Proof. intros Hl. unfold last_100. rewrite length_drop. lia. Qed.

Lemma lookup_incr_ne `{Countable K} (c : gmap K Z) (k k' : K) :
  k <> k' -> incr k c !! k' = c !! k'.
Proof. intros Hne. unfold incr. by rewrite lookup_insert_ne. Qed.

Ltac event_types :=
  cbn [Security.event_type Security.ev_ip String.eqb Ascii.eqb Bool.eqb andb];
  rewrite ?andb_false_r; cbn [andb].

Lemma process_scan_ok now r m : scan_ok m -> scan_ok (process now r m).
Proof.
  intros (Htop & Htime & Hua & Hreq & Hsens & Hauth & Htimes & Hrate).
  destruct (is_private_ip (le_ip r)) eqn:Hpub.
  { unfold process. rewrite Hpub. unfold scan_ok.
    cbn [security_events top_attack_sources attack_types attack_time_distribution
         suspicious_user_agents suspicious_requests sensitive_urls_accessed
         ip_auth_failures ip_request_times high_frequency_ips].
    do 7 (split; [assumption|]). assumption. }
  destruct (process_public now r m Hpub) as (timestamp & hour & sensitive & Hp).
  cbv zeta in Hp.
  destruct Hp as (_ & _ & Hfail & Hev & Hs & Hssum & Hrt & Hhigh & Hat & Htas & Hatd
                  & Hsua & Hsr).
  unfold scan_ok.
  rewrite Hfail, Hev, Hs, Hrt, Hhigh, Hat, Htas, Hatd, Hsua, Hsr.
  rewrite !event_count_app, !event_count_opt, !event_count_repeat.
  event_types.
  set (attacked := match threats_of r with [] => false | _ :: _ => true end).
  split.
  { rewrite (sum_values_foldl_incr (fun _ : string => le_ip r)),
      (sum_values_foldl_incr (fun threat : string => threat)). lia. }
  split.
  { rewrite (sum_values_foldl_incr (fun _ : string => hour)),
      (sum_values_foldl_incr (fun threat : string => threat)). lia. }
  split.
  { destruct attacked; [rewrite sum_values_incr|]; simpl; lia. }
  split.
  { destruct attacked; simpl; [|lia].
    destruct (Nat.ltb_spec (length (suspicious_requests m)) 100);
      [rewrite length_app; simpl|]; lia. }
  split.
  { rewrite Hssum. lia. }
  split.
  { intros ip. destruct (Hauth ip) as [Hcount Hevents].
    rewrite !client_event_count_app, !client_event_count_opt, !client_event_count_repeat.
    event_types.
    destruct (existsb (Z.eqb (le_status_code r)) [401; 403]); cbn [andb].
    - destruct (String.eqb_spec (le_ip r) ip) as [<-|Hne].
      + rewrite count_incr_eq.
        destruct (Z.leb_spec 3 (count (ip_auth_failures m) (le_ip r) + 1)); simpl; lia.
      + rewrite count_incr_ne by done. rewrite andb_false_r. simpl. lia.
    - simpl. lia. }
  split.
  { intros ip times. destruct (decide (le_ip r = ip)) as [<-|Hne].
    - rewrite lookup_insert_eq. intros [= <-].
      set (appended := default [] (ip_request_times m !! le_ip r) ++ [timestamp]).
      assert (1 <= length appended <= 101)%nat as Hlen.
      { subst appended. rewrite length_app. simpl.
        destruct (ip_request_times m !! le_ip r) as [old|] eqn:Hold; simpl; [|lia].
        apply Htimes in Hold. lia. }
      destruct (Nat.ltb_spec 100 (length appended)); [rewrite last_100_length|]; lia.
    - rewrite lookup_insert_ne by done. apply Htimes. }
  intros ip. specialize (Hrate ip).
  rewrite !client_event_count_app, !client_event_count_opt, !client_event_count_repeat.
  event_types.
  match goal with |- context [(60 <? ?n)%nat] => destruct (60 <? n)%nat end; cbn [andb].
  - destruct (String.eqb_spec (le_ip r) ip) as [<-|Hne].
    + rewrite count_incr_eq. unfold incr. rewrite lookup_insert_eq.
      unfold count in *.
      destruct (high_frequency_ips m !! le_ip r) as [n|]; simpl in *.
      * destruct (Z.eqb_spec (n + 1) 1); simpl; lia.
      * lia.
    + rewrite lookup_incr_ne by done. rewrite andb_false_r.
      destruct (high_frequency_ips m !! ip); simpl; lia.
  - destruct (high_frequency_ips m !! ip); simpl; lia.
Qed.

(** What one line adds to the counts. *)
Lemma process_counts now r m :
  total_requests (process now r m) = total_requests m + 1
  /\ sum_values (status_codes (process now r m))
     = sum_values (status_codes m) + Z.of_nat (length (kept [r]))
  /\ sum_values (attack_types (process now r m))
     = sum_values (attack_types m) + threat_total (kept [r])
  /\ event_count "Attack Detected" (security_events (process now r m))
     = event_count "Attack Detected" (security_events m)
       + Z.of_nat (length (attacked (kept [r])))
  /\ sum_values (sensitive_urls_accessed (process now r m))
     = sum_values (sensitive_urls_accessed m) + sensitive_total (kept [r])
  /\ (forall ip,
        count (ip_auth_failures (process now r m)) ip
        = count (ip_auth_failures m) ip + Z.of_nat (length (auth_lines ip (kept [r])))).
Proof.
  unfold kept, attacked, auth_lines, threat_total, sensitive_total. cbn [List.filter].
  destruct (is_private_ip (le_ip r)) eqn:Hpub; cbn [negb List.filter length foldr].
  { unfold process. rewrite Hpub.
    cbn [total_requests status_codes attack_types security_events
         sensitive_urls_accessed ip_auth_failures].
    repeat (split; [lia|]). intros ip. lia. }
  destruct (process_public now r m Hpub) as (timestamp & hour & sensitive & Hp).
  cbv zeta in Hp.
  destruct Hp as (Htotal & Hstatus & Hfail & Hev & Hs & Hssum & _ & _ & Hat & _).
  rewrite Htotal, Hstatus, Hfail, Hev, Hs, Hat, Hssum.
  rewrite !event_count_app, !event_count_opt, !event_count_repeat.
  event_types.
  rewrite sum_values_incr, (sum_values_foldl_incr (fun threat : string => threat)).
  do 3 (split; [lia|]).
  split; [destruct (threats_of r); simpl; lia|].
  split; [lia|].
  intros ip.
  destruct (existsb (Z.eqb (le_status_code r)) [401; 403]).
  - destruct (String.eqb_spec (le_ip r) ip) as [<-|Hne]; simpl.
    + rewrite count_incr_eq. lia.
    + rewrite count_incr_ne by done. lia.
  - rewrite andb_false_r. simpl. lia.
Qed.

Lemma security_kept_cons r entries : kept (r :: entries) = kept [r] ++ kept entries.
Proof. unfold kept. cbn [List.filter]. by destruct (negb _). Qed.

Lemma threat_total_app a b : threat_total (a ++ b) = threat_total a + threat_total b.
Proof. unfold threat_total. induction a as [|r a IH]; simpl; lia. Qed.

Lemma sensitive_total_app a b :
  sensitive_total (a ++ b) = sensitive_total a + sensitive_total b.
Proof. unfold sensitive_total. induction a as [|r a IH]; simpl; lia. Qed.

Lemma scan_counts clock i entries m :
  scan_ok m ->
  let m' := scan clock i entries m in
  scan_ok m'
  /\ total_requests m' = total_requests m + Z.of_nat (length entries)
  /\ sum_values (status_codes m')
     = sum_values (status_codes m) + Z.of_nat (length (kept entries))
  /\ sum_values (attack_types m')
     = sum_values (attack_types m) + threat_total (kept entries)
  /\ event_count "Attack Detected" (security_events m')
     = event_count "Attack Detected" (security_events m)
       + Z.of_nat (length (attacked (kept entries)))
  /\ sum_values (sensitive_urls_accessed m')
     = sum_values (sensitive_urls_accessed m) + sensitive_total (kept entries)
  /\ (forall ip,
        count (ip_auth_failures m') ip
        = count (ip_auth_failures m) ip + Z.of_nat (length (auth_lines ip (kept entries)))).
Proof.
  revert i m. induction entries as [|r rest IH]; intros i m Hok; cbn [scan].
  - cbn. repeat (split; [done || lia|]). intros ip. lia.
  - destruct (IH (S i) (process (clock i) r m) (process_scan_ok _ _ _ Hok))
      as (Hok' & Ht & Hs & Ha & He & Hsen & Hauth).
    destruct (process_counts (clock i) r m) as (Ht1 & Hs1 & Ha1 & He1 & Hsen1 & Hauth1).
    cbv zeta. split; [done|].
    rewrite Ht, Hs, Ha, He, Hsen, Ht1, Hs1, Ha1, He1, Hsen1.
    rewrite (security_kept_cons r rest).
    unfold attacked, auth_lines.
    rewrite threat_total_app, sensitive_total_app, !List.filter_app, !length_app.
    cbn [length].
    repeat (split; [lia|]). intros ip.
    rewrite Hauth, Hauth1. unfold auth_lines. rewrite List.filter_app, length_app. lia.
Qed.

Lemma init_scan_ok : scan_ok init.
Proof.
  unfold scan_ok, init.
  cbn [security_events top_attack_sources attack_types attack_time_distribution
       suspicious_user_agents suspicious_requests sensitive_urls_accessed
       ip_auth_failures ip_request_times high_frequency_ips].
  do 5 (split; [reflexivity|]).
  split; [intros ip; unfold count; rewrite lookup_empty; split; [done|reflexivity]|].
  split; [intros ip times Hl; by rewrite lookup_empty in Hl|].
  intros ip. by rewrite lookup_empty.
Qed.

Lemma parse_access_log_counts clock entries :
  let m := parse_access_log clock entries in
  scan_ok m
  /\ total_requests m = Z.of_nat (length entries)
  /\ sum_values (status_codes m) = Z.of_nat (length (kept entries))
  /\ sum_values (attack_types m) = threat_total (kept entries)
  /\ event_count "Attack Detected" (security_events m)
     = Z.of_nat (length (attacked (kept entries)))
  /\ sum_values (sensitive_urls_accessed m) = sensitive_total (kept entries)
  /\ (forall ip,
        count (ip_auth_failures m) ip = Z.of_nat (length (auth_lines ip (kept entries)))).
Proof.
  destruct (scan_counts clock 0%nat entries init init_scan_ok)
    as (Hok & Ht & Hs & Ha & He & Hsen & Hauth).
  cbv zeta. unfold parse_access_log. split; [done|].
  rewrite Ht, Hs, Ha, He, Hsen. unfold init.
  cbn [total_requests status_codes attack_types security_events sensitive_urls_accessed].
  do 5 (split; [reflexivity|]).
  intros ip. rewrite Hauth. unfold init, count. cbn [ip_auth_failures].
  rewrite lookup_empty. simpl. lia.
Qed.

Lemma threats_of_length r : (length (threats_of r) <= 6)%nat.
Proof.
  unfold threats_of, ThreatMatcher.detect_threats.
  rewrite detect_threats_in_spec by apply threat_categories_distinct.
  rewrite length_map. apply List.filter_length_le.
Qed.

Lemma threat_total_bounds entries :
  Z.of_nat (length (attacked entries)) <= threat_total entries
  <= 6 * Z.of_nat (length (attacked entries)).
Proof.
  unfold threat_total, attacked. induction entries as [|r rest IH]; simpl; [lia|].
  pose proof (threats_of_length r) as Hlen.
  destruct (threats_of r); simpl in *; lia.
Qed.

Lemma auth_failures_event_count (m : metrics) :
  Security.auth_failures (score_metrics m)
  = event_count "Authentication Failure" (security_events m).
Proof.
  unfold Security.auth_failures, event_count, score_metrics. cbn [Security.security_events].
  induction (security_events m) as [|e l IH]; [done|].
  cbn [foldr List.filter]. destruct (String.eqb _ _); cbn [length]; lia.
Qed.

(** X16.  [total_requests] of the security analyzer counts every matched
    line, the private clients included, while the status code counter
    counts only the lines that are not skipped as private. *)
Theorem security_total_requests_counts_skipped_lines
    (clock : nat -> Z) (entries : list log_entry) :
  let m := parse_access_log clock entries in
  total_requests m = Z.of_nat (length entries)
  /\ sum_values (status_codes m) = Z.of_nat (length (kept entries))
  /\ sum_values (status_codes m) <= total_requests m.
Proof.
  destruct (parse_access_log_counts clock entries) as (_ & Ht & Hs & _).
  cbv zeta. rewrite Ht, Hs. repeat split.
  pose proof (List.filter_length_le
                (fun r => negb (is_private_ip (le_ip r))) entries) as Hle.
  unfold kept. lia.
Qed.

(** X17.  The attack count that the security score reads is the number of
    threat categories summed over the lines that are not skipped, not the
    number of lines with a threat: it lies between that number and six
    times it.  The counters of attack sources and attack hours have the
    same total; the "Attack Detected" events and the suspicious user agent
    counts are one per line with a threat, and at most 100 requests are
    stored. *)
Theorem security_attack_count_counts_categories
    (clock : nat -> Z) (entries : list log_entry) :
  let m := parse_access_log clock entries in
  let lines := Z.of_nat (length (attacked (kept entries))) in
  Security.attack_count (score_metrics m) = threat_total (kept entries)
  /\ lines <= threat_total (kept entries) <= 6 * lines
  /\ sum_values (top_attack_sources m) = threat_total (kept entries)
  /\ sum_values (attack_time_distribution m) = threat_total (kept entries)
  /\ event_count "Attack Detected" (security_events m) = lines
  /\ sum_values (suspicious_user_agents m) = lines
  /\ Z.of_nat (length (suspicious_requests m)) = Z.min 100 lines.
Proof.
  destruct (parse_access_log_counts clock entries) as (Hok & _ & _ & Ha & He & _).
  destruct Hok as (Htop & Htime & Hua & Hreq & _).
  cbv zeta. unfold Security.attack_count, score_metrics. cbn [Security.attack_types].
  rewrite Htop, Htime, Hua, Hreq, He, Ha.
  split; [done|]. split; [apply threat_total_bounds|]. by repeat split.
Qed.

(** X18.  For every client, the scan records an "Authentication Failure"
    event for the third and every later line of the client with status
    401 or 403: the number of these events is the number of such lines
    minus two, or zero.  The count of authentication failures that the
    security score reads is the number of these events, so the first two
    failures of each client are not counted. *)
Theorem security_auth_failure_events_from_third
    (clock : nat -> Z) (entries : list log_entry) (ip : string) :
  let m := parse_access_log clock entries in
  client_event_count "Authentication Failure" ip (security_events m)
  = Z.max 0 (Z.of_nat (length (auth_lines ip (kept entries))) - 2)
  /\ Security.auth_failures (score_metrics m)
     = event_count "Authentication Failure" (security_events m).
Proof.
  destruct (parse_access_log_counts clock entries)
    as (Hok & _ & _ & _ & _ & _ & Hauth).
  destruct Hok as (_ & _ & _ & _ & _ & Hev & _).
  cbv zeta. split; [|apply auth_failures_event_count].
  destruct (Hev ip) as [_ ->]. by rewrite Hauth.
Qed.

(** X19.  The count of sensitive accesses that the security score reads
    is the number of pairs of a line that is not skipped and a sensitive
    resource that occurs in its URL, which is also the number of
    "Sensitive Resource Access" events. *)
Theorem security_sensitive_access_counts_resources
    (clock : nat -> Z) (entries : list log_entry) :
  let m := parse_access_log clock entries in
  Security.sensitive_access (score_metrics m) = sensitive_total (kept entries)
  /\ event_count "Sensitive Resource Access" (security_events m)
     = sensitive_total (kept entries).
Proof.
  destruct (parse_access_log_counts clock entries)
    as (Hok & _ & _ & _ & _ & Hsen & _).
  destruct Hok as (_ & _ & _ & _ & Hev & _).
  cbv zeta. unfold Security.sensitive_access, score_metrics.
  cbn [Security.sensitive_urls_accessed]. by rewrite <- Hev, Hsen.
Qed.

(** X20.  A URL that contains [/administrator] is counted twice for one
    request, since [/admin] occurs in it as well. *)
Theorem sensitive_administrator_counted_twice (a b : string) :
  In "/admin" (matching_resources (a ++ "/administrator" ++ b))
  /\ In "/administrator" (matching_resources (a ++ "/administrator" ++ b))
  /\ (2 <= length (matching_resources (a ++ "/administrator" ++ b)))%nat.
Proof.
  assert (H1 : In "/admin" (matching_resources (a ++ "/administrator" ++ b))).
  { apply filter_In. split; [cbn; tauto|].
    apply contains_spec. by exists a, ("istrator" ++ b)%string. }
  assert (H2 : In "/administrator" (matching_resources (a ++ "/administrator" ++ b))).
  { apply filter_In. split; [cbn; tauto|].
    apply contains_spec. by exists a, b. }
  split; [done|]. split; [done|].
  destruct (matching_resources (a ++ "/administrator" ++ b)) as [|x [|y l]];
    [done| |simpl; lia].
  destruct H1 as [->|[]]. by destruct H2 as [H2|[]].
Qed.

(** X21.  After the scan, the list of request times kept for a client has
    between 1 and 100 entries, and a client has one "Rate Limit Exceeded"
    event if it is a key of [high_frequency_ips] and none otherwise,
    however often it exceeded the rate. *)
Theorem security_rate_limit_event_once_per_client
    (clock : nat -> Z) (entries : list log_entry) (ip : string) :
  let m := parse_access_log clock entries in
  (forall times, ip_request_times m !! ip = Some times -> (1 <= length times <= 100)%nat)
  /\ client_event_count "Rate Limit Exceeded" ip (security_events m)
     = (match high_frequency_ips m !! ip with Some _ => 1 | None => 0 end).
Proof.
  destruct (parse_access_log_counts clock entries) as (Hok & _).
  destruct Hok as (_ & _ & _ & _ & _ & _ & Htimes & Hrate).
  cbv zeta. split; [apply Htimes|].
  specialize (Hrate ip).
  destruct (high_frequency_ips (parse_access_log clock entries) !! ip);
    [apply Hrate|done].
Qed.

End SecurityScan.

(** ** Threat patterns that ordinary requests match *)

Section ThreatFalsePositives.
Import Regex ThreatMatcher.

Lemma list_ascii_of_string_app (a b : string) :
  list_ascii_of_string (a ++ b) = list_ascii_of_string a ++ list_ascii_of_string b.
Proof.
  induction a as [|c a IH]; [done|].
  rewrite string_app_cons. simpl. by rewrite IH.
Qed.

Lemma Matches_star_class p (w : list ascii) :
  forallb p w = true -> Matches (Star (Cls p)) w.
Proof.
  induction w as [|c w IH]; simpl; [constructor|].
  intros [Hc Hw]%andb_true_iff.
  apply (MStarApp (Cls p) [c] w); [by constructor|by apply IH].
Qed.

Lemma letter_in_range (c : ascii) :
  Py.is_lower c || Py.is_upper c = true -> range true "a" "z" c = true.
Proof.
  destruct c as [[] [] [] [] [] [] [] []]; try discriminate; reflexivity.
Qed.

(** A category is reported when one of its patterns is found in one of
    the targets. *)
Lemma detect_threats_reports category patterns pattern target request user_agent referrer :
  In (category, patterns) THREAT_PATTERNS ->
  In pattern patterns ->
  In target (targets request user_agent referrer) ->
  re_search pattern target = true ->
  In category (detect_threats request user_agent referrer).
Proof.
  intros Hitem Hpattern Htarget Hfound. unfold detect_threats.
  rewrite detect_threats_in_spec by apply threat_categories_distinct.
  apply in_map_iff. exists (category, patterns). split; [done|].
  apply filter_In. split; [done|].
  apply category_matches_spec. exists pattern, target.
  by rewrite !list_elem_of_In.
Qed.

(** X22.  A semicolon followed by optional blanks and a letter anywhere in
    the user agent makes [detect_threats] report "Command Injection",
    whatever the request and the referrer are. *)
Theorem detect_threats_flags_semicolon_and_letter
    (request referrer a blanks b : string) (c : ascii) :
  forallb Py.is_space (list_ascii_of_string blanks) = true ->
  Py.is_lower c || Py.is_upper c = true ->
  In "Command Injection"
     (detect_threats request (a ++ ";" ++ blanks ++ String c b) referrer).
Proof.
  intros Hblanks Hletter.
  apply (detect_threats_reports "Command Injection"
           ["(?i);\s*[a-z]+"; "(?i)\|\s*[a-z]+"] "(?i);\s*[a-z]+"
           (a ++ ";" ++ blanks ++ String c b)%string).
  - cbn. tauto.
  - by left.
  - right. by left.
  - apply re_search_spec. eexists. split; [reflexivity|].
    exists (list_ascii_of_string a),
           ([";"%char] ++ list_ascii_of_string blanks ++ ([c] ++ []) ++ []),
           (list_ascii_of_string b).
    split.
    { rewrite !list_ascii_of_string_app. simpl. by rewrite <- !app_assoc. }
    apply MSeq; [by constructor|].
    apply MSeq; [by apply Matches_star_class|].
    apply MSeq; [|constructor].
    apply MSeq; [|constructor].
    constructor. by apply letter_in_range.
Qed.

Lemma detect_threats_flags_semicolon_and_letter_witness :
  In "Command Injection"
     (detect_threats "GET / HTTP/1.1"
        ("Mozilla/5.0 (Windows NT 10.0" ++ ";" ++ " " ++ String "W" "in64; x64)") "-").
Proof.
  apply (detect_threats_flags_semicolon_and_letter
           "GET / HTTP/1.1" "-" "Mozilla/5.0 (Windows NT 10.0" " " "in64; x64)" "W");
    reflexivity.
Defined.

End ThreatFalsePositives.

(** ** Order of the percentiles *)

Section PercentileOrder.
Import Performance.

Lemma sorted_nth_le (l : list Q) (i j : nat) (a b : Q) :
  Sorted Qle l -> (i <= j)%nat ->
  nth_error l i = Some a -> nth_error l j = Some b -> (a <= b)%Q.
Proof.
  intros Hs. apply Sorted_StronglySorted in Hs; [|intros x y z; apply Qle_trans].
  revert i j. induction Hs as [|x l Hs IH Hall]; intros i j Hij Ha Hb.
  - by destruct i.
  - destruct i as [|i], j as [|j]; simpl in *; try lia.
    + injection Ha as <-. injection Hb as <-. apply Qle_refl.
    + injection Ha as <-. apply nth_error_In in Hb.
      by apply (proj1 (List.Forall_forall _ _) Hall).
    + apply (IH i j); [lia|done|done].
Qed.

Lemma percentile_index_monotone (p q : Q) (xs : list Q) :
  (0 <= p)%Q -> (p <= q)%Q -> (q < 1)%Q -> xs <> [] ->
  percentile_index p xs <= percentile_index q xs.
Proof.
  intros Hp Hpq Hq Hne.
  assert (Hq0 : (0 <= q)%Q) by (by apply (Qle_trans _ p)).
  assert (Hp1 : (p < 1)%Q) by (by apply (Qle_lt_trans _ q)).
  rewrite (proj1 (percentile_index_general p xs Hp Hp1 Hne)),
    (proj1 (percentile_index_general q xs Hq0 Hq Hne)).
  apply Qfloor_resp_le.
  rewrite !(Qmult_comm (inject_Z _)).
  apply Qmult_le_compat_r; [done|]. unfold Qle. simpl. lia.
Qed.

Lemma percentile_monotone (p q : Q) (xs : list Q) :
  (0 <= p)%Q -> (p <= q)%Q -> (q < 1)%Q -> xs <> [] ->
  exists a b, percentile p xs = Some a /\ percentile q xs = Some b /\ (a <= b)%Q.
Proof.
  intros Hp Hpq Hq Hne.
  assert (Hq0 : (0 <= q)%Q) by (by apply (Qle_trans _ p)).
  assert (Hp1 : (p < 1)%Q) by (by apply (Qle_lt_trans _ q)).
  destruct (percentile_some p xs Hp Hp1 Hne) as [a Ha].
  destruct (percentile_some q xs Hq0 Hq Hne) as [b Hb].
  exists a, b. split; [done|]. split; [done|].
  unfold percentile in Ha, Hb.
  pose proof (percentile_index_monotone p q xs Hp Hpq Hq Hne) as Hidx.
  apply (sorted_nth_le (sorted xs) (Z.to_nat (percentile_index p xs))
           (Z.to_nat (percentile_index q xs)) a b (proj1 (sorted_spec xs)));
    [lia|done|done].
Qed.

(** X23.  For a non-empty list of response times the three percentiles
    are defined and ordered: p90 is at most p95, and p95 at most p99. *)
Theorem percentiles_are_ordered (response_times : list Q) :
  response_times <> [] ->
  exists a b c,
    p90 response_times = Some a /\ p95 response_times = Some b
    /\ p99 response_times = Some c /\ (a <= b)%Q /\ (b <= c)%Q.
Proof.
  intros Hne.
  destruct (percentile_monotone (9 # 10) (95 # 100) response_times) as (a & b & Ha & Hb & Hab);
    try done.
  destruct (percentile_monotone (95 # 100) (99 # 100) response_times)
    as (b' & c & Hb' & Hc & Hbc); try done.
  rewrite Hb in Hb'. injection Hb' as <-.
  by exists a, b, c.
Qed.

Lemma percentiles_are_ordered_witness :
  exists a b c,
    p90 [3 # 1; 1 # 10; 12 # 10]%Q = Some a /\ p95 [3 # 1; 1 # 10; 12 # 10]%Q = Some b
    /\ p99 [3 # 1; 1 # 10; 12 # 10]%Q = Some c /\ (a <= b)%Q /\ (b <= c)%Q.
Proof.
  apply (percentiles_are_ordered [3 # 1; 1 # 10; 12 # 10]%Q). discriminate.
Defined.

(** X24.  When the list has so few samples that [N * (1 - p) < 1], the
    percentile is the largest sample: p90 of fewer than 10, p95 of fewer
    than 20 and p99 of fewer than 100 response times is the maximum. *)
Theorem percentile_of_few_samples_is_maximum (p : Q) (response_times : list Q) :
  (0 <= p)%Q -> (p < 1)%Q -> response_times <> [] ->
  (inject_Z (Z.of_nat (length response_times)) * (1 - p) < 1)%Q ->
  exists x,
    percentile p response_times = Some x
    /\ In x response_times
    /\ forall y, In y response_times -> (y <= x)%Q.
Proof.
  intros Hp0 Hp1 Hne Hfew.
  destruct (percentile_some p response_times Hp0 Hp1 Hne) as [x Hx].
  destruct (percentile_index_general p response_times Hp0 Hp1 Hne) as [Hidx Hb].
  destruct (sorted_spec response_times) as [Hsorted Hperm].
  exists x. split; [done|]. unfold percentile in Hx. split.
  { apply (Permutation_in _ (Permutation_sym Hperm)). by apply nth_error_In in Hx. }
  assert (Hlast : percentile_index p response_times
                  = Z.of_nat (length response_times) - 1).
  { set (n := Z.of_nat (length response_times)) in *.
    assert (n - 1 <= Qfloor (inject_Z n * p)) as Hge; [|lia].
    replace (n - 1) with (Qfloor (inject_Z (n - 1))) by apply Qfloor_Z.
    apply Qfloor_resp_le. clearbody n. clear -Hfew.
    destruct p as [pn pd].
    unfold Qlt, Qle, Qmult, Qminus, Qplus, Qopp, inject_Z in *. simpl in *. nia. }
  intros y Hy. apply (Permutation_in _ Hperm) in Hy.
  apply In_nth_error in Hy as [i Hi].
  assert (i < length (sorted response_times))%nat as Hlt
    by (apply nth_error_Some; congruence).
  rewrite sorted_length in Hlt.
  apply (sorted_nth_le (sorted response_times) i
           (Z.to_nat (percentile_index p response_times)) y x Hsorted);
    [lia|done|done].
Qed.

Lemma percentile_of_few_samples_is_maximum_witness :
  exists x,
    percentile (99 # 100) [3 # 1; 1 # 10; 12 # 10]%Q = Some x
    /\ In x [3 # 1; 1 # 10; 12 # 10]%Q
    /\ forall y, In y [3 # 1; 1 # 10; 12 # 10]%Q -> (y <= x)%Q.
Proof.
  apply (percentile_of_few_samples_is_maximum (99 # 100) [3 # 1; 1 # 10; 12 # 10]%Q);
    [by vm_compute|by vm_compute|discriminate|by vm_compute].
Defined.

End PercentileOrder.

(** ** Status categories of the performance analyzer *)

Section StatusCategories.
Import PerformanceLog.

Lemma range_spec (lo hi status : Z) :
  existsb (Z.eqb status) (range lo hi) = (lo <=? status) && (status <? hi).
Proof.
  apply eq_true_iff_eq. rewrite existsb_exists, andb_true_iff, Z.leb_le, Z.ltb_lt.
  unfold range. split.
  - intros (x & Hin & Heq). apply Z.eqb_eq in Heq as <-.
    apply in_map_iff in Hin as (i & <- & Hi). apply in_seq in Hi. lia.
  - intros [Hlo Hhi]. exists status. split; [|apply Z.eqb_refl].
    apply in_map_iff. exists (Z.to_nat (status - lo)). split; [lia|].
    apply in_seq. lia.
Qed.

Lemma category_of_spec (status : Z) :
  category_of STATUS_CATEGORIES status
  = if (200 <=? status) && (status <? 300) then "2xx"
    else if (300 <=? status) && (status <? 400) then "3xx"
    else if (400 <=? status) && (status <? 500) then "4xx"
    else if (500 <=? status) && (status <? 600) then "5xx"
    else "other".
Proof. unfold STATUS_CATEGORIES. cbn [category_of]. by rewrite !range_spec. Qed.

Lemma count_add_eq k v (d : gmap string Z) : count (add k v d) k = count d k + v.
Proof. unfold count at 1, add. by rewrite lookup_insert_eq. Qed.

Lemma count_add_ne k k' v (d : gmap string Z) : k <> k' -> count (add k v d) k' = count d k'.
Proof. intros Hne. unfold count, add. by rewrite lookup_insert_ne. Qed.

Lemma add_is_Some k k' v (d : gmap string Z) : is_Some (d !! k') -> is_Some (add k v d !! k').
Proof.
  intros Hk. unfold add. destruct (decide (k = k')) as [<-|Hne].
  - rewrite lookup_insert_eq. eauto.
  - by rewrite lookup_insert_ne.
Qed.

(** The loop over the items adds to a category the counts of its codes. *)
Lemma categories_fold (items : list (Z * Z)) (acc : gmap string Z) (category : string) :
  let result :=
    foldl (fun acc (item : Z * Z) => add (category_of STATUS_CATEGORIES item.1) item.2 acc)
          acc items in
  count result category
  = count acc category
    + foldr (fun (kv : Z * Z) s =>
               (if String.eqb (category_of STATUS_CATEGORIES kv.1) category
                then kv.2 else 0) + s) 0 items
  /\ (is_Some (acc !! category) -> is_Some (result !! category)).
Proof.
  revert acc. induction items as [|[k v] items IH]; intros acc; cbn [foldl foldr].
  - split; [lia|done].
  - destruct (IH (add (category_of STATUS_CATEGORIES k) v acc)) as [Hcount Hsome].
    cbv zeta in *. cbn [fst snd] in *. split.
    + rewrite Hcount.
      destruct (String.eqb_spec (category_of STATUS_CATEGORIES k) category) as [->|Hne].
      * rewrite count_add_eq. lia.
      * rewrite count_add_ne by done. lia.
    + intros Hk. by apply Hsome, add_is_Some.
Qed.

Lemma sum_where_perm (P : Z -> bool) (l1 l2 : list (Z * Z)) :
  l1 ≡ₚ l2 ->
  foldr (fun (kv : Z * Z) acc => (if P kv.1 then kv.2 else 0) + acc) 0 l1
  = foldr (fun (kv : Z * Z) acc => (if P kv.1 then kv.2 else 0) + acc) 0 l2.
Proof. induction 1; simpl; lia. Qed.

Lemma sum_where_insert (P : Z -> bool) (c : gmap Z Z) k v :
  sum_where P (<[k := v]> c) = sum_where P c + (if P k then v - count c k else 0).
Proof.
  unfold count, sum_where. destruct (c !! k) as [old|] eqn:Hk; simpl.
  - rewrite <- (insert_delete_eq c k v).
    rewrite (sum_where_perm P _ _ (map_to_list_insert (delete k c) k v (lookup_delete_eq c k))).
    rewrite <- (insert_delete_id c k old Hk) at 2.
    rewrite (sum_where_perm P _ _
               (map_to_list_insert (delete k c) k old (lookup_delete_eq c k))).
    simpl. destruct (P k); lia.
  - rewrite (sum_where_perm P _ _ (map_to_list_insert c k v Hk)).
    simpl. destruct (P k); lia.
Qed.

Lemma sum_where_incr (P : Z -> bool) (c : gmap Z Z) k :
  sum_where P (incr k c) = sum_where P c + (if P k then 1 else 0).
Proof. unfold incr. rewrite sum_where_insert. destruct (P k); lia. Qed.

Lemma scan_status_codes (P : Z -> bool) (entries : list log_entry) (m : metrics) :
  let m' := foldl (fun m r => process r m) m entries in
  requests m' = requests m + Z.of_nat (length entries)
  /\ sum_where P (status_codes m')
     = sum_where P (status_codes m)
       + Z.of_nat (length (List.filter (fun r => P (le_status_code r)) entries)).
Proof.
  revert m. induction entries as [|r rest IH]; intros m; cbn [foldl].
  - simpl. lia.
  - destruct (IH (process r m)) as [Hr Hs]. cbv zeta in *.
    rewrite Hr, Hs. unfold process.
    destruct (match Py.split_ws (le_request r) with
              | m0 :: u0 :: _ => (m0, u0)
              | _ => ("UNKNOWN", "UNKNOWN")
              end) as [method url].
    cbn [requests status_codes List.filter]. rewrite sum_where_incr.
    destruct (P (le_status_code r)); cbn [length]; lia.
Qed.

Lemma category_lookup (entries : list log_entry) (category : string) :
  is_Some (initial_categories !! category) ->
  status_categories (status_codes (parse_access_log entries)) !! category
  = Some (Z.of_nat (length (List.filter
                              (fun r => String.eqb (category_of STATUS_CATEGORIES
                                                      (le_status_code r)) category)
                              entries))).
Proof.
  intros Hkey. unfold status_categories.
  destruct (categories_fold (map_to_list (status_codes (parse_access_log entries)))
              initial_categories category) as [Hcount Hsome].
  cbv zeta in *. specialize (Hsome Hkey). destruct Hsome as [v Hv].
  rewrite Hv. f_equal. unfold count at 1 in Hcount. rewrite Hv in Hcount.
  cbn [default] in Hcount. unfold id in Hcount. rewrite Hcount.
  assert (Hinit : count initial_categories category = 0).
  { unfold count. destruct Hkey as [x Hx]. rewrite Hx. simpl.
    unfold initial_categories in Hx.
    repeat (apply lookup_insert_Some in Hx as [[_ <-]|[_ Hx]]; [done|]).
    by apply lookup_singleton_Some in Hx as [_ <-]. }
  rewrite Hinit.
  destruct (scan_status_codes
              (fun k => String.eqb (category_of STATUS_CATEGORIES k) category)
              entries init) as [_ Hs].
  cbv zeta in Hs. unfold parse_access_log. unfold sum_where in Hs.
  rewrite Hs. unfold init. cbn [status_codes]. rewrite map_to_list_empty. simpl. lia.
Qed.

Lemma filter_length_ext {A} (f g : A -> bool) (l : list A) :
  (forall x, f x = g x) -> length (List.filter f l) = length (List.filter g l).
Proof. intros Hfg. by rewrite (List.filter_ext f g Hfg). Qed.

Ltac status_cases :=
  repeat (match goal with
          | |- context [?a <=? ?b] => destruct (Z.leb_spec a b)
          | |- context [?a <? ?b] => destruct (Z.ltb_spec a b)
          end; cbn [andb orb length]; try lia);
  try reflexivity; try lia.

(** X25.  The summary of the performance analyzer puts every matched line
    into one status category: the entry [2xx] is the number of lines with
    a status from 200 to 299, and so on for [3xx], [4xx] and [5xx]; the
    entry [other] is the number of lines with a status below 200 or from
    600 on; and the five entries add up to [requests], the number of
    matched lines. *)
Theorem status_categories_partition_requests (entries : list log_entry) :
  let m := parse_access_log entries in
  let categories := status_categories (status_codes m) in
  categories !! "2xx" = Some (lines_in 200 300 entries)
  /\ categories !! "3xx" = Some (lines_in 300 400 entries)
  /\ categories !! "4xx" = Some (lines_in 400 500 entries)
  /\ categories !! "5xx" = Some (lines_in 500 600 entries)
  /\ categories !! "other" = Some (lines_outside entries)
  /\ lines_in 200 300 entries + lines_in 300 400 entries + lines_in 400 500 entries
     + lines_in 500 600 entries + lines_outside entries = requests m
  /\ requests m = Z.of_nat (length entries).
Proof.
  cbv zeta.
  assert (Hcat : forall category (P : Z -> bool),
            is_Some (initial_categories !! category) ->
            (forall status,
               String.eqb (category_of STATUS_CATEGORIES status) category = P status) ->
            status_categories (status_codes (parse_access_log entries)) !! category
            = Some (Z.of_nat (length (List.filter (fun r => P (le_status_code r))
                                                  entries)))).
  { intros category P Hkey HP. rewrite (category_lookup entries category Hkey).
    do 2 f_equal. apply filter_length_ext. intros r. apply HP. }
  unfold lines_in, lines_outside.
  split; [apply (Hcat "2xx" (fun status => (200 <=? status) && (status <? 300)));
          [by eexists|intros status; rewrite category_of_spec; status_cases]|].
  split; [apply (Hcat "3xx" (fun status => (300 <=? status) && (status <? 400)));
          [by eexists|intros status; rewrite category_of_spec; status_cases]|].
  split; [apply (Hcat "4xx" (fun status => (400 <=? status) && (status <? 500)));
          [by eexists|intros status; rewrite category_of_spec; status_cases]|].
  split; [apply (Hcat "5xx" (fun status => (500 <=? status) && (status <? 600)));
          [by eexists|intros status; rewrite category_of_spec; status_cases]|].
  split; [apply (Hcat "other" (fun status => (status <? 200) || (600 <=? status)));
          [by eexists|intros status; rewrite category_of_spec; status_cases]|].
  destruct (scan_status_codes (fun _ => true) entries init) as [Hr _].
  cbv zeta in Hr. unfold parse_access_log. rewrite Hr. unfold init. cbn [requests].
  split; [|lia].
  clear Hcat Hr. induction entries as [|r rest IH]; [done|].
  cbn [List.filter length].
  status_cases.
Qed.

End StatusCategories.


(** ** The content scan *)

Section ContentScan.
Import Content ContentInv.

Variable env : environment.

Abbreviation track := (Content.track env).
Abbreviation run := (Content.run env).
Abbreviation returns :=
  (Forall (fun e => timestamp_raises env (timestamp e) = false
                    /\ urlparse_raises env (url e) = false)).

Lemma content_track_lists yesterday e st st' :
  track yesterday e st = Some st' ->
  content_engagement st'
  = (match response_size e with
     | Some size =>
         <[url e := default [] (content_engagement st !! url e)
                    ++ [{| e_ip := ip e; e_timestamp := timestamp e;
                           estimated_reading_time := calculate_reading_time size |}]]>
           (content_engagement st)
     | None => content_engagement st
     end)
  /\ trending_content st'
     = (if timestamp e >? yesterday then trending_content st ++ [(url e, timestamp e)]
        else trending_content st).
Proof.
  unfold Content.track. intros Ht.
  destruct (bool_decide (url e ∉ urls st) && urlparse_raises env (url e)); [done|].
  destruct (ip_sessions st !! ip e) as [last_time|].
  - destruct (timestamp e - last_time >? session_timeout).
    + destruct (timestamp_raises env (timestamp e)); [done|]. by injection Ht as <-.
    + destruct (default [] (sessions st !! ip e)); [done|]. by injection Ht as <-.
  - destruct (timestamp_raises env (timestamp e)); [done|]. by injection Ht as <-.
Qed.

(** A step that returns has got past [extract_title_from_url]. *)
Lemma track_urlparse yesterday e st st' :
  track yesterday e st = Some st' ->
  (bool_decide (url e ∉ urls st) && urlparse_raises env (url e)) = false.
Proof.
  unfold Content.track.
  by destruct (bool_decide (url e ∉ urls st) && urlparse_raises env (url e)).
Qed.

(** One step of the two trackers on the same hit, where
    [extract_title_from_url] returns. *)
Lemma track_same_sessions yesterday e st tr :
  same_sessions st tr ->
  (bool_decide (url e ∉ urls st) && urlparse_raises env (url e)) = false ->
  match track yesterday e st,
        Traffic.track (timestamp_raises env) (traffic_hit e) tr with
  | Some st', Some tr' => same_sessions st' tr'
  | None, None => True
  | _, _ => False
  end.
Proof.
  intros [Hs Hi] Hurl.
  unfold Content.track, Traffic.track, Traffic.sessions_of, traffic_hit.
  cbn [Traffic.ip Traffic.timestamp Traffic.url Traffic.status_code].
  rewrite <- Hs, <- Hi, Hurl.
  destruct (ip_sessions st !! ip e) as [last_time|].
  - change Traffic.session_timeout with session_timeout.
    destruct (timestamp e - last_time >? session_timeout).
    + destruct (timestamp_raises env (timestamp e)); [done|]. split; cbn; congruence.
    + destruct (default [] (sessions st !! ip e)); [done|]. split; cbn; congruence.
  - destruct (timestamp_raises env (timestamp e)); [done|]. split; cbn; congruence.
Qed.

(** Where the content scan returns, the traffic tracker returns on the
    same hits, with the same sessions. *)
Lemma run_same_sessions yesterday evs st tr st' :
  same_sessions st tr ->
  run yesterday evs st = Some st' ->
  exists tr',
    Traffic.run (timestamp_raises env) (map traffic_hit evs) tr = Some tr'
    /\ same_sessions st' tr'.
Proof.
  revert st tr. induction evs as [|e evs IH]; intros st tr Hsame;
    cbn [Content.run Traffic.run map].
  - intros [= <-]. by exists tr.
  - destruct (track yesterday e st) as [st1|] eqn:Hst1; [|discriminate].
    pose proof (track_same_sessions yesterday e st tr Hsame (track_urlparse _ _ _ _ Hst1))
      as Hstep.
    rewrite Hst1 in Hstep.
    destruct (Traffic.track (timestamp_raises env) (traffic_hit e) tr) as [tr1|]; [|done].
    cbn [mbind option_bind]. by apply IH.
Qed.

(** Where the traffic tracker returns and [urlparse] returns on the
    URLs, the content scan returns. *)
Lemma run_returns_with_traffic yesterday evs st tr tr' :
  same_sessions st tr ->
  Forall (fun e => urlparse_raises env (url e) = false) evs ->
  Traffic.run (timestamp_raises env) (map traffic_hit evs) tr = Some tr' ->
  is_Some (run yesterday evs st).
Proof.
  intros Hsame Hall. revert st tr Hsame.
  induction Hall as [|e evs He _ IH]; intros st tr Hsame;
    cbn [Content.run Traffic.run map].
  - by eexists.
  - assert (Hurl : (bool_decide (url e ∉ urls st) && urlparse_raises env (url e)) = false)
      by (rewrite He; apply andb_false_r).
    pose proof (track_same_sessions yesterday e st tr Hsame Hurl) as Hstep.
    destruct (Traffic.track (timestamp_raises env) (traffic_hit e) tr) as [tr1|];
      [|discriminate].
    destruct (track yesterday e st) as [st1|]; [|done].
    cbn [mbind option_bind]. by apply IH.
Qed.

(** The content scan returns on a log on whose datetimes [timestamp()]
    returns and on whose URLs [urlparse] returns. *)
Lemma content_run_returns yesterday evs :
  returns evs -> is_Some (run yesterday evs init).
Proof.
  intros Hok.
  assert (Hts : Forall (fun e => timestamp_raises env (Traffic.timestamp e) = false)
                       (map traffic_hit evs)).
  { apply Forall_map. eapply Forall_impl; [exact Hok|]. by intros e [H _]. }
  destruct (run_returns (timestamp_raises env) (map traffic_hit evs) Traffic.init
              init_tracker_inv Hts) as [tr Htr].
  apply (run_returns_with_traffic yesterday evs init Traffic.init tr); [done| |done].
  eapply Forall_impl; [exact Hok|]. by intros e [_ H].
Qed.

(** X26.  The content scan returns on every log on whose datetimes
    [timestamp()] returns and on whose URLs [urlparse] returns.  Whenever
    it returns, the content analyzer has reconstructed the sessions of the
    traffic analyzer: on the same hits the session tracking of the traffic
    analyzer returns too, and [metrics['sessions']] and [ip_sessions] of
    the content analyzer are those of the traffic tracker. *)
Theorem content_sessions_are_traffic_sessions (yesterday : Z) (evs : list hit) :
  (returns evs -> is_Some (run yesterday evs init))
  /\ forall st,
       run yesterday evs init = Some st ->
       exists tr,
         Traffic.run (timestamp_raises env) (map traffic_hit evs) Traffic.init = Some tr
         /\ sessions st = Traffic.sessions tr
         /\ ip_sessions st = Traffic.ip_sessions tr.
Proof.
  split; [apply content_run_returns|]. intros st Hst.
  destruct (run_same_sessions yesterday evs init Traffic.init st (conj eq_refl eq_refl) Hst)
    as (tr & Htr & Hs & Hi).
  by exists tr.
Qed.

Lemma engagements_of_snoc url evs e :
  engagements_of url (evs ++ [e])
  = engagements_of url evs
    ++ match response_size e with
       | Some size =>
           if String.eqb (Content.url e) url
           then [{| e_ip := ip e; e_timestamp := timestamp e;
                    estimated_reading_time := calculate_reading_time size |}]
           else []
       | None => []
       end.
Proof.
  unfold engagements_of. rewrite flat_map_app. simpl. by rewrite app_nil_r.
Qed.

(** The lists that the scan builds, relative to the hits read so far. *)
Lemma run_lists yesterday evs st pre :
  (forall url, default [] (content_engagement st !! url) = engagements_of url pre) ->
  (forall url es, content_engagement st !! url = Some es -> es <> []) ->
  trending_content st
  = map (fun e => (url e, timestamp e))
        (List.filter (fun e => timestamp e >? yesterday) pre) ->
  forall st', run yesterday evs st = Some st' ->
    (forall url, default [] (content_engagement st' !! url) = engagements_of url (pre ++ evs))
    /\ (forall url es, content_engagement st' !! url = Some es -> es <> [])
    /\ trending_content st'
       = map (fun e => (url e, timestamp e))
             (List.filter (fun e => timestamp e >? yesterday) (pre ++ evs)).
Proof.
  revert st pre. induction evs as [|e evs IH]; intros st pre Heng Hne Htrend st' Hrun.
  - injection Hrun as <-. by rewrite app_nil_r.
  - cbn [Content.run] in Hrun.
    destruct (track yesterday e st) as [st1|] eqn:Htrack; [|done].
    cbn [mbind option_bind] in Hrun.
    destruct (content_track_lists _ _ _ _ Htrack) as [Hce Htc].
    replace (pre ++ e :: evs) with ((pre ++ [e]) ++ evs) by (by rewrite <- app_assoc).
    apply (IH st1 (pre ++ [e])); [| | |done].
    + intros u. rewrite Hce, engagements_of_snoc, <- Heng.
      destruct (response_size e) as [size|]; [|by rewrite app_nil_r].
      destruct (String.eqb_spec (url e) u) as [<-|Hneq].
      * by rewrite lookup_insert_eq.
      * rewrite lookup_insert_ne by done. by rewrite app_nil_r.
    + intros u es. rewrite Hce. destruct (response_size e) as [size|]; [|apply Hne].
      destruct (decide (url e = u)) as [<-|Hneq].
      * rewrite lookup_insert_eq. intros [= <-]. by destruct (default _ _).
      * rewrite lookup_insert_ne by done. apply Hne.
    + rewrite Htc, List.filter_app, map_app, <- Htrend. cbn [List.filter].
      destruct (timestamp e >? yesterday); [done|by rewrite app_nil_r].
Qed.

(** X27.  Whenever the content scan returns, which it does on every log
    on whose datetimes [timestamp()] returns and on whose URLs [urlparse]
    returns, the engagement records kept for a URL are those of the hits
    of the URL that carry a response size, in the order of the hits, each
    with the reading time estimated from that size; a URL has a key in
    [content_engagement] only with at least one record; and the trending
    list holds the hits later than the start of the run less one day, in
    their order. *)
Theorem content_lists_follow_hits (yesterday : Z) (evs : list hit) :
  (returns evs -> is_Some (run yesterday evs init))
  /\ forall st,
       run yesterday evs init = Some st ->
       (forall url,
          default [] (content_engagement st !! url) = engagements_of url evs)
       /\ (forall url es, content_engagement st !! url = Some es -> es <> [])
       /\ trending_content st
          = map (fun e => (url e, timestamp e))
                (List.filter (fun e => timestamp e >? yesterday) evs).
Proof.
  split; [apply content_run_returns|]. intros st Hst.
  apply (run_lists yesterday evs init []); done.
Qed.

Lemma calculate_reading_time_nonneg (size : Z) : (0 <= calculate_reading_time size)%Q.
Proof.
  unfold calculate_reading_time. destruct (Z.leb_spec size 0); [apply Qle_refl|].
  unfold Qle, Qdiv, Qmult, Qinv, inject_Z. simpl. lia.
Qed.

Lemma Qsum_nonneg (l : list Q) (acc : Q) :
  (forall x, In x l -> (0 <= x)%Q) -> (0 <= acc)%Q -> (0 <= foldl Qplus acc l)%Q.
Proof.
  revert acc. induction l as [|x l IH]; intros acc Hl Hacc; simpl; [done|].
  apply IH; [intros y Hy; apply Hl; by right|].
  replace 0%Q with (0 + 0)%Q by reflexivity.
  apply Qplus_le_compat; [done|apply Hl; by left].
Qed.

Lemma score_bounds (avg rate : Q) :
  (0 <= avg)%Q -> (0 <= rate)%Q -> (rate <= 100)%Q ->
  (0 <= avg * (1 - rate / 100))%Q /\ (avg * (1 - rate / 100) <= avg)%Q.
Proof.
  destruct avg as [an ad], rate as [rn rd].
  unfold Qle, Qmult, Qminus, Qplus, Qopp, Qdiv, Qinv. simpl.
  intros Ha Hr0 Hr100. split; nia.
Qed.

Lemma ratio_bounds (part whole : Z) :
  0 <= part <= whole ->
  let rate := if whole >? 0 then (inject_Z part / inject_Z whole * 100)%Q else 0%Q in
  (0 <= rate)%Q /\ (rate <= 100)%Q.
Proof.
  intros Hpw. cbv zeta.
  destruct (Z.gtb_spec whole 0) as [Hpos|_]; [|split; unfold Qle; simpl; lia].
  destruct whole as [|w|w]; try lia.
  split; unfold Qle, Qdiv, Qmult, Qinv, inject_Z; simpl; nia.
Qed.

Lemma filter_and_length_le {A} (f g : A -> bool) (l : list A) :
  (length (List.filter (fun x => f x && g x) l) <= length (List.filter f l))%nat.
Proof.
  induction l as [|x l IH]; [done|]. cbn [List.filter].
  destruct (f x), (g x); cbn [andb length]; lia.
Qed.

Lemma engagement_rate_of_bounds url engagements ss r :
  (forall e, In e engagements -> (0 <= estimated_reading_time e)%Q) ->
  engagement_rate_of url engagements ss = Some r ->
  (0 <= bounce_rate r)%Q /\ (bounce_rate r <= 100)%Q
  /\ (0 <= avg_time_on_page r)%Q
  /\ (0 <= engagement_score r)%Q /\ (engagement_score r <= avg_time_on_page r)%Q.
Proof.
  intros Hest Hr. unfold engagement_rate_of in Hr.
  destruct engagements as [|e0 engagements0] eqn:Heng; [done|]. rewrite <- Heng in *.
  destruct (engagement_times url engagements ss) as [|t0 times0] eqn:Htimes; [done|].
  rewrite <- Htimes in *.
  assert (Hnonneg : forall x, In x (engagement_times url engagements ss) -> (0 <= x)%Q).
  { intros x Hx. apply engagement_times_spec in Hx as (client & session & _ & Hx).
    apply session_engagement_times_spec in Hx
      as (_ & [(i & a & b & _ & _ & _ & Hpos & _)|(e & He & _ & ->)]).
    - by apply Qlt_le_weak.
    - by apply Hest. }
  assert (Havg : (0 <= Qsum (engagement_times url engagements ss)
                       / inject_Z (Z.of_nat (length (engagement_times url engagements ss))))%Q).
  { apply Qle_shift_div_l.
    - rewrite Htimes. unfold Qlt. simpl. lia.
    - rewrite Qmult_0_l. apply Qsum_nonneg; [done|apply Qle_refl]. }
  rewrite url_bounce_counters_spec in Hr.
  set (views := Z.of_nat (length (List.filter _ (map_to_list ss)))) in Hr.
  set (bounces := Z.of_nat (length (List.filter _ (map_to_list ss)))) in Hr.
  assert (Hbv : 0 <= bounces <= views).
  { subst bounces views. split; [lia|]. apply inj_le, filter_and_length_le. }
  destruct (ratio_bounds bounces views Hbv) as [Hr0 Hr100].
  injection Hr as <-. cbn [bounce_rate avg_time_on_page engagement_score].
  split; [done|]. split; [done|]. split; [done|].
  destruct (Qlt_bool _ 100); [by apply score_bounds|].
  split; [apply Qle_refl|done].
Qed.

(** X28.  Every entry of [engagement_rates] that the content analyzer
    stores after a scan has a bounce rate between 0 and 100, an average
    time on page that is not negative, and an engagement score between 0
    and the average time on page (in exact arithmetic). *)
Theorem engagement_metrics_within_bounds
    (yesterday : Z) (evs : list hit) (url : string) (r : engagement_rate) :
  engagement_after env yesterday evs url = Some r ->
  (0 <= bounce_rate r)%Q /\ (bounce_rate r <= 100)%Q
  /\ (0 <= avg_time_on_page r)%Q
  /\ (0 <= engagement_score r)%Q /\ (engagement_score r <= avg_time_on_page r)%Q.
Proof.
  unfold engagement_after. intros Hr.
  destruct (run yesterday evs init) as [st|] eqn:Hrun; [|done].
  cbn [mbind option_bind] in Hr.
  destruct (content_engagement st !! url) as [engagements|] eqn:Heng; [|done].
  cbn [mbind option_bind] in Hr.
  apply (engagement_rate_of_bounds url engagements (sessions st) r); [|done].
  destruct (run_lists yesterday evs init [] ltac:(done) ltac:(done) ltac:(done) st Hrun)
    as (Hlists & _).
  specialize (Hlists url). rewrite Heng in Hlists. cbn [default] in Hlists.
  unfold id in Hlists. rewrite Hlists. intros e He.
  unfold engagements_of in He. apply in_flat_map in He as (h & _ & He).
  destruct (response_size h) as [size|]; [|done].
  destruct (String.eqb _ _); [|done].
  destruct He as [<-|[]]. apply calculate_reading_time_nonneg.
Qed.

End ContentScan.

Section ContentScanExamples.
Import Content ContentInv.

Lemma engagement_metrics_within_bounds_witness :
  let t := 63832539600000000 in
  let evs := [{| ip := "8.8.8.8"; timestamp := t; url := "/a";
                 response_size := Some 1200 |};
              {| ip := "8.8.8.8"; timestamp := t + TimestampParser.minutes 10; url := "/b";
                 response_size := Some 600 |}] in
  let yesterday := t + TimestampParser.us_per_day in
  exists r,
    engagement_after plain_environment yesterday evs "/a" = Some r
    /\ (0 <= bounce_rate r)%Q /\ (bounce_rate r <= 100)%Q
    /\ (0 <= avg_time_on_page r)%Q
    /\ (0 <= engagement_score r)%Q /\ (engagement_score r <= avg_time_on_page r)%Q.
Proof.
  intros t evs yesterday. eexists. split; [vm_compute; reflexivity|].
  apply (engagement_metrics_within_bounds plain_environment yesterday evs "/a").
  vm_compute. reflexivity.
Defined.

End ContentScanExamples.


(** ** Exit pages of the SEO analyzer *)

Section SeoExitPages.
Import Seo.

Lemma seo_track_sessions e st :
  (forall c vs, sessions st !! c = Some vs -> vs <> []) ->
  (forall c vs, sessions (track e st) !! c = Some vs -> vs <> [])
  /\ (forall c, is_Some (sessions (track e st) !! c)
                <-> is_Some (sessions st !! c) \/ (bot_name e = None /\ ip e = c)).
Proof.
  intros Hne. unfold track. destruct (bot_name e) as [bot|].
  { split; [done|]. intros c. split; [by left|]. by intros [H|[? _]]. }
  assert (Hins : forall (vs' : list (Z * string)) c,
            is_Some (<[ip e := vs']> (sessions st) !! c)
            <-> is_Some (sessions st !! c) \/ (None = None :> option string /\ ip e = c)).
  { intros vs' c. destruct (decide (ip e = c)) as [<-|Hn].
    - rewrite lookup_insert_eq. split; [by right|eauto].
    - rewrite lookup_insert_ne by done. split; [by left|]. by intros [H|[_ H]]. }
  destruct (continues e st); cbn [sessions]; (split; [|apply Hins]).
  - intros c vs. destruct (decide (ip e = c)) as [<-|Hn].
    + rewrite lookup_insert_eq. intros [= <-]. by destruct (default _ _).
    + rewrite lookup_insert_ne by done. apply Hne.
  - intros c vs. destruct (decide (ip e = c)) as [<-|Hn].
    + rewrite lookup_insert_eq. by intros [= <-].
    + rewrite lookup_insert_ne by done. apply Hne.
Qed.

Lemma seo_run_sessions evs st :
  (forall c vs, sessions st !! c = Some vs -> vs <> []) ->
  (forall c vs, sessions (run evs st) !! c = Some vs -> vs <> [])
  /\ (forall c, is_Some (sessions (run evs st) !! c)
                <-> is_Some (sessions st !! c)
                    \/ exists e, In e evs /\ bot_name e = None /\ ip e = c).
Proof.
  revert st. induction evs as [|e evs IH]; intros st Hne; unfold run; cbn [foldl].
  - split; [done|]. intros c. split; [by left|]. by intros [H|(e & [] & _)].
  - destruct (seo_track_sessions e st Hne) as [Hne1 Hdom1].
    destruct (IH (track e st) Hne1) as [Hne' Hdom']. unfold run in Hne', Hdom'.
    split; [done|]. intros c. rewrite Hdom', Hdom1. split.
    + intros [[H|[Hb Hc]]|(x & Hx & Hb & Hc)]; [by left| |].
      * right. exists e. split; [by left|done].
      * right. exists x. split; [by right|done].
    + intros [H|(x & [<-|Hx] & Hb & Hc)]; [by left; left|by left; right|].
      right. by exists x.
Qed.

Lemma seo_exit_fold_sum (l : list (string * list (Z * string))) (acc : gmap string Z) :
  Forall (fun kv : string * list (Z * string) => kv.2 <> []) l ->
  sum_values (foldl (fun acc (kv : string * list (Z * string)) =>
                       match last kv.2 with
                       | Some (_, exit_url) => incr exit_url acc
                       | None => acc
                       end) acc l)
  = sum_values acc + Z.of_nat (length l).
Proof.
  intros Hl. revert acc. induction Hl as [|kv l Hkv _ IH]; intros acc.
  - simpl. lia.
  - cbn [foldl length]. rewrite IH.
    destruct (last kv.2) as [[t u]|] eqn:Hlast.
    + rewrite sum_values_incr. lia.
    + by apply last_None in Hlast.
Qed.

(** X29.  The SEO analyzer records exit pages only in its final loop, one
    for each client's last session: the counts of [top_exit_pages] add up
    to the number of clients with a session, and these are the clients of
    the hits that no search bot was identified for -- however many
    sessions each of them opened. *)
Theorem seo_exit_pages_one_per_client (evs : list hit) :
  let st := track_all evs in
  sum_values (top_exit_pages st) = Z.of_nat (size (sessions st))
  /\ (forall client,
        is_Some (sessions st !! client)
        <-> exists e, In e evs /\ bot_name e = None /\ ip e = client).
Proof.
  cbv zeta. unfold track_all, record_exit_pages. cbn [top_exit_pages sessions].
  destruct (seo_run_sessions evs init) as [Hne Hdom].
  { intros c vs H. unfold init in H. cbn in H. by rewrite lookup_empty in H. }
  split.
  - rewrite seo_exit_fold_sum.
    + rewrite length_map_to_list.
      assert (Hrun : sum_values (top_exit_pages (run evs init)) = 0); [|lia].
      assert (Hexit : forall l st, top_exit_pages (foldl (fun st e => track e st) st l)
                                   = top_exit_pages st).
      { induction l as [|e l IHl]; intros st; [done|]. cbn [foldl]. rewrite IHl.
        unfold track. destruct (bot_name e); [done|]. by destruct (continues e st). }
      unfold run. rewrite Hexit. apply sum_values_empty.
    + apply List.Forall_forall. intros [client vs] Hin.
      apply list_elem_of_In, elem_of_map_to_list in Hin. by apply (Hne client).
  - intros client. rewrite Hdom. split; [|by right].
    intros [H|H]; [|done]. unfold init in H. cbn in H. rewrite lookup_empty in H.
    by destruct H.
Qed.

End SeoExitPages.
